(** * Map-symbol icon generator: a shallow embedding and its specification

    The development follows the TypeScript modules of the program:

    - [Generator] embeds [src/p5-sketch/generator.ts]: the category
      registry, the memoised generator promise, the randomised symbol
      transform, the drawing helpers, the per-category drawers and
      [createIconForCategory];
    - [Main] embeds [src/main.ts]: the form-submit handler with its
      validation, the two nested generation loops, cooperative yields,
      cancellation and the ZIP naming scheme, and the listeners of the
      other controls;
    - [Navigation] embeds [src/navigation.ts]: the menu of the site.

    Numbers.  JavaScript numbers are IEEE doubles; the embedding idealises
    the finite ones as exact rationals ([Q]).  Every comparison the program
    makes on form input is against small integer constants, for which the
    idealisation is exact.  The pseudo-random source of p5 ([p.random]) is
    external: it is an oracle [sample : nat -> Q] of unit samples, read at a
    cursor kept in the state. *)

From Stdlib Require Import QArith Qround Qminmax Qabs Lqa ZArith Lia.
From Stdlib Require Import Ascii String DecimalString.
From stdpp Require Import gmap strings list.

(** ** JavaScript values shared by both modules *)

(** A JavaScript [number]: a finite value, [NaN] or a signed infinity. *)
Inductive number :=
| Finite (q : Q)
| NaN
| Infinity (negative : bool).

(** Errors raised with [throw new Error(...)], by message family. *)
Inductive JsError :=
| UnknownCategory (categoryId : number)
| CanvasUnavailable
| DrawerNotFound (key : string)
| ZipFolderFailed (folderName : string)
| NotAFunction.

Inductive result (A : Type) :=
| Ok (a : A)
| Throw (e : JsError).
Arguments Ok {A} a.
Arguments Throw {A} e.

(** [Number.isInteger] on a finite value. *)
Definition Q_isInteger (q : Q) : bool :=
  (Qnum q mod Zpos (Qden q) =? 0)%Z.

Definition Number_isInteger (n : number) : bool :=
  match n with
  | Finite q => Q_isInteger q
  | NaN | Infinity _ => false
  end.

(** [n < k] and [n >= k] against a finite [k]; every comparison with [NaN]
    is false. *)
Definition number_ltb (n : number) (k : Q) : bool :=
  match n with
  | Finite q => negb (Qle_bool k q)
  | NaN => false
  | Infinity negative => negative
  end.

Definition number_geb (n : number) (k : Q) : bool :=
  match n with
  | Finite q => Qle_bool k q
  | NaN => false
  | Infinity negative => negb negative
  end.

Module Generator.

Local Open Scope Q_scope.

(** *** Registry *)

Record SymbolCategory := {
  id : nat;
  key : string;
  label : string;
}.

Definition DEFAULT_CANVAS_SIZE : Q := 28.

(** The labels are display text only; they are kept in romanised form. *)
Definition SYMBOL_CATEGORIES : list SymbolCategory := [
  {| id := 0; key := "city-hall"; label := "shiyakusho" |};
  {| id := 1; key := "police-box"; label := "koban" |};
  {| id := 2; key := "high-school"; label := "kotogakko" |};
  {| id := 3; key := "post-office"; label := "yubinkyoku" |};
  {| id := 4; key := "hospital"; label := "byoin" |};
  {| id := 5; key := "shrine"; label := "jinja" |};
  {| id := 6; key := "temple"; label := "jiin" |};
  {| id := 7; key := "museum"; label := "hakubutsukan" |};
  {| id := 8; key := "factory"; label := "kojo" |};
  {| id := 9; key := "castle-ruins"; label := "shiroato" |}
].

(** *** The offscreen graphics object *)

(** Angles are kept as rational multiples of pi: [PiTimes k] is [k * pi]
    radians. *)
Inductive angle := PiTimes (k : Q).

Definition PI : angle := PiTimes 1.
Definition radians (degrees : Q) : angle := PiTimes (degrees / 180).
Definition angle_times (i : Q) (a : angle) : angle :=
  match a with PiTimes k => PiTimes (i * k) end.
Definition angle_over (a : angle) (d : Q) : angle :=
  match a with PiTimes k => PiTimes (k / d) end.

Inductive Xform :=
| Translate (x y : Q)
| Rotate (a : angle)
| Scale (s : Q).

Inductive Cap := ROUND | SQUARE.
Inductive Join := MITER | BEVEL.

(** What [g.push()] saves and [g.pop()] restores: the transform, in the
    order its parts were applied, and the style. *)
Record DrawState := {
  xform : list Xform;
  weight : Q;
  strokeColor : option Z;
  fillColor : option Z;
  cap : Cap;
  join : Join;
}.

Inductive Prim :=
| Line (x1 y1 x2 y2 : Q)
| Circle (x y d : Q)
| Shape (vertices : list (Q * Q)) (closed : bool).

(** A primitive together with the drawing state it was painted under. *)
Record Painted := { prim : Prim; under : DrawState }.

Record Graphics := {
  width : Z;
  height : Z;
  density : Z;
  background : option Z;
  smoothing : bool;
  cur : DrawState;
  saved : list DrawState;
  vertices : list (Q * Q);
  painted : list Painted;
}.

(** p5 defaults of a fresh graphics: identity transform, black 1px stroke,
    white fill, round caps, mitered joins. *)
Definition initialDrawState : DrawState :=
  {| xform := []; weight := 1; strokeColor := Some 0%Z;
     fillColor := Some 255%Z; cap := ROUND; join := MITER |}.

Definition newGraphics (w h : Z) : Graphics :=
  {| width := w; height := h; density := 1; background := None;
     smoothing := true; cur := initialDrawState; saved := [];
     vertices := []; painted := [] |}.

(** The p5 instance: its random source and whether the offscreen canvas
    element of a graphics can be reached. *)
Record P5 := {
  sample : nat -> Q;
  canvasReachable : bool;
}.

(** Mutable state of the module: the cursor into the random source, the
    module-level [currentScale], the graphics being drawn on, and the
    memoised generator promise with the count of p5 instances created. *)
Record Promise := { promiseId : nat }.

Record World := {
  cursor : nat;
  currentScale : Q;
  g : Graphics;
  generatorPromise : option Promise;
  p5Instances : nat;
}.

Definition initialWorld : World :=
  {| cursor := 0; currentScale := 1; g := newGraphics 0 0;
     generatorPromise := None; p5Instances := 0 |}.

(** *** State-and-exception monad of the sketch *)

Definition M (A : Type) : Type := World -> result A * World.

#[export] Instance M_ret : MRet M := fun A a w => (Ok a, w).
#[export] Instance M_bind : MBind M := fun A B f m w =>
  match m w with
  | (Ok a, w') => f a w'
  | (Throw e, w') => (Throw e, w')
  end.

Definition throw {A} (e : JsError) : M A := fun w => (Throw e, w).

(** [try { body } finally { cleanup }]: the cleanup runs on both exits and
    the body's outcome is kept unless the cleanup itself throws. *)
Definition try_finally {A} (body : M A) (cleanup : M unit) : M A := fun w =>
  let '(r, w1) := body w in
  match cleanup w1 with
  | (Ok _, w2) => (r, w2)
  | (Throw e, w2) => (Throw e, w2)
  end.

Definition modify_g (f : Graphics -> Graphics) : M unit := fun w =>
  (Ok tt, {| cursor := cursor w; currentScale := currentScale w;
             g := f (g w); generatorPromise := generatorPromise w;
             p5Instances := p5Instances w |}).

Definition modify_cur (f : DrawState -> DrawState) : M unit :=
  modify_g (fun gr =>
    {| width := width gr; height := height gr; density := density gr;
       background := background gr; smoothing := smoothing gr;
       cur := f (cur gr); saved := saved gr; vertices := vertices gr;
       painted := painted gr |}).

Definition set_currentScale (s : Q) : M unit := fun w =>
  (Ok tt, {| cursor := cursor w; currentScale := s; g := g w;
             generatorPromise := generatorPromise w;
             p5Instances := p5Instances w |}).

Definition get_currentScale : M Q := fun w => (Ok (currentScale w), w).

(** [p.random(lo, hi)]: the next unit sample, mapped affinely onto
    [lo, hi). *)
Definition random (p : P5) (lo hi : Q) : M Q := fun w =>
  (Ok (sample p (cursor w) * (hi - lo) + lo),
   {| cursor := S (cursor w); currentScale := currentScale w; g := g w;
      generatorPromise := generatorPromise w;
      p5Instances := p5Instances w |}).

(** *** Graphics primitives *)

Definition g_push : M unit :=
  modify_g (fun gr =>
    {| width := width gr; height := height gr; density := density gr;
       background := background gr; smoothing := smoothing gr;
       cur := cur gr; saved := cur gr :: saved gr; vertices := vertices gr;
       painted := painted gr |}).

(** [g.pop()] restores the most recently pushed state; with nothing pushed
    it leaves the state alone. *)
Definition g_pop : M unit :=
  modify_g (fun gr =>
    match saved gr with
    | [] => gr
    | st :: rest =>
        {| width := width gr; height := height gr; density := density gr;
           background := background gr; smoothing := smoothing gr;
           cur := st; saved := rest; vertices := vertices gr;
           painted := painted gr |}
    end).

Definition with_xform (t : Xform) (d : DrawState) : DrawState :=
  {| xform := xform d ++ [t]; weight := weight d;
     strokeColor := strokeColor d; fillColor := fillColor d;
     cap := cap d; join := join d |}.

Definition g_translate (x y : Q) : M unit := modify_cur (with_xform (Translate x y)).
Definition g_rotate (a : angle) : M unit := modify_cur (with_xform (Rotate a)).
Definition g_scale (s : Q) : M unit := modify_cur (with_xform (Scale s)).

Definition g_strokeWeight (w : Q) : M unit :=
  modify_cur (fun d =>
    {| xform := xform d; weight := w; strokeColor := strokeColor d;
       fillColor := fillColor d; cap := cap d; join := join d |}).

Definition g_stroke (c : Z) : M unit :=
  modify_cur (fun d =>
    {| xform := xform d; weight := weight d; strokeColor := Some c;
       fillColor := fillColor d; cap := cap d; join := join d |}).

Definition g_fill (c : Z) : M unit :=
  modify_cur (fun d =>
    {| xform := xform d; weight := weight d; strokeColor := strokeColor d;
       fillColor := Some c; cap := cap d; join := join d |}).

Definition g_noFill : M unit :=
  modify_cur (fun d =>
    {| xform := xform d; weight := weight d; strokeColor := strokeColor d;
       fillColor := None; cap := cap d; join := join d |}).

Definition g_strokeCap (c : Cap) : M unit :=
  modify_cur (fun d =>
    {| xform := xform d; weight := weight d; strokeColor := strokeColor d;
       fillColor := fillColor d; cap := c; join := join d |}).

Definition g_strokeJoin (j : Join) : M unit :=
  modify_cur (fun d =>
    {| xform := xform d; weight := weight d; strokeColor := strokeColor d;
       fillColor := fillColor d; cap := cap d; join := j |}).

Definition g_pixelDensity (n : Z) : M unit :=
  modify_g (fun gr =>
    {| width := width gr; height := height gr; density := n;
       background := background gr; smoothing := smoothing gr;
       cur := cur gr; saved := saved gr; vertices := vertices gr;
       painted := painted gr |}).

Definition g_background (c : Z) : M unit :=
  modify_g (fun gr =>
    {| width := width gr; height := height gr; density := density gr;
       background := Some c; smoothing := smoothing gr;
       cur := cur gr; saved := saved gr; vertices := vertices gr;
       painted := painted gr |}).

Definition g_imageSmoothing (b : bool) : M unit :=
  modify_g (fun gr =>
    {| width := width gr; height := height gr; density := density gr;
       background := background gr; smoothing := b;
       cur := cur gr; saved := saved gr; vertices := vertices gr;
       painted := painted gr |}).

Definition paint (pr : Prim) : M unit :=
  modify_g (fun gr =>
    {| width := width gr; height := height gr; density := density gr;
       background := background gr; smoothing := smoothing gr;
       cur := cur gr; saved := saved gr; vertices := vertices gr;
       painted := painted gr ++ [{| prim := pr; under := cur gr |}] |}).

Definition g_line (x1 y1 x2 y2 : Q) : M unit := paint (Line x1 y1 x2 y2).
Definition g_circle (x y d : Q) : M unit := paint (Circle x y d).

Definition set_vertices (vs : list (Q * Q)) (gr : Graphics) : Graphics :=
  {| width := width gr; height := height gr; density := density gr;
     background := background gr; smoothing := smoothing gr;
     cur := cur gr; saved := saved gr; vertices := vs;
     painted := painted gr |}.

Definition g_beginShape : M unit := modify_g (set_vertices []).
Definition g_vertex (x y : Q) : M unit :=
  modify_g (fun gr => set_vertices (vertices gr ++ [(x, y)]) gr).
Definition g_endShape (closed : bool) : M unit :=
  modify_g (fun gr =>
    set_vertices []
      {| width := width gr; height := height gr; density := density gr;
         background := background gr; smoothing := smoothing gr;
         cur := cur gr; saved := saved gr; vertices := vertices gr;
         painted := painted gr ++
           [{| prim := Shape (vertices gr) closed; under := cur gr |}] |}).

(** *** Drawing helpers *)

Definition toPx (value size : Q) : Q := value * size.

(** The helpers below have default arguments; [None] stands for an
    argument left out. *)
Definition jitter (p : P5) (size : Q) (amount : option Q) : M Q :=
  let amount := default 0.005 amount in
  random p (- size * amount) (size * amount).

(** [stroke] reads the module-level [currentScale]. *)
Definition stroke (size : Q) (factor : option Q) : M Q :=
  let factor := default 0.06 factor in
  s ← get_currentScale;
  mret (Qmax 1 ((size * factor) / s)).

Definition vary (p : P5) (value : Q) (ratio : option Q) : M Q :=
  let ratio := default 0.1 ratio in
  r ← random p (1 - ratio) (1 + ratio);
  mret (value * r).

(** *** The randomised transform *)

Definition applySymbolTransform (p : P5) (size : Q) (draw : M unit) : M unit :=
  g_push;;
  let center := size / 2 in
  degrees ← random p (-20) 20;
  let rotation := radians degrees in
  sc ← random p 0.5 1;
  set_currentScale sc;;
  g_translate center center;;
  g_rotate rotation;;
  s ← get_currentScale;
  g_scale s;;
  ox ← random p (-0.05) 0.05;
  oy ← random p (-0.05) 0.05;
  g_translate (size * ox) (size * oy);;
  try_finally draw (g_pop;; set_currentScale 1).

(** *** Category drawers *)

Definition SymbolDrawer : Type := P5 -> Q -> M unit.

Fixpoint for_each (indices : list nat) (body : nat -> M unit) : M unit :=
  match indices with
  | [] => mret tt
  | i :: rest => body i;; for_each rest body
  end.

Definition Q_of_nat (n : nat) : Q := inject_Z (Z.of_nat n).

Definition drawCityHall : SymbolDrawer := fun p size =>
  g_push;;
  g_noFill;;
  f1 ← random p 0.05 0.08;
  g_strokeWeight (size * f1);;
  d1 ← random p 0.7 0.8;
  g_circle 0 0 (size * d1);;
  f2 ← random p 0.04 0.06;
  g_strokeWeight (size * f2);;
  d2 ← random p 0.5 0.6;
  g_circle 0 0 (size * d2);;
  g_pop.

Definition drawPoliceBox : SymbolDrawer := fun p size =>
  g_push;;
  f ← random p 0.07 0.1;
  g_strokeWeight (size * f);;
  g_line (- size * 0.3) (- size * 0.3) (size * 0.3) (size * 0.3);;
  g_line (- size * 0.3) (size * 0.3) (size * 0.3) (- size * 0.3);;
  g_pop.

Definition drawHighSchool : SymbolDrawer := fun p size =>
  u ← random p 0.3 0.4;
  let r := size * u in
  g_push;;
  g_noFill;;
  f ← random p 0.07 0.1;
  g_strokeWeight (size * f);;
  d ← random p 0.7 0.8;
  g_circle 0 0 (size * d);;
  g_line 0 (- r) 0 (- r * 0.35);;
  g_line (- r * 0.95) (- r * 0.35) (r * 0.95) (- r * 0.35);;
  g_line (- r * 0.6) (- r * 0.35) (r * 0.6) (r * 0.9);;
  g_line (r * 0.6) (- r * 0.35) (- r * 0.6) (r * 0.9);;
  g_pop.

Definition drawPostOffice : SymbolDrawer := fun p size =>
  u ← random p 0.3 0.4;
  let r := size * u in
  g_push;;
  g_noFill;;
  f ← random p 0.07 0.1;
  g_strokeWeight (size * f);;
  d ← random p 0.7 0.8;
  g_circle 0 0 (size * d);;
  g_line (- r * 0.95) (- r * 0.15) (r * 0.95) (- r * 0.15);;
  g_line (- r * 0.95) (- r * 0.55) (r * 0.95) (- r * 0.55);;
  g_line 0 (- r * 0.15) 0 (r * 0.95);;
  g_pop.

Definition drawHospital : SymbolDrawer := fun p size =>
  u ← random p 0.3 0.4;
  let r := size * u in
  g_push;;
  g_noFill;;
  f ← random p 0.07 0.1;
  g_strokeWeight (size * f);;
  g_beginShape;;
  g_vertex (- r * 0.8) (- r * 0.8);;
  g_vertex (- r * 0.8) (r * 0.35);;
  g_vertex 0 (r * 0.8);;
  g_vertex (r * 0.8) (r * 0.35);;
  g_vertex (r * 0.8) (- r * 0.8);;
  g_endShape true;;
  g_line (- r * 0.6) 0 (r * 0.6) 0;;
  g_line 0 (- r * 0.6) 0 (r * 0.6);;
  g_pop.

Definition drawShrine : SymbolDrawer := fun p size =>
  g_push;;
  f ← random p 0.07 0.1;
  g_strokeWeight (size * f);;
  g_line (- size * 0.3) (size * 0.4) (- size * 0.3) (- size * 0.4);;
  g_line (size * 0.3) (size * 0.4) (size * 0.3) (- size * 0.4);;
  g_line (- size * 0.5) (- size * 0.4) (size * 0.5) (- size * 0.4);;
  g_line (- size * 0.3) (- size * 0.1) (size * 0.3) (- size * 0.1);;
  g_pop.

Definition drawTemple : SymbolDrawer := fun p size =>
  g_push;;
  g_noFill;;
  f ← random p 0.07 0.1;
  g_strokeWeight (size * f);;
  u ← random p 0.2 0.3;
  let l := u * size in
  for_each (seq 0 4) (fun i =>
    let a := angle_over (angle_times (Q_of_nat i) PI) 2 in
    g_push;;
    g_rotate a;;
    g_beginShape;;
    g_vertex (- l) (- l);;
    g_vertex 0 (- l);;
    g_vertex 0 0;;
    g_endShape false;;
    g_pop);;
  g_pop.

Definition drawMuseum : SymbolDrawer := fun p size =>
  u1 ← random p 0.3 0.4;
  let y1 := - size * u1 in
  u2 ← random p (-0.1) 0.1;
  let y2 := size * u2 in
  u3 ← random p 0.3 0.4;
  let y3 := size * u3 in
  v0 ← random p 0.45 0.5;
  let x0 := - size * v0 in
  v1 ← random p 0.35 0.45;
  let x1 := - size * v1 in
  v2 ← random p 0.15 0.25;
  let x2 := - size * v2 in
  let x3 := Qabs x2 in
  let x4 := Qabs x1 in
  let x5 := Qabs x0 in
  g_push;;
  f ← random p 0.07 0.1;
  g_strokeWeight (size * f);;
  g_line 0 y1 x1 y2;;
  g_line 0 y1 x4 y2;;
  g_line x0 y2 x5 y2;;
  g_line x1 y2 x1 y3;;
  g_line x2 y2 x2 y3;;
  g_line x3 y2 x3 y3;;
  g_line x4 y2 x4 y3;;
  g_line x0 y3 x5 y3;;
  g_pop.

Definition drawFactory : SymbolDrawer := fun p size =>
  u ← random p 0.2 0.3;
  let r := size * u in
  g_push;;
  g_noFill;;
  f ← random p 0.07 0.1;
  g_strokeWeight (size * f);;
  g_circle 0 0 (r * 2);;
  for_each (seq 0 8) (fun i =>
    let a := angle_over (angle_times (Q_of_nat i) PI) 4 in
    g_push;;
    g_rotate a;;
    g_line r 0 (r * 1.8) 0;;
    g_pop);;
  g_pop.

Definition drawCastleRuins : SymbolDrawer := fun p size =>
  v1 ← random p 0.4 0.5;
  let x1 := - size * v1 in
  v2 ← random p 0.15 0.25;
  let x2 := - size * v2 in
  let x3 := Qabs x2 in
  let x4 := Qabs x1 in
  u1 ← random p 0.4 0.5;
  let y1 := - size * u1 in
  u2 ← random p 0.05 0.15;
  let y2 := - size * u2 in
  u3 ← random p 0.4 0.5;
  let y3 := size * u3 in
  g_push;;
  g_noFill;;
  f ← random p 0.07 0.1;
  g_strokeWeight (size * f);;
  g_beginShape;;
  g_vertex x1 y3;;
  g_vertex x1 y2;;
  g_vertex x2 y2;;
  g_vertex x2 y1;;
  g_vertex x3 y1;;
  g_vertex x3 y2;;
  g_vertex x4 y2;;
  g_vertex x4 y3;;
  g_endShape false;;
  g_pop.

(** The categories not designed yet: each draws nothing. *)
Definition drawHotSpring : SymbolDrawer := fun _ _ => g_push;; g_pop.
Definition drawFishingPort : SymbolDrawer := fun _ _ => g_push;; g_pop.
Definition drawOrchard : SymbolDrawer := fun _ _ => g_push;; g_pop.
Definition drawBroadleafForest : SymbolDrawer := fun _ _ => g_push;; g_pop.
Definition drawConiferousForest : SymbolDrawer := fun _ _ => g_push;; g_pop.
Definition drawLibrary : SymbolDrawer := fun _ _ => g_push;; g_pop.
Definition drawWindmill : SymbolDrawer := fun _ _ => g_push;; g_pop.

(** The string-keyed members every plain object inherits. *)
Definition Object_prototype_members : list string := [
  "constructor"; "hasOwnProperty"; "isPrototypeOf"; "propertyIsEnumerable";
  "toLocaleString"; "toString"; "valueOf"; "__proto__";
  "__defineGetter__"; "__defineSetter__"; "__lookupGetter__"; "__lookupSetter__"
].

Definition DRAWERS_BY_KEY : gmap string SymbolDrawer := list_to_map [
  ("city-hall", drawCityHall);
  ("police-box", drawPoliceBox);
  ("high-school", drawHighSchool);
  ("post-office", drawPostOffice);
  ("hospital", drawHospital);
  ("shrine", drawShrine);
  ("temple", drawTemple);
  ("museum", drawMuseum);
  ("factory", drawFactory);
  ("castle-ruins", drawCastleRuins);
  ("hot-spring", drawHotSpring);
  ("fishing-port", drawFishingPort);
  ("orchard", drawOrchard);
  ("broadleaf-forest", drawBroadleafForest);
  ("coniferous-forest", drawConiferousForest);
  ("library", drawLibrary);
  ("windmill", drawWindmill)
].

(** The [map] that builds [DRAWERS] when the module is loaded; a key with
    no drawer throws there.  [DRAWERS_BY_KEY] is a plain object: the lookup
    is that of its own properties, which is what the object gives for every
    key that does not name a member inherited from [Object.prototype]
    ([Object_prototype_members]); the keys of the registry are such. *)
Fixpoint build_drawers (categories : list SymbolCategory)
  : result (list SymbolDrawer) :=
  match categories with
  | [] => Ok []
  | c :: rest =>
      match DRAWERS_BY_KEY !! key c with
      | None => Throw (DrawerNotFound (key c))
      | Some d =>
          match build_drawers rest with
          | Ok ds => Ok (d :: ds)
          | Throw e => Throw e
          end
      end
  end.

Definition DRAWERS_loaded : result (list SymbolDrawer) :=
  build_drawers SYMBOL_CATEGORIES.

Definition DRAWERS : list SymbolDrawer :=
  match DRAWERS_loaded with
  | Ok ds => ds
  | Throw _ => []
  end.

(** *** Memoised generator *)

(** [createGenerator]: a fresh promise whose executor creates one p5
    instance. *)
Definition createGenerator : M Promise := fun w =>
  (Ok {| promiseId := p5Instances w |},
   {| cursor := cursor w; currentScale := currentScale w; g := g w;
      generatorPromise := generatorPromise w;
      p5Instances := S (p5Instances w) |}).

Definition set_generatorPromise (pr : Promise) : M unit := fun w =>
  (Ok tt, {| cursor := cursor w; currentScale := currentScale w; g := g w;
             generatorPromise := Some pr; p5Instances := p5Instances w |}).

Definition getIconGenerator : M Promise := fun w =>
  match generatorPromise w with
  | None =>
      (pr ← createGenerator;
       set_generatorPromise pr;;
       mret pr) w
  | Some pr => (Ok pr, w)
  end.

(** *** One icon *)

(** The PNG data URL of a canvas: the encoder is the browser's, so the URL
    is represented by the canvas it encodes. *)
Record DataUrl := { mime : string; image : Graphics }.

Definition createGraphics (w h : Z) : M unit := modify_g (fun _ => newGraphics w h).

Definition ensureCanvasElement (p : P5) : M Graphics := fun w =>
  if canvasReachable p then (Ok (g w), w) else (Throw CanvasUnavailable, w).

(** [DRAWERS[categoryId]] for an id that passed the range check. *)
Definition drawer_at (categoryId : Q) : SymbolDrawer :=
  match DRAWERS !! Z.to_nat (Qfloor categoryId) with
  | Some d => d
  | None => fun _ _ => throw NotAFunction
  end.

(** The body of [createIconForCategory] below the range check, with
    [drawer] standing for [DRAWERS[categoryId]]. *)
Definition renderIcon (drawer : SymbolDrawer) (size : Q) (p : P5) : M DataUrl :=
  let canvasSize := Z.max 8 (Qfloor size) in
  createGraphics canvasSize canvasSize;;
  g_pixelDensity 1;;
  g_background 255;;
  g_stroke 0;;
  g_fill 0;;
  g_strokeCap SQUARE;;
  g_strokeJoin MITER;;
  g_imageSmoothing false;;
  applySymbolTransform p (inject_Z canvasSize)
    (drawer p (inject_Z canvasSize));;
  canvas ← ensureCanvasElement p;
  mret {| mime := "image/png"; image := canvas |}.

Definition createIconForCategory (categoryId : number) (size : Q) (p : P5)
  : M DataUrl :=
  if negb (Number_isInteger categoryId)
     || number_ltb categoryId 0
     || number_geb categoryId (Q_of_nat (length SYMBOL_CATEGORIES))
  then throw (UnknownCategory categoryId)
  else
    match categoryId with
    | Finite cid => renderIcon (drawer_at cid) size p
    | NaN | Infinity _ => throw (UnknownCategory categoryId)
    end.

(** The [generateIcon] closure handed out by the promise. *)
Definition generateIcon (p : P5) (categoryId : number) (size : option Q)
  : M DataUrl :=
  createIconForCategory categoryId (default DEFAULT_CANVAS_SIZE size) p.

End Generator.

(** ** [src/main.ts] *)

Module Main.

Import Generator.

Definition MAX_PER_CATEGORY : Z := 6000.
Definition MIN_PIXEL_SIZE : Z := 8.
Definition MAX_PIXEL_SIZE : Z := 512.
Definition PREVIEW_SIZE : Z := 96.

(** *** Strings

    Strings are ASCII: the category keys and the form values the program
    handles are.  On ASCII text [normalize('NFKD')] is the identity. *)

(** White space of [\s], [trim] and [parseInt], within ASCII. *)
Definition is_space (c : ascii) : bool :=
  let n := nat_of_ascii c in
  (n =? 32)%nat || ((9 <=? n)%nat && (n <=? 13)%nat).

Definition is_digit (c : ascii) : bool :=
  let n := nat_of_ascii c in (48 <=? n)%nat && (n <=? 57)%nat.

(** [\w]: letters, digits and the underscore. *)
Definition is_word (c : ascii) : bool :=
  let n := nat_of_ascii c in
  is_digit c
  || ((65 <=? n)%nat && (n <=? 90)%nat)
  || ((97 <=? n)%nat && (n <=? 122)%nat)
  || (n =? 95)%nat.

Definition is_hyphen (c : ascii) : bool := (nat_of_ascii c =? 45)%nat.

Definition toLowerCase_ascii (c : ascii) : ascii :=
  let n := nat_of_ascii c in
  if (65 <=? n)%nat && (n <=? 90)%nat then ascii_of_nat (n + 32) else c.

Fixpoint trimStart (s : string) : string :=
  match s with
  | EmptyString => EmptyString
  | String c rest => if is_space c then trimStart rest else s
  end.

Definition trim (s : string) : string :=
  String.rev (trimStart (String.rev (trimStart s))).

(** [replace(/[^\w\s-]/g, '')] *)
Fixpoint strip_symbols (s : string) : string :=
  match s with
  | EmptyString => EmptyString
  | String c rest =>
      if is_word c || is_space c || is_hyphen c
      then String c (strip_symbols rest)
      else strip_symbols rest
  end.

(** [replace(/\s+/g, '-')]: every maximal run of white space becomes one
    hyphen; [in_run] tells that the previous character was white space. *)
Fixpoint hyphenate_from (in_run : bool) (s : string) : string :=
  match s with
  | EmptyString => EmptyString
  | String c rest =>
      if is_space c
      then if in_run then hyphenate_from true rest
           else String "-"%char (hyphenate_from true rest)
      else String c (hyphenate_from false rest)
  end.

Definition hyphenate_spaces (s : string) : string := hyphenate_from false s.

Fixpoint toLowerCase (s : string) : string :=
  match s with
  | EmptyString => EmptyString
  | String c rest => String (toLowerCase_ascii c) (toLowerCase rest)
  end.

Definition slugify (value : string) : string :=
  toLowerCase (hyphenate_spaces (trim (strip_symbols value))).

(** [String(n)] for an integer and for a loop index. *)
Definition String_of_Z (z : Z) : string :=
  NilZero.string_of_int (Z.to_int z).

Definition String_of_nat (n : nat) : string := String_of_Z (Z.of_nat n).

Fixpoint repeat_char (c : ascii) (n : nat) : string :=
  match n with
  | O => EmptyString
  | S k => String c (repeat_char c k)
  end.

(** [s.padStart(targetLength, c)] with a one-character filler. *)
Definition padStart (s : string) (targetLength : nat) (c : ascii) : string :=
  repeat_char c (targetLength - String.length s) +:+ s.

(** [Number.parseInt(s, 10)]: leading white space is skipped, one sign is
    accepted, then the longest run of decimal digits is read; [None] stands
    for [NaN]. *)
Fixpoint read_digits (s : string) (acc : option Z) : option Z :=
  match s with
  | EmptyString => acc
  | String c rest =>
      if is_digit c
      then read_digits rest
             (Some (10 * default 0%Z acc + Z.of_nat (nat_of_ascii c - 48))%Z)
      else acc
  end.

Definition Number_parseInt (s : string) : option Z :=
  match trimStart s with
  | String "-"%char rest => Z.opp <$> read_digits rest None
  | String "+"%char rest => read_digits rest None
  | t => read_digits t None
  end.

(** *** Progress messages

    Lines appended to the progress text area, without their time stamps. *)
Inductive Message :=
| MsgInitialising
| MsgInitialised
| MsgPreviewsLoaded
| MsgReadyForInput
| MsgPreviewsRefreshed
| MsgCancelRequested
| MsgGeneratorFailed
| MsgCountInvalid
| MsgPixelInvalid
| MsgNoCategory
| MsgStart (categories : nat) (perCategory pixelSize : Z)
| MsgCategory (label : string) (ordinal total : nat)
| MsgProgress (label : string) (produced : nat) (perCategory : Z)
| MsgCancelled
| MsgCompressing
| MsgDone
| MsgError (e : JsError).

(** *** The archive under construction

    JSZip is an external library: the archive is represented by the calls
    the program makes on it, in order. *)
Inductive ZipCall :=
| FolderCall (folderName : string)
| FileCall (folderName fileName : string) (data : Graphics).

Definition Zip : Type := list ZipCall.

(** [zip.folder(name)] *)
Definition zip_folder (name : string) (z : Zip) : Zip := z ++ [FolderCall name].

(** [folder.file(name, data, { base64: true })] on the folder [folderName]. *)
Definition folder_file (folderName name : string) (data : Graphics) (z : Zip) : Zip :=
  z ++ [FileCall folderName name data].

(** *** Page state *)

(** The [disabled] attribute of the form controls. *)
Record Disabled := {
  generateButton : bool;
  cancelButton : bool;
  countInput : bool;
  pixelInput : bool;
  refreshButton : bool;
}.

(** The browser around the page: the p5 instance the generator resolves
    with, whether the user clicks the cancel button while the handler is
    suspended for the n-th time, and whether [zip.folder] hands back a
    folder.  The cancel button is the one control whose events are
    followed: the others are disabled for the length of a run. *)
Record Browser := {
  p5 : P5;
  cancelClicked : nat -> bool;
  folderCreated : string -> bool;
}.

(** What the page shows while the handler is suspended. *)
Record Snapshot := {
  shownDisabled : Disabled;
  shownCheckboxes : list (nat * bool);
  shownGenerating : bool;
}.

Record App := {
  world : World;
  generator : option P5;
  initialized : bool;
  isGenerating : bool;
  cancelRequested : bool;
  selectedCategories : gset nat;
  previewImages : list (nat * DataUrl);
  countValue : string;
  pixelValue : string;
  disabled : Disabled;
  checkboxes : list (nat * bool);
  progress : list Message;
  suspended : list Snapshot;
  compressed : list Zip;
  downloads : list Zip;
}.

Definition set_world (v : World) (s : App) : App :=
  {| world := v; generator := generator s; initialized := initialized s;
     isGenerating := isGenerating s; cancelRequested := cancelRequested s;
     selectedCategories := selectedCategories s;
     previewImages := previewImages s; countValue := countValue s;
     pixelValue := pixelValue s; disabled := disabled s;
     checkboxes := checkboxes s; progress := progress s;
     suspended := suspended s; compressed := compressed s;
     downloads := downloads s |}.

Definition set_generator (v : option P5) (s : App) : App :=
  {| world := world s; generator := v; initialized := initialized s;
     isGenerating := isGenerating s; cancelRequested := cancelRequested s;
     selectedCategories := selectedCategories s;
     previewImages := previewImages s; countValue := countValue s;
     pixelValue := pixelValue s; disabled := disabled s;
     checkboxes := checkboxes s; progress := progress s;
     suspended := suspended s; compressed := compressed s;
     downloads := downloads s |}.

Definition set_initialized (v : bool) (s : App) : App :=
  {| world := world s; generator := generator s; initialized := v;
     isGenerating := isGenerating s; cancelRequested := cancelRequested s;
     selectedCategories := selectedCategories s;
     previewImages := previewImages s; countValue := countValue s;
     pixelValue := pixelValue s; disabled := disabled s;
     checkboxes := checkboxes s; progress := progress s;
     suspended := suspended s; compressed := compressed s;
     downloads := downloads s |}.

Definition set_isGenerating (v : bool) (s : App) : App :=
  {| world := world s; generator := generator s; initialized := initialized s;
     isGenerating := v; cancelRequested := cancelRequested s;
     selectedCategories := selectedCategories s;
     previewImages := previewImages s; countValue := countValue s;
     pixelValue := pixelValue s; disabled := disabled s;
     checkboxes := checkboxes s; progress := progress s;
     suspended := suspended s; compressed := compressed s;
     downloads := downloads s |}.

Definition set_cancelRequested (v : bool) (s : App) : App :=
  {| world := world s; generator := generator s; initialized := initialized s;
     isGenerating := isGenerating s; cancelRequested := v;
     selectedCategories := selectedCategories s;
     previewImages := previewImages s; countValue := countValue s;
     pixelValue := pixelValue s; disabled := disabled s;
     checkboxes := checkboxes s; progress := progress s;
     suspended := suspended s; compressed := compressed s;
     downloads := downloads s |}.

Definition set_selectedCategories (v : gset nat) (s : App) : App :=
  {| world := world s; generator := generator s; initialized := initialized s;
     isGenerating := isGenerating s; cancelRequested := cancelRequested s;
     selectedCategories := v;
     previewImages := previewImages s; countValue := countValue s;
     pixelValue := pixelValue s; disabled := disabled s;
     checkboxes := checkboxes s; progress := progress s;
     suspended := suspended s; compressed := compressed s;
     downloads := downloads s |}.

Definition set_previewImages (v : list (nat * DataUrl)) (s : App) : App :=
  {| world := world s; generator := generator s; initialized := initialized s;
     isGenerating := isGenerating s; cancelRequested := cancelRequested s;
     selectedCategories := selectedCategories s;
     previewImages := v; countValue := countValue s;
     pixelValue := pixelValue s; disabled := disabled s;
     checkboxes := checkboxes s; progress := progress s;
     suspended := suspended s; compressed := compressed s;
     downloads := downloads s |}.

Definition set_countValue (v : string) (s : App) : App :=
  {| world := world s; generator := generator s; initialized := initialized s;
     isGenerating := isGenerating s; cancelRequested := cancelRequested s;
     selectedCategories := selectedCategories s;
     previewImages := previewImages s; countValue := v;
     pixelValue := pixelValue s; disabled := disabled s;
     checkboxes := checkboxes s; progress := progress s;
     suspended := suspended s; compressed := compressed s;
     downloads := downloads s |}.

Definition set_pixelValue (v : string) (s : App) : App :=
  {| world := world s; generator := generator s; initialized := initialized s;
     isGenerating := isGenerating s; cancelRequested := cancelRequested s;
     selectedCategories := selectedCategories s;
     previewImages := previewImages s; countValue := countValue s;
     pixelValue := v; disabled := disabled s;
     checkboxes := checkboxes s; progress := progress s;
     suspended := suspended s; compressed := compressed s;
     downloads := downloads s |}.

Definition set_disabled (v : Disabled) (s : App) : App :=
  {| world := world s; generator := generator s; initialized := initialized s;
     isGenerating := isGenerating s; cancelRequested := cancelRequested s;
     selectedCategories := selectedCategories s;
     previewImages := previewImages s; countValue := countValue s;
     pixelValue := pixelValue s; disabled := v;
     checkboxes := checkboxes s; progress := progress s;
     suspended := suspended s; compressed := compressed s;
     downloads := downloads s |}.

Definition set_checkboxes (v : list (nat * bool)) (s : App) : App :=
  {| world := world s; generator := generator s; initialized := initialized s;
     isGenerating := isGenerating s; cancelRequested := cancelRequested s;
     selectedCategories := selectedCategories s;
     previewImages := previewImages s; countValue := countValue s;
     pixelValue := pixelValue s; disabled := disabled s;
     checkboxes := v; progress := progress s;
     suspended := suspended s; compressed := compressed s;
     downloads := downloads s |}.

Definition set_progress (v : list Message) (s : App) : App :=
  {| world := world s; generator := generator s; initialized := initialized s;
     isGenerating := isGenerating s; cancelRequested := cancelRequested s;
     selectedCategories := selectedCategories s;
     previewImages := previewImages s; countValue := countValue s;
     pixelValue := pixelValue s; disabled := disabled s;
     checkboxes := checkboxes s; progress := v;
     suspended := suspended s; compressed := compressed s;
     downloads := downloads s |}.

Definition set_suspended (v : list Snapshot) (s : App) : App :=
  {| world := world s; generator := generator s; initialized := initialized s;
     isGenerating := isGenerating s; cancelRequested := cancelRequested s;
     selectedCategories := selectedCategories s;
     previewImages := previewImages s; countValue := countValue s;
     pixelValue := pixelValue s; disabled := disabled s;
     checkboxes := checkboxes s; progress := progress s;
     suspended := v; compressed := compressed s;
     downloads := downloads s |}.

Definition set_compressed (v : list Zip) (s : App) : App :=
  {| world := world s; generator := generator s; initialized := initialized s;
     isGenerating := isGenerating s; cancelRequested := cancelRequested s;
     selectedCategories := selectedCategories s;
     previewImages := previewImages s; countValue := countValue s;
     pixelValue := pixelValue s; disabled := disabled s;
     checkboxes := checkboxes s; progress := progress s;
     suspended := suspended s; compressed := v;
     downloads := downloads s |}.

Definition set_downloads (v : list Zip) (s : App) : App :=
  {| world := world s; generator := generator s; initialized := initialized s;
     isGenerating := isGenerating s; cancelRequested := cancelRequested s;
     selectedCategories := selectedCategories s;
     previewImages := previewImages s; countValue := countValue s;
     pixelValue := pixelValue s; disabled := disabled s;
     checkboxes := checkboxes s; progress := progress s;
     suspended := suspended s; compressed := compressed s;
     downloads := v |}.

(** The page when the module starts to run: nothing initialised, no
    control disabled yet, the form as the user filled it.  The module body
    ([load], below) brings the controls in line and starts the
    initialisation. *)
Definition initialApp (count pixel : string) : App :=
  {| world := initialWorld; generator := None; initialized := false;
     isGenerating := false; cancelRequested := false;
     selectedCategories := ∅; previewImages := [];
     countValue := count; pixelValue := pixel;
     disabled := {| generateButton := false; cancelButton := false;
                    countInput := false; pixelInput := false;
                    refreshButton := false |};
     checkboxes := []; progress := []; suspended := [];
     compressed := []; downloads := [] |}.

(** *** Handlers: state and exceptions over the page state *)

Definition H (A : Type) : Type := App -> result A * App.

#[export] Instance H_ret : MRet H := fun A a s => (Ok a, s).
#[export] Instance H_bind : MBind H := fun A B f m s =>
  match m s with
  | (Ok a, s') => f a s'
  | (Throw e, s') => (Throw e, s')
  end.

Definition raise {A} (e : JsError) : H A := fun s => (Throw e, s).
Definition get : H App := fun s => (Ok s, s).
Definition modify (f : App -> App) : H unit := fun s => (Ok tt, f s).

(** A call into the generator module runs on the module state kept in the
    page state. *)
Definition lift {A} (m : M A) : H A := fun s =>
  let '(r, w) := m (world s) in (r, set_world w s).

Definition appendProgress (message : Message) (reset : bool) : H unit :=
  modify (fun s =>
    let shown := if reset then [] else progress s in
    set_progress (shown ++ [message]) s).

Definition updateUiState : H unit :=
  modify (fun s =>
    let disableInputs := isGenerating s in
    set_checkboxes (map (fun c => (fst c, disableInputs)) (checkboxes s))
      (set_disabled
         {| generateButton := disableInputs;
            cancelButton := negb (isGenerating s);
            countInput := disableInputs;
            pixelInput := disableInputs;
            refreshButton := disableInputs || negb (initialized s) |} s)).

(** The click listener of the cancel button. *)
Definition cancelButton_click : H unit := fun s =>
  if negb (isGenerating s) || cancelRequested s then (Ok tt, s)
  else
    (modify (set_cancelRequested true);;
     modify (fun s =>
       set_disabled
         {| generateButton := generateButton (disabled s);
            cancelButton := true;
            countInput := countInput (disabled s);
            pixelInput := pixelInput (disabled s);
            refreshButton := refreshButton (disabled s) |} s);;
     appendProgress MsgCancelRequested false) s.

Definition snapshot (s : App) : Snapshot :=
  {| shownDisabled := disabled s; shownCheckboxes := checkboxes s;
     shownGenerating := isGenerating s |}.

Definition suspensions (s : App) : nat := length (suspended s).

(** Every [await] that hands control back to the browser is a suspension:
    what the page shows then is logged, and a cancel click made meanwhile
    runs its listener before the handler resumes. *)
Definition suspend (b : Browser) : H unit := fun s =>
  let s1 := set_suspended (suspended s ++ [snapshot s]) s in
  if cancelClicked b (suspensions s) then cancelButton_click s1 else (Ok tt, s1).

Definition yieldToBrowser (b : Browser) : H unit := suspend b.

Definition categoryNumber (categoryId : nat) : number := Finite (Q_of_nat categoryId).

(** [previewImages.set(categoryId, preview)] on the insertion-ordered map. *)
Fixpoint map_set (categoryId : nat) (preview : DataUrl)
  (m : list (nat * DataUrl)) : list (nat * DataUrl) :=
  match m with
  | [] => [(categoryId, preview)]
  | (k, v) :: rest =>
      if (k =? categoryId)%nat then (k, preview) :: rest
      else (k, v) :: map_set categoryId preview rest
  end.

Definition createCategoryCard (categoryId : nat) (label : string) : H unit := fun s =>
  match generator s with
  | None => (Ok tt, s)
  | Some gen =>
      (src ← lift (generateIcon gen (categoryNumber categoryId)
                     (Some (inject_Z PREVIEW_SIZE)));
       modify (fun s => set_checkboxes (checkboxes s ++ [(categoryId, false)]) s);;
       modify (fun s => set_previewImages (map_set categoryId src (previewImages s)) s);;
       modify (fun s => set_selectedCategories ({[categoryId]} ∪ selectedCategories s) s)) s
  end.

Fixpoint renderCategoryGrid_loop (b : Browser) (categories : list SymbolCategory)
  : H unit :=
  match categories with
  | [] => mret tt
  | category :: rest =>
      createCategoryCard (id category) (label category);;
      (if ((id category + 1) mod 5 =? 0)%nat then yieldToBrowser b else mret tt);;
      renderCategoryGrid_loop b rest
  end.

Definition renderCategoryGrid (b : Browser) : H unit := fun s =>
  match generator s with
  | None => (Ok tt, s)
  | Some _ =>
      (modify (set_checkboxes []);;
       modify (set_selectedCategories ∅);;
       modify (set_previewImages []);;
       renderCategoryGrid_loop b SYMBOL_CATEGORIES;;
       appendProgress MsgPreviewsLoaded false;;
       updateUiState) s
  end.

Fixpoint refreshCategoryPreviews_loop (b : Browser) (gen : P5)
  (entries : list (nat * DataUrl)) (counter : nat) : H unit :=
  match entries with
  | [] => mret tt
  | (categoryId, _) :: rest =>
      src ← lift (generateIcon gen (categoryNumber categoryId)
                    (Some (inject_Z PREVIEW_SIZE)));
      modify (fun s => set_previewImages (map_set categoryId src (previewImages s)) s);;
      (if ((counter + 1) mod 5 =? 0)%nat then yieldToBrowser b else mret tt);;
      refreshCategoryPreviews_loop b gen rest (counter + 1)
  end.

Definition refreshCategoryPreviews (b : Browser) : H unit := fun s =>
  match generator s with
  | None => (Ok tt, s)
  | Some gen =>
      (refreshCategoryPreviews_loop b gen (previewImages s) 0;;
       appendProgress MsgPreviewsRefreshed false) s
  end.

Definition ensureGenerator (b : Browser) : H unit := fun s =>
  match generator s with
  | Some _ => (Ok tt, s)
  | None =>
      (appendProgress MsgInitialising true;;
       _ ← lift getIconGenerator;
       suspend b;;
       modify (set_generator (Some (p5 b)));;
       modify (set_initialized true);;
       appendProgress MsgInitialised false;;
       renderCategoryGrid b;;
       appendProgress MsgReadyForInput false) s
  end.

(** *** The generation loops *)

Definition folderNameOf (index : nat) (category : SymbolCategory) : string :=
  padStart (String_of_nat (index + 1)) 2 "0" +:+ "_" +:+ slugify (key category).

Definition fileNameOf (iconIndex : nat) : string :=
  padStart (String_of_nat (iconIndex + 1)) 4 "0" +:+ ".png".

(** The inner [for]: [remaining] is [perCategory - iconIndex], so that the
    loop test [iconIndex < perCategory] is [remaining] being a successor. *)
Fixpoint icon_loop (b : Browser) (gen : P5) (category : SymbolCategory)
  (folderName : string) (perCategory pixelSize : Z)
  (remaining iconIndex : nat) (zip : Zip) : H Zip :=
  match remaining with
  | O => mret zip
  | S remaining' =>
      s ← get;
      if cancelRequested s then mret zip
      else
        dataUrl ← lift (generateIcon gen (categoryNumber (id category))
                          (Some (inject_Z pixelSize)));
        let base64Data := image dataUrl in
        let zip' := folder_file folderName (fileNameOf iconIndex) base64Data zip in
        (if ((iconIndex + 1) mod 200 =? 0)%nat
            || (Z.of_nat (iconIndex + 1) =? perCategory)%Z
         then
           appendProgress (MsgProgress (label category) (iconIndex + 1) perCategory) false;;
           yieldToBrowser b
         else mret tt);;
        icon_loop b gen category folderName perCategory pixelSize
          remaining' (iconIndex + 1) zip'
  end.

(** The outer [for], over [activeCategories.entries()] from [index] on. *)
Fixpoint category_loop (b : Browser) (gen : P5) (total : nat)
  (perCategory pixelSize : Z) (index : nat) (categories : list SymbolCategory)
  (zip : Zip) : H Zip :=
  match categories with
  | [] => mret zip
  | category :: rest =>
      s ← get;
      if cancelRequested s then mret zip
      else
        appendProgress (MsgCategory (label category) (index + 1) total) false;;
        let folderName := folderNameOf index category in
        if folderCreated b folderName
        then
          zip' ← icon_loop b gen category folderName perCategory pixelSize
                   (Z.to_nat perCategory) 0 (zip_folder folderName zip);
          category_loop b gen total perCategory pixelSize (index + 1) rest zip'
        else raise (ZipFolderFailed folderName)
  end.

(** *** The submit listener *)

(** How one run of the listener ended. *)
Inductive Outcome :=
| Aborted (e : JsError)
| NoGenerator
| Rejected (m : Message)
| Cancelled (zip : Zip)
| Completed (zip : Zip)
| Failed (e : JsError).

(** The body of the [try] block. *)
Definition generation (b : Browser) (gen : P5)
  (activeCategories : list SymbolCategory) (perCategory pixelSize : Z)
  : H Outcome :=
  zip ← category_loop b gen (length activeCategories) perCategory pixelSize
          0 activeCategories [];
  s ← get;
  if cancelRequested s
  then
    appendProgress MsgCancelled false;;
    mret (Cancelled zip)
  else
    appendProgress MsgCompressing false;;
    modify (fun s => set_compressed (compressed s ++ [zip]) s);;
    suspend b;;
    modify (fun s => set_downloads (downloads s ++ [zip]) s);;
    appendProgress MsgDone false;;
    refreshCategoryPreviews b;;
    mret (Completed zip).

Definition finally_block : H unit :=
  modify (set_isGenerating false);;
  modify (set_cancelRequested false);;
  updateUiState.

(** [try { generation } catch { report } finally { reset }]. *)
Definition guarded_generation (b : Browser) (gen : P5)
  (activeCategories : list SymbolCategory) (perCategory pixelSize : Z)
  (s : App) : Outcome * App :=
  match generation b gen activeCategories perCategory pixelSize s with
  | (Ok outcome, s1) => (outcome, (finally_block s1).2)
  | (Throw e, s1) =>
      (Failed e, (finally_block (appendProgress (MsgError e) false s1).2).2)
  end.

Definition reject (m : Message) (s : App) : Outcome * App :=
  (Rejected m, (appendProgress m false s).2).

(** A request as the listener runs it. *)
Record Request := {
  perCategory : Z;
  pixelSize : Z;
  activeCategories : list SymbolCategory;
}.

(** The reading of the form (parsing, range checks, clamping, selection):
    either the message of the check that failed or the request, with the
    page state after the form fields were rewritten. *)
Definition read_form (s : App) : (Message + Request) * App :=
  match Number_parseInt (countValue s) with
  | None => (inl MsgCountInvalid, s)
  | Some parsedCount =>
      if (parsedCount <=? 0)%Z then (inl MsgCountInvalid, s)
      else
        let perCategory := Z.min MAX_PER_CATEGORY (Z.max 1 parsedCount) in
        let s :=
          if (perCategory =? parsedCount)%Z then s
          else set_countValue (String_of_Z perCategory) s in
        match Number_parseInt (pixelValue s) with
        | None => (inl MsgPixelInvalid, s)
        | Some parsedPixel =>
            if (parsedPixel <? MIN_PIXEL_SIZE)%Z then (inl MsgPixelInvalid, s)
            else
              let pixelSize :=
                Z.min MAX_PIXEL_SIZE (Z.max MIN_PIXEL_SIZE parsedPixel) in
              let s :=
                if (pixelSize =? parsedPixel)%Z then s
                else set_pixelValue (String_of_Z pixelSize) s in
              if (size (selectedCategories s) =? 0)%nat
              then (inl MsgNoCategory, s)
              else
                (inr {| perCategory := perCategory; pixelSize := pixelSize;
                        activeCategories :=
                          filter (fun category => id category ∈ selectedCategories s)
                            SYMBOL_CATEGORIES |}, s)
        end
  end.

(** The start of a run, up to the [try]. *)
Definition start_run (r : Request) (s : App) : App :=
  let s := set_cancelRequested false s in
  let s := set_isGenerating true s in
  let s := (updateUiState s).2 in
  (appendProgress
     (MsgStart (length (activeCategories r)) (perCategory r) (pixelSize r))
     true s).2.

(** The listener from the parsing of the count on, for a generator that is
    there. *)
Definition submit_ready (b : Browser) (gen : P5) (s : App) : Outcome * App :=
  match read_form s with
  | (inl m, s) => reject m s
  | (inr r, s) =>
      guarded_generation b gen (activeCategories r) (perCategory r) (pixelSize r)
        (start_run r s)
  end.

Definition submit (b : Browser) (s : App) : Outcome * App :=
  match ensureGenerator b s with
  | (Throw e, s) => (Aborted e, s)
  | (Ok _, s) =>
      match generator s with
      | None => (NoGenerator, (appendProgress MsgGeneratorFailed false s).2)
      | Some gen => submit_ready b gen s
      end
  end.

(** *** The other listeners *)


(** The click listener of the refresh button.  While it is suspended the
    cancel button is the one control whose events are followed. *)
Definition refreshButton_click (b : Browser) : H unit := fun s =>
  if negb (initialized s) || isGenerating s then (Ok tt, s)
  else
    (modify (fun s =>
       set_disabled
         {| generateButton := generateButton (disabled s);
            cancelButton := cancelButton (disabled s);
            countInput := countInput (disabled s);
            pixelInput := pixelInput (disabled s);
            refreshButton := true |} s);;
     refreshCategoryPreviews b;;
     updateUiState) s.

(** The module body: the controls are brought in line, then the generator
    is initialised.  The promise of [ensureGenerator] is dropped ([void]):
    an error of the initialisation stays in it. *)
Definition load (b : Browser) : H unit :=
  updateUiState;;
  ensureGenerator b.

End Main.

(** ** [src/navigation.ts] *)

Module Navigation.

(** The part of the document the module reads and writes: whether the
    menu button and the navigation element exist, the [data-*] attributes
    of the navigation, the [aria-expanded] attribute of the button, and how
    many times the listeners were attached. *)
Record Dom := {
  hasToggle : bool;
  hasNav : bool;
  dataset_navInitialised : option string;
  dataset_open : option string;
  aria_expanded : option string;
  attached : nat;
}.

Definition closeNav (d : Dom) : Dom :=
  {| hasToggle := hasToggle d; hasNav := hasNav d;
     dataset_navInitialised := dataset_navInitialised d;
     dataset_open := Some "false"; aria_expanded := Some "false";
     attached := attached d |}.

Definition openNav (d : Dom) : Dom :=
  {| hasToggle := hasToggle d; hasNav := hasNav d;
     dataset_navInitialised := dataset_navInitialised d;
     dataset_open := Some "true"; aria_expanded := Some "true";
     attached := attached d |}.

(** [nav.dataset.open === 'true'] *)
Definition is_open (d : Dom) : bool := bool_decide (dataset_open d = Some "true").

Definition toggleNav (d : Dom) : Dom := if is_open d then closeNav d else openNav d.

(** Where a click lands: on the menu button, on a link of the navigation,
    elsewhere inside the navigation, elsewhere in the document, or on a
    target that is not a node. *)
Inductive Target := OnToggle | OnLink | InNav | Elsewhere | NotANode.

(** [event.target instanceof Node && (nav.contains(event.target) ||
    toggle.contains(event.target))] *)
Definition within_menu (t : Target) : bool :=
  match t with
  | OnToggle | OnLink | InNav => true
  | Elsewhere | NotANode => false
  end.

(** The three listeners. *)
Definition toggle_click (d : Dom) : Dom := toggleNav d.

Definition document_click (t : Target) (d : Dom) : Dom :=
  if negb (is_open d) then d
  else if within_menu t then d
  else closeNav d.

(** [narrow] is [window.matchMedia('(max-width: 767px)').matches]. *)
Definition link_click (narrow : bool) (d : Dom) : Dom :=
  if narrow then closeNav d else d.

Definition setupNavigation (d : Dom) : Dom :=
  if negb (hasToggle d) || negb (hasNav d) then d
  else if bool_decide (dataset_navInitialised d = Some "true") then d
  else
    {| hasToggle := hasToggle d; hasNav := hasNav d;
       dataset_navInitialised := Some "true";
       dataset_open := dataset_open d; aria_expanded := aria_expanded d;
       attached := S (attached d) |}.

(** One click, dispatched to the listeners attached: the listener of the
    button stops the propagation, so that the listener of the document does
    not see the click; a click on a link reaches the listener of the link
    and then, bubbling, the listener of the document.  Each listener runs
    once for every time it was attached. *)
Definition click (narrow : bool) (t : Target) (d : Dom) : Dom :=
  match t with
  | OnToggle => Nat.iter (attached d) toggle_click d
  | OnLink =>
      Nat.iter (attached d) (document_click t)
        (Nat.iter (attached d) (link_click narrow) d)
  | InNav | Elsewhere | NotANode => Nat.iter (attached d) (document_click t) d
  end.

End Navigation.

(** * Specification

    The second half states the laws of the program over the embedding:
    first the vocabulary the statements use, then the proofs. *)

Import Generator Main.

(** ** Vocabulary: generator *)

Section GeneratorVocabulary.
Local Open Scope Q_scope.

(** The random source yields unit samples, as [random] of p5 does. *)
Definition unit_samples (p : P5) : Prop := forall n, 0 <= sample p n /\ sample p n < 1.

(** The value [p.random(lo, hi)] makes of the n-th sample. *)
Definition sampled (p : P5) (lo hi : Q) (n : nat) : Q := sample p n * (hi - lo) + lo.

(** The drawing state [d] with the frame of the transform on top:
    translated to the centre, rotated, scaled, offset. *)
Definition framed (size : Q) (degrees scale fx fy : Q) (d : DrawState) : DrawState :=
  {| xform := xform d ++ [Translate (size / 2) (size / 2); Rotate (radians degrees);
                          Scale scale; Translate (size * fx) (size * fy)];
     weight := weight d; strokeColor := strokeColor d; fillColor := fillColor d;
     cap := cap d; join := join d |}.

(** The state in which [applySymbolTransform] invokes the drawer: four
    samples drawn, the scale stored in [currentScale], the prior drawing
    state pushed and the frame applied. *)
Definition transform_entry (p : P5) (size : Q) (w : World) : World :=
  let n := cursor w in
  let gr := g w in
  {| cursor := 4 + n;
     currentScale := sampled p 0.5 1 (1 + n);
     g := {| width := width gr; height := height gr; density := density gr;
             background := background gr; smoothing := smoothing gr;
             cur := framed size (sampled p (-20) 20 n) (sampled p 0.5 1 (1 + n))
                      (sampled p (-0.05) 0.05 (2 + n)) (sampled p (-0.05) 0.05 (3 + n))
                      (cur gr);
             saved := cur gr :: saved gr; vertices := vertices gr;
             painted := painted gr |};
     generatorPromise := generatorPromise w; p5Instances := p5Instances w |}.

(** The [finally] block, applied to the state the drawer left. *)
Definition transform_exit (w : World) : World :=
  ((g_pop ;; set_currentScale 1) w).2.

(** An id of the registry: an integer of [0, registry size). *)
Definition valid_id (categoryId : number) : Prop :=
  exists k : nat, (k < length SYMBOL_CATEGORIES)%nat /\
    match categoryId with Finite q => q == Q_of_nat k | _ => False end.

(** The test [createIconForCategory] throws on. *)
Definition id_rejected (categoryId : number) : bool :=
  negb (Number_isInteger categoryId)
  || number_ltb categoryId 0
  || number_geb categoryId (Q_of_nat (length SYMBOL_CATEGORIES)).

(** What a drawer may not disturb. *)
Record same_canvas (w w' : World) : Prop := {
  keeps_width : width (g w') = width (g w);
  keeps_height : height (g w') = height (g w);
  keeps_cur : cur (g w') = cur (g w);
  keeps_saved : saved (g w') = saved (g w);
  keeps_scale : currentScale w' = currentScale w;
  keeps_promise : generatorPromise w' = generatorPromise w;
  keeps_instances : p5Instances w' = p5Instances w;
}.

(** A drawer that returns and disturbs none of these. *)
Definition quiet (m : M unit) : Prop :=
  forall w, exists w', m w = (Ok tt, w') /\ same_canvas w w'.

(** The drawing state [createIconForCategory] sets up before the
    transform. *)
Definition drawing_setup : DrawState :=
  {| xform := []; weight := 1; strokeColor := Some 0%Z; fillColor := Some 0%Z;
     cap := SQUARE; join := MITER |}.

(** The world once [createIconForCategory] has created and set up the
    canvas of side [side]. *)
Definition canvas_ready (side : Z) (w : World) : World :=
  {| cursor := cursor w; currentScale := currentScale w;
     g := {| width := side; height := side; density := 1; background := Some 255%Z;
             smoothing := false; cur := drawing_setup; saved := []; vertices := [];
             painted := [] |};
     generatorPromise := generatorPromise w; p5Instances := p5Instances w |}.

(** A p5 instance whose samples are all 1/2, with a reachable canvas. *)
Definition p_half : P5 := {| sample := fun _ => 1 # 2; canvasReachable := true |}.

(** A drawer that fails between a [g.push()] of its own and the matching
    [g.pop()]. *)
Definition failing_drawer : SymbolDrawer :=
  fun _ _ => g_push;; g_rotate PI;; throw NotAFunction.

(** The scale a transform applies to what is painted under it. *)
Fixpoint scale_of (t : list Xform) : Q :=
  match t with
  | [] => 1
  | Scale s :: rest => s * scale_of rest
  | _ :: rest => scale_of rest
  end.

(** The stroke weights of each registry drawer, one per primitive in
    painting order: the bounds of the sampled factor and the index of its
    sample, counted from the drawer's first.  The rows follow [DRAWERS]. *)
Definition stroke_factors (k : nat) : list (Q * Q * nat) :=
  match k with
  | 0%nat => [(0.05, 0.08, 0%nat); (0.04, 0.06, 2%nat)]
  | 1%nat => repeat (0.07, 0.1, 0%nat) 2%nat
  | 2%nat => repeat (0.07, 0.1, 1%nat) 5%nat
  | 3%nat => repeat (0.07, 0.1, 1%nat) 4%nat
  | 4%nat => repeat (0.07, 0.1, 1%nat) 3%nat
  | 5%nat => repeat (0.07, 0.1, 0%nat) 4%nat
  | 6%nat => repeat (0.07, 0.1, 0%nat) 4%nat
  | 7%nat => repeat (0.07, 0.1, 6%nat) 8%nat
  | 8%nat => repeat (0.07, 0.1, 1%nat) 9%nat
  | 9%nat => repeat (0.07, 0.1, 5%nat) 1%nat
  | _ => []
  end.

(** The weight a drawer entered at sample [n] requests for a row of the
    table: [size] times the sampled factor, whatever [currentScale] is. *)
Definition requested (p : P5) (size : Q) (n : nat) (row : Q * Q * nat) : Q :=
  let '(lo, hi, i) := row in size * sampled p lo hi (i + n).

(** A drawer that returns and paints one primitive per row, with the
    weight the row requests. *)
Definition paints_with (p : P5) (size : Q) (rows : list (Q * Q * nat)) (m : M unit) : Prop :=
  forall w, exists w' new,
    m w = (Ok tt, w') /\ painted (g w') = painted (g w) ++ new /\
    map (fun pt => weight (under pt)) new = map (requested p size (cursor w)) rows.

(** A use of the module by its clients. *)
Inductive Use :=
| Acquire
| Generate (categoryId : number) (size : option Q).

(** The promises handed out over a sequence of uses; what [generateIcon]
    returns or throws is the caller's business. *)
Fixpoint uses (p : P5) (l : list Use) (w : World) : list Promise * World :=
  match l with
  | [] => ([], w)
  | Acquire :: rest =>
      match getIconGenerator w with
      | (Ok pr, w1) => let '(prs, w2) := uses p rest w1 in (pr :: prs, w2)
      | (Throw _, w1) => uses p rest w1
      end
  | Generate categoryId size :: rest =>
      uses p rest (generateIcon p categoryId size w).2
  end.

(** Is the generator acquired by this use? *)
Definition is_Acquire (u : Use) : bool :=
  match u with Acquire => true | Generate _ _ => false end.

(** A rotation, the one transform the drawers apply themselves. *)
Definition is_rotation (t : Xform) : Prop :=
  match t with Rotate _ => True | _ => False end.

(** A primitive painted in the drawing state [entry] the drawer was entered
    in, but for rotations and the fill, at a stroke weight of [size] times
    a factor sampled within [0.04, 0.1). *)
Definition inked (p : P5) (size : Q) (entry : DrawState) (pt : Painted) : Prop :=
  strokeColor (under pt) = strokeColor entry /\
  cap (under pt) = cap entry /\
  join (under pt) = join entry /\
  (fillColor (under pt) = fillColor entry \/ fillColor (under pt) = None) /\
  (exists rotations,
     xform (under pt) = xform entry ++ rotations /\ Forall is_rotation rotations) /\
  exists lo hi m,
    weight (under pt) = size * sampled p lo hi m /\ 0.04 <= lo /\ lo < hi /\ hi <= 0.1.

(** Everything of the canvas but what is painted on it. *)
Definition canvas_setup (w : World) :=
  (width (g w), height (g w), density (g w), background (g w), smoothing (g w),
   cur (g w), saved (g w), currentScale w, generatorPromise w, p5Instances w).

(** A drawer that adds [count] inked primitives, reads [samples] samples
    and leaves the rest of the canvas as it found it. *)
Definition draws (p : P5) (size : Q) (count samples : nat) (m : M unit) : Prop :=
  forall w, exists w' new,
    m w = (Ok tt, w') /\
    painted (g w') = painted (g w) ++ new /\
    length new = count /\
    cursor w' = (samples + cursor w)%nat /\
    canvas_setup w' = canvas_setup w /\
    Forall (inked p size (cur (g w))) new.

(** The primitives and the samples of each category, by id. *)
Definition primitive_count (categoryId : nat) : nat :=
  nth categoryId [2; 2; 5; 4; 3; 4; 4; 8; 9; 1]%nat 0%nat.

Definition sample_count (categoryId : nat) : nat :=
  nth categoryId [4; 1; 3; 3; 2; 1; 2; 7; 2; 6]%nat 0%nat.

(** The drawing state the drawer of an icon is entered in, the transform
    having read its samples from [n] on. *)
Definition icon_entry (p : P5) (side : Q) (n : nat) : DrawState :=
  framed side (sampled p (-20) 20 n) (sampled p 0.5 1 (1 + n))
    (sampled p (-0.05) 0.05 (2 + n)) (sampled p (-0.05) 0.05 (3 + n)) drawing_setup.

End GeneratorVocabulary.

(** ** Vocabulary: page *)

(** [suspend] never throws; the state it leaves. *)
Definition suspend_state (b : Browser) (s : App) : App := (suspend b s).2.

(** The state after the progress report that follows an icon. *)
Definition after_icon (b : Browser) (category : SymbolCategory) (perCategory : Z)
  (iconIndex : nat) (s : App) : App :=
  if ((iconIndex + 1) mod 200 =? 0)%nat || (Z.of_nat (iconIndex + 1) =? perCategory)%Z
  then suspend_state b
         (appendProgress (MsgProgress (label category) (iconIndex + 1) perCategory) false s).2
  else s.

(** The part of the page state that gates a new submission: the running
    flag and the controls a request is made with. *)
Definition frame (s : App) :=
  (isGenerating s, checkboxes s,
   (generateButton (disabled s), countInput (disabled s), pixelInput (disabled s))).

(** The archive side of the page state. *)
Definition archive_kept (s s' : App) : Prop :=
  compressed s' = compressed s /\ downloads s' = downloads s.

(** A snapshot shows the controls of [s]. *)
Definition shows (s : App) (shot : Snapshot) : Prop :=
  shownGenerating shot = isGenerating s /\
  shownCheckboxes shot = checkboxes s /\
  generateButton (shownDisabled shot) = generateButton (disabled s) /\
  countInput (shownDisabled shot) = countInput (disabled s) /\
  pixelInput (shownDisabled shot) = pixelInput (disabled s).

(** How the page changes between two points of a handler: the gate is
    kept, the suspensions in between show the gate as it was, a pending
    cancellation stays pending while the run lasts, a click during one of
    the suspensions leaves the flag set, and without clicks the flag is as it
    was. *)
Record evolves (b : Browser) (s s' : App) : Prop := {
  ev_frame : frame s' = frame s;
  ev_log : exists new, suspended s' = suspended s ++ new /\ Forall (shows s) new;
  ev_sticky : isGenerating s = true -> cancelRequested s = true ->
              cancelRequested s' = true;
  ev_click : isGenerating s = true ->
             forall n, (suspensions s <= n < suspensions s')%nat ->
                       cancelClicked b n = true -> cancelRequested s' = true;
  ev_unclicked : (forall n, (suspensions s <= n < suspensions s')%nat ->
                            cancelClicked b n = false) ->
                 cancelRequested s' = cancelRequested s;
}.

(** A handler whose every run relates the state it starts in to the state
    it leaves. *)
Definition preserving {A} (R : App -> App -> Prop) (m : H A) : Prop :=
  forall s, R s (m s).2.

(** A browser in which nobody clicks and every folder is created. *)
Definition quiet_browser : Browser :=
  {| p5 := p_half; cancelClicked := fun _ => false; folderCreated := fun _ => true |}.

(** The page once the generator is there, with the form as filled in. *)
Definition ready_page (count pixel : string) : App :=
  (ensureGenerator quiet_browser (initialApp count pixel)).2.

(** The count field does not parse or is not positive; likewise the size
    field. *)
Definition count_bad (s : App) : Prop :=
  match Number_parseInt (countValue s) with
  | None => True
  | Some n => (n <= 0)%Z
  end.

Definition pixel_bad (s : App) : Prop :=
  match Number_parseInt (pixelValue s) with
  | None => True
  | Some m => (m <= 0)%Z
  end.

(** The state a run works on: everything but the progress lines and the
    text of the two form fields. *)
Definition run_state (s : App) :=
  (world s, generator s, initialized s, isGenerating s, cancelRequested s,
   selectedCategories s, previewImages s, disabled s, checkboxes s,
   suspended s, compressed s, downloads s).

(** The message of the first check a form fails, the selection being
    checked last. *)
Definition first_failed_check (s : App) : Message :=
  match Number_parseInt (countValue s) with
  | None => MsgCountInvalid
  | Some n =>
      if (n <=? 0)%Z then MsgCountInvalid
      else
        match Number_parseInt (pixelValue s) with
        | None => MsgPixelInvalid
        | Some m => if (m <? MIN_PIXEL_SIZE)%Z then MsgPixelInvalid else MsgNoCategory
        end
  end.

(** What the page shows while a submission cannot be made. *)
Definition gated (shot : Snapshot) : Prop :=
  shownGenerating shot = true /\
  generateButton (shownDisabled shot) = true /\
  countInput (shownDisabled shot) = true /\
  pixelInput (shownDisabled shot) = true /\
  Forall (fun c => c.2 = true) (shownCheckboxes shot).

(** The page in the middle of a run of its own, the cancel button already
    clicked. *)
Definition busy_page : App :=
  match read_form (ready_page "1" "8") with
  | (inr r, s) => set_cancelRequested true (start_run r s)
  | (inl _, s) => s
  end.

Definition digit_char (d : Z) : ascii := ascii_of_nat (48 + Z.to_nat d).

(** [n] written with exactly [w] decimal digits, zeros in front. *)
Fixpoint zero_padded (w : nat) (n : Z) : string :=
  match w with
  | O => EmptyString
  | S w' => zero_padded w' (n / 10) +:+ String (digit_char (n mod 10)) EmptyString
  end.

(** The names as the specification words them, for 1-based ordinals. *)
Definition spec_folder_name (k : nat) (key : string) : string :=
  zero_padded 2 (Z.of_nat k) +:+ "_" +:+ slugify key.

Definition spec_file_name (n : nat) : string :=
  zero_padded 4 (Z.of_nat n) +:+ ".png".

(** [test] holds at [count] consecutive integers from [z] on. *)
Fixpoint holds_from (test : Z -> bool) (z : Z) (count : nat) : bool :=
  match count with
  | O => true
  | S count' => test z && holds_from test (Z.succ z) count'
  end.

Inductive ZipPath :=
| FolderPath (folderName : string)
| FilePath (folderName fileName : string).

Definition path_of (c : ZipCall) : ZipPath :=
  match c with
  | FolderCall f => FolderPath f
  | FileCall f n _ => FilePath f n
  end.

(** The archive layout of the specification: one folder per category, in
    order, numbered from [k], each holding [count] files numbered from 1. *)
Fixpoint spec_layout (k : nat) (categories : list SymbolCategory) (count : nat)
  : list ZipPath :=
  match categories with
  | [] => []
  | c :: rest =>
      FolderPath (spec_folder_name k (key c))
        :: map (fun n => FilePath (spec_folder_name k (key c)) (spec_file_name n))
             (seq 1 count)
        ++ spec_layout (S k) rest count
  end.

(** The user clicks cancel while the handler is suspended for the fourth
    time: after the three suspensions of the initialisation, that is the
    report that ends the first category. *)
Definition cancelling_browser : Browser :=
  {| p5 := p_half; cancelClicked := fun n => (n =? 3)%nat;
     folderCreated := fun _ => true |}.

(** Three categories selected, a hundred icons each. *)
Definition three_by_hundred : App :=
  set_selectedCategories {[0%nat; 1%nat; 2%nat]} (ready_page "100" "8").

(** The request read from a form that is accepted. *)
Definition request_of (s : App) : Request :=
  match (read_form s).1 with
  | inr r => r
  | inl _ => {| perCategory := 0; pixelSize := 0; activeCategories := [] |}
  end.

(** The third, fourth and fifth category selected, seven icons each. *)
Definition three_by_seven : App :=
  set_selectedCategories {[2%nat; 3%nat; 4%nat]} (ready_page "7" "8").

(** The characters a slug is made of: lower-case letters, digits, the
    underscore and the hyphen. *)
Definition is_slug_char (c : ascii) : bool :=
  let n := nat_of_ascii c in
  is_digit c || ((97 <=? n)%nat && (n <=? 122)%nat) || (n =? 95)%nat || is_hyphen c.

(** Every character of the string passes the test. *)
Fixpoint every_char (test : ascii -> bool) (s : string) : bool :=
  match s with
  | EmptyString => true
  | String c rest => test c && every_char test rest
  end.

(** The form fields after the count and after the size were clamped. *)
Definition count_clamped (n : Z) (s : App) : App :=
  if (Z.min MAX_PER_CATEGORY (Z.max 1 n) =? n)%Z then s
  else set_countValue (String_of_Z (Z.min MAX_PER_CATEGORY (Z.max 1 n))) s.

Definition pixel_clamped (m : Z) (s : App) : App :=
  if (Z.min MAX_PIXEL_SIZE (Z.max MIN_PIXEL_SIZE m) =? m)%Z then s
  else set_pixelValue (String_of_Z (Z.min MAX_PIXEL_SIZE (Z.max MIN_PIXEL_SIZE m))) s.

(** The lines of the progress area that report a cancel request. *)
Definition is_cancel_request (m : Message) : bool :=
  match m with MsgCancelRequested => true | _ => false end.

Definition cancel_lines (s : App) : nat := length (filter is_cancel_request (progress s)).

(** One line per pending request. *)
Definition cancel_reported (s : App) : Prop :=
  cancel_lines s = if cancelRequested s then 1%nat else 0%nat.

(** A step that keeps the report in line with the flag. *)
Definition reporting (s s' : App) : Prop := cancel_reported s -> cancel_reported s'.

(** The icon loop reports and suspends after every 200th icon and after
    the last one. *)
Definition reports_after (perCategory : Z) (k : nat) : bool :=
  (k mod 200 =? 0)%nat || (Z.of_nat k =? perCategory)%Z.

(** The ordinals, among [count] from [from] on, after which it does. *)
Fixpoint progress_marks (perCategory : Z) (from count : nat) : list nat :=
  match count with
  | O => []
  | S count' =>
      if reports_after perCategory from
      then from :: progress_marks perCategory (S from) count'
      else progress_marks perCategory (S from) count'
  end.

Definition icon_reports (category : SymbolCategory) (perCategory : Z) (from count : nat)
  : list Message :=
  map (fun k => MsgProgress (label category) k perCategory)
    (progress_marks perCategory from count).

(** The progress lines of the loops of a run nobody interrupts. *)
Fixpoint run_reports (total : nat) (perCategory : Z) (index : nat)
  (categories : list SymbolCategory) : list Message :=
  match categories with
  | [] => []
  | category :: rest =>
      MsgCategory (label category) (index + 1) total
        :: icon_reports category perCategory 1 (Z.to_nat perCategory)
        ++ run_reports total perCategory (S index) rest
  end.

(** What the loops leave alone on the page. *)
Definition cards_kept (s s' : App) : Prop :=
  generator s' = generator s /\ previewImages s' = previewImages s /\
  selectedCategories s' = selectedCategories s /\ initialized s' = initialized s.

(** The state after the yield that may follow a refreshed preview. *)
Definition after_preview (b : Browser) (counter : nat) (s : App) : App :=
  if ((counter + 1) mod 5 =? 0)%nat then suspend_state b s else s.

(** A preview drawn at the preview size. *)
Definition preview_sized (entry : nat * DataUrl) : Prop :=
  width (image entry.2) = PREVIEW_SIZE /\ height (image entry.2) = PREVIEW_SIZE.

(** The folder an archive path lies in. *)
Definition path_folder (p : ZipPath) : string :=
  match p with
  | FolderPath f => f
  | FilePath f _ => f
  end.

(** The page after the card of a category was added with the preview
    [src], the sketch left in [w]. *)
Definition with_card (categoryId : nat) (src : DataUrl) (w : World) (s : App) : App :=
  set_selectedCategories ({[categoryId]} ∪ selectedCategories s)
    (set_previewImages (map_set categoryId src (previewImages s))
       (set_checkboxes (checkboxes s ++ [(categoryId, false)]) (set_world w s))).

(** The suspensions of the grid loop: one after every fifth id. *)
Definition grid_yields (categories : list SymbolCategory) : nat :=
  length (filter (fun c => ((id c + 1) mod 5 =? 0)%nat = true) categories).

(** What initialisation leaves alone on a page that is not generating. *)
Definition idle_state (s : App) :=
  (progress s, generator s, isGenerating s, initialized s, disabled s,
   cancelRequested s, compressed s, downloads s, countValue s, pixelValue s).

(** A step of a handler on a page that is not generating: the controls
    stay as they are, and every suspension in between shows them so. *)
Definition waits (s s' : App) : Prop :=
  isGenerating s = false ->
  isGenerating s' = false /\ disabled s' = disabled s /\ initialized s' = initialized s /\
  exists new, suspended s' = suspended s ++ new /\
              Forall (fun shot => shownDisabled shot = disabled s) new.

(** The button tells what the navigation shows. *)
Definition nav_synced (d : Navigation.Dom) : Prop :=
  Navigation.aria_expanded d = Navigation.dataset_open d.

(** * Proofs *)

(** ** Generator *)

Section GeneratorLaws.
Local Open Scope Q_scope.

(** *** The transform *)

(** Runs straight-line sketch code on a state given by its fields. *)
Ltac run_sketch :=
  cbv [applySymbolTransform mbind mret M_bind M_ret g_push g_pop g_translate g_rotate
       g_scale g_strokeWeight g_stroke g_fill g_noFill g_strokeCap g_strokeJoin
       g_pixelDensity g_background g_imageSmoothing paint g_line g_circle
       g_beginShape g_vertex g_endShape set_vertices modify_g modify_cur with_xform
       set_currentScale get_currentScale random throw stroke vary jitter
       createGraphics ensureCanvasElement for_each seq
       cursor currentScale g generatorPromise p5Instances
       width height density background smoothing cur saved vertices painted
       xform weight strokeColor fillColor cap join].

Lemma applySymbolTransform_entry p size (draw : M unit) w :
  applySymbolTransform p size draw w =
  try_finally draw (g_pop;; set_currentScale 1) (transform_entry p size w).
Proof.
  unfold transform_entry, framed, sampled.
  destruct w as [n sc gr pr inst]; destruct gr as [wd ht dn bg sm d sv vs pt]; destruct d.
  run_sketch. rewrite <- !app_assoc. reflexivity.
Qed.

Lemma applySymbolTransform_unfold p size (draw : M unit) w :
  applySymbolTransform p size draw w =
  let '(r, w1) := draw (transform_entry p size w) in (r, transform_exit w1).
Proof.
  rewrite applySymbolTransform_entry. unfold try_finally, transform_exit.
  destruct (draw _) as [r w1]. reflexivity.
Qed.

(** *** Category ids *)

Lemma Q_isInteger_spec q : Q_isInteger q = true <-> exists z : Z, q == inject_Z z.
Proof.
  unfold Q_isInteger. rewrite Z.eqb_eq. split.
  - intros Hm. exists (Qnum q / Zpos (Qden q))%Z.
    unfold Qeq, inject_Z; simpl.
    rewrite Z.mul_1_r.
    pose proof (Z.div_mod (Qnum q) (Zpos (Qden q)) ltac:(lia)). lia.
  - intros [z Hz]. unfold Qeq, inject_Z in Hz; simpl in Hz.
    rewrite Z.mul_1_r in Hz. rewrite Hz. apply Z.mod_mul. lia.
Qed.

Lemma id_rejected_spec categoryId : id_rejected categoryId = false <-> valid_id categoryId.
Proof.
  unfold id_rejected, valid_id. rewrite !orb_false_iff, negb_false_iff.
  destruct categoryId as [q| |neg]; simpl.
  - rewrite negb_false_iff. split.
    + intros [[Hi Hlo] Hhi].
      apply Q_isInteger_spec in Hi as [z Hz].
      apply Qle_bool_iff in Hlo.
      assert (Hlt : q < 10).
      { apply Qnot_le_lt. intros Hc. apply Qle_bool_iff in Hc.
        change (Q_of_nat 10) with 10 in Hhi. congruence. }
      rewrite Hz in Hlo, Hlt.
      change 0 with (inject_Z 0) in Hlo. change 10 with (inject_Z 10) in Hlt.
      rewrite <- Zle_Qle in Hlo. rewrite <- Zlt_Qlt in Hlt.
      exists (Z.to_nat z). split; [lia|].
      unfold Q_of_nat. rewrite Z2Nat.id by lia. exact Hz.
    + intros (k & Hk & Hq). unfold Q_of_nat in Hq.
      repeat split.
      * apply Q_isInteger_spec. eauto.
      * apply Qle_bool_iff. rewrite Hq. change 0 with (inject_Z 0).
        rewrite <- Zle_Qle. lia.
      * destruct (Qle_bool _ q) eqn:E; [|reflexivity].
        apply Qle_bool_iff in E. rewrite Hq in E.
        change (Q_of_nat 10) with (inject_Z 10) in E.
        rewrite <- Zle_Qle in E. lia.
  - split; [intros [[? ?] ?]; discriminate | intros (k & _ & [])].
  - split; [intros [[? ?] ?]; discriminate | intros (k & _ & [])].
Qed.

(** *** The drawers of the registry *)

Ltac quiet_drawer :=
  intros p size w;
  destruct w as [n sc gr pr inst]; destruct gr as [wd ht dn bg sm d sv vs pt];
  destruct d;
  eexists; split; [run_sketch; reflexivity | split; reflexivity].

Lemma drawCityHall_quiet p size : quiet (drawCityHall p size).
Proof. revert p size. unfold drawCityHall. quiet_drawer. Qed.
Lemma drawPoliceBox_quiet p size : quiet (drawPoliceBox p size).
Proof. revert p size. unfold drawPoliceBox. quiet_drawer. Qed.
Lemma drawHighSchool_quiet p size : quiet (drawHighSchool p size).
Proof. revert p size. unfold drawHighSchool. quiet_drawer. Qed.
Lemma drawPostOffice_quiet p size : quiet (drawPostOffice p size).
Proof. revert p size. unfold drawPostOffice. quiet_drawer. Qed.
Lemma drawHospital_quiet p size : quiet (drawHospital p size).
Proof. revert p size. unfold drawHospital. quiet_drawer. Qed.
Lemma drawShrine_quiet p size : quiet (drawShrine p size).
Proof. revert p size. unfold drawShrine. quiet_drawer. Qed.
Lemma drawTemple_quiet p size : quiet (drawTemple p size).
Proof. revert p size. unfold drawTemple. quiet_drawer. Qed.
Lemma drawMuseum_quiet p size : quiet (drawMuseum p size).
Proof. revert p size. unfold drawMuseum. quiet_drawer. Qed.
Lemma drawFactory_quiet p size : quiet (drawFactory p size).
Proof. revert p size. unfold drawFactory. quiet_drawer. Qed.
Lemma drawCastleRuins_quiet p size : quiet (drawCastleRuins p size).
Proof. revert p size. unfold drawCastleRuins. quiet_drawer. Qed.

Lemma DRAWERS_table :
  DRAWERS = [drawCityHall; drawPoliceBox; drawHighSchool; drawPostOffice;
             drawHospital; drawShrine; drawTemple; drawMuseum; drawFactory;
             drawCastleRuins].
Proof. reflexivity. Qed.

Lemma DRAWERS_quiet d : d ∈ DRAWERS -> forall p size, quiet (d p size).
Proof.
  rewrite DRAWERS_table. intros Hd p size.
  repeat (apply elem_of_cons in Hd as [-> | Hd];
          [auto using drawCityHall_quiet, drawPoliceBox_quiet, drawHighSchool_quiet,
             drawPostOffice_quiet, drawHospital_quiet, drawShrine_quiet,
             drawTemple_quiet, drawMuseum_quiet, drawFactory_quiet,
             drawCastleRuins_quiet |]).
  inversion Hd.
Qed.

(** *** One icon *)

Ltac run_setup :=
  cbv [mbind mret M_bind M_ret g_push g_pop g_translate g_rotate
       g_scale g_strokeWeight g_stroke g_fill g_noFill g_strokeCap g_strokeJoin
       g_pixelDensity g_background g_imageSmoothing modify_g modify_cur
       set_currentScale get_currentScale createGraphics ensureCanvasElement newGraphics
       initialDrawState
       cursor currentScale g generatorPromise p5Instances
       width height density background smoothing cur saved vertices painted
       xform weight strokeColor fillColor cap join].

Lemma transform_quiet p size (draw : M unit) :
  quiet draw ->
  forall w, exists w', applySymbolTransform p size draw w = (Ok tt, w') /\
    width (g w') = width (g w) /\ height (g w') = height (g w) /\
    cur (g w') = cur (g w) /\ saved (g w') = saved (g w) /\
    currentScale w' = 1 /\
    generatorPromise w' = generatorPromise w /\ p5Instances w' = p5Instances w.
Proof.
  intros Hq w. rewrite applySymbolTransform_unfold.
  destruct (Hq (transform_entry p size w)) as (w1 & -> & [Hw Hh Hc Hs Hsc Hp Hi]).
  eexists. split; [reflexivity|].
  unfold transform_exit.
  destruct w1 as [n1 sc1 gr1 pr1 inst1]. destruct gr1 as [wd ht dn bg sm d sv vs pt].
  simpl in *. subst.
  destruct w as [n sc gr pr inst]; destruct gr; simpl. repeat split; reflexivity.
Qed.

Lemma renderIcon_quiet (d : SymbolDrawer) size p w :
  (forall s, quiet (d p s)) ->
  exists w',
    renderIcon d size p w =
      (if canvasReachable p then Ok {| mime := "image/png"; image := g w' |}
       else Throw CanvasUnavailable, w') /\
    width (g w') = Z.max 8 (Qfloor size) /\
    height (g w') = Z.max 8 (Qfloor size) /\
    currentScale w' = 1 /\
    generatorPromise w' = generatorPromise w /\ p5Instances w' = p5Instances w.
Proof.
  intros Hq. unfold renderIcon.
  destruct w as [n sc gr pr inst].
  run_setup.
  match goal with
  | |- context [applySymbolTransform p ?s ?dr ?w0] =>
      destruct (transform_quiet p s dr (Hq s) w0) as (w1 & -> & Hw & Hh & _ & _ & Hsc & Hp & Hi)
  end.
  simpl in Hw, Hh, Hp, Hi.
  exists w1. split; [destruct (canvasReachable p); reflexivity|]. auto.
Qed.

Lemma Qfloor_Q_of_nat q k : q == Q_of_nat k -> Z.to_nat (Qfloor q) = k.
Proof.
  intros Hq. rewrite (Qfloor_comp _ _ Hq). unfold Q_of_nat.
  rewrite Qfloor_Z. apply Nat2Z.id.
Qed.

Ltac pick D :=
  eexists; exists D; split; [reflexivity|]; split; [reflexivity|];
  split; [reflexivity|]; split; [reflexivity|].

Lemma drawer_at_registered q k :
  (k < length SYMBOL_CATEGORIES)%nat -> q == Q_of_nat k ->
  exists c d, SYMBOL_CATEGORIES !! k = Some c /\ id c = k /\
    DRAWERS_BY_KEY !! key c = Some d /\ drawer_at q = d /\ d ∈ DRAWERS.
Proof.
  intros Hk Hq. unfold drawer_at. rewrite (Qfloor_Q_of_nat q k Hq).
  assert (Hin : forall d, DRAWERS !! k = Some d -> d ∈ DRAWERS)
    by (intros d; apply list_elem_of_lookup_2).
  revert Hin. rewrite DRAWERS_table. simpl in Hk. intros Hin.
  destruct k as [|k]; [pick drawCityHall; apply Hin; reflexivity|].
  destruct k as [|k]; [pick drawPoliceBox; apply Hin; reflexivity|].
  destruct k as [|k]; [pick drawHighSchool; apply Hin; reflexivity|].
  destruct k as [|k]; [pick drawPostOffice; apply Hin; reflexivity|].
  destruct k as [|k]; [pick drawHospital; apply Hin; reflexivity|].
  destruct k as [|k]; [pick drawShrine; apply Hin; reflexivity|].
  destruct k as [|k]; [pick drawTemple; apply Hin; reflexivity|].
  destruct k as [|k]; [pick drawMuseum; apply Hin; reflexivity|].
  destruct k as [|k]; [pick drawFactory; apply Hin; reflexivity|].
  destruct k as [|k]; [pick drawCastleRuins; apply Hin; reflexivity|].
  lia.
Qed.

Lemma createIconForCategory_valid q k size p :
  (k < length SYMBOL_CATEGORIES)%nat -> q == Q_of_nat k ->
  createIconForCategory (Finite q) size p = renderIcon (drawer_at q) size p.
Proof.
  intros Hk Hq. unfold createIconForCategory.
  assert (Hv : id_rejected (Finite q) = false).
  { apply id_rejected_spec. exists k. split; assumption. }
  unfold id_rejected in Hv. rewrite Hv. reflexivity.
Qed.

Lemma createIconForCategory_invalid categoryId size p w :
  ~ valid_id categoryId ->
  createIconForCategory categoryId size p w = (Throw (UnknownCategory categoryId), w).
Proof.
  intros Hn. unfold createIconForCategory.
  destruct (id_rejected categoryId) eqn:E.
  - unfold id_rejected in E. rewrite E. reflexivity.
  - apply id_rejected_spec in E. contradiction.
Qed.

Lemma renderIcon_setup (d : SymbolDrawer) size p w :
  let side := Z.max 8 (Qfloor size) in
  renderIcon d size p w =
  (applySymbolTransform p (inject_Z side) (d p (inject_Z side));;
   canvas ← ensureCanvasElement p;
   mret {| mime := "image/png"; image := canvas |}) (canvas_ready side w).
Proof. destruct w. reflexivity. Qed.

(** Claim C7.  An id that is not an integer of [0, registry size) makes
    [generateIcon] throw "Unknown category" and leave the module state as it
    was.  An integer id of the range runs the drawer registered under the
    key of that category: the result of [generateIcon] is that of the
    drawer, run at the side of the canvas in the frame of the transform on
    the canvas just set up: if the drawer throws, so does the call; if it
    returns, the icon is the canvas the drawer painted, after the exit of
    the transform. *)
Theorem invalid_id_throws_valid_id_dispatches p categoryId size w :
  (~ valid_id categoryId ->
     generateIcon p categoryId size w = (Throw (UnknownCategory categoryId), w)) /\
  (valid_id categoryId ->
     exists k q c d,
       categoryId = Finite q /\ q == Q_of_nat k /\
       SYMBOL_CATEGORIES !! k = Some c /\ id c = k /\
       DRAWERS_BY_KEY !! key c = Some d /\
       generateIcon p categoryId size w =
         renderIcon d (default DEFAULT_CANVAS_SIZE size) p w /\
       let side := Z.max 8 (Qfloor (default DEFAULT_CANVAS_SIZE size)) in
       generateIcon p categoryId size w =
         match d p (inject_Z side) (transform_entry p (inject_Z side) (canvas_ready side w)) with
         | (Ok _, w1) =>
             (if canvasReachable p
              then Ok {| mime := "image/png"; image := g (transform_exit w1) |}
              else Throw CanvasUnavailable,
              transform_exit w1)
         | (Throw e, w1) => (Throw e, transform_exit w1)
         end).
Proof.
  split.
  - intros Hn. apply createIconForCategory_invalid, Hn.
  - intros (k & Hk & Hq). destruct categoryId as [q| |neg]; try contradiction.
    destruct (drawer_at_registered q k Hk Hq) as (c & d & Hc & Hid & Hd & Hat & _).
    assert (Hgen : generateIcon p (Finite q) size w =
                   renderIcon d (default DEFAULT_CANVAS_SIZE size) p w).
    { unfold generateIcon. rewrite (createIconForCategory_valid q k _ _ Hk Hq), Hat.
      reflexivity. }
    exists k, q, c, d. repeat split; try assumption.
    intros side. rewrite Hgen, renderIcon_setup. fold side.
    unfold mbind at 1, M_bind at 1. rewrite applySymbolTransform_unfold.
    destruct (d p (inject_Z side) (transform_entry p (inject_Z side) (canvas_ready side w)))
      as [[[]|e] w1]; [|reflexivity].
    unfold mbind, M_bind, ensureCanvasElement. destruct (canvasReachable p); reflexivity.
Qed.

(** C7 at the ids 1/2 and NaN, which throw, and at the id 4. *)
Lemma invalid_id_throws_valid_id_dispatches_witness :
  generateIcon p_half (Finite (1 # 2)) None initialWorld
    = (Throw (UnknownCategory (Finite (1 # 2))), initialWorld) /\
  generateIcon p_half NaN None initialWorld = (Throw (UnknownCategory NaN), initialWorld) /\
  exists k q c d,
    Finite 4 = Finite q /\ q == Q_of_nat k /\
    SYMBOL_CATEGORIES !! k = Some c /\ id c = k /\
    DRAWERS_BY_KEY !! key c = Some d /\
    generateIcon p_half (Finite 4) None initialWorld =
      renderIcon d (default DEFAULT_CANVAS_SIZE None) p_half initialWorld /\
    let side := Z.max 8 (Qfloor (default DEFAULT_CANVAS_SIZE None)) in
    generateIcon p_half (Finite 4) None initialWorld =
      match d p_half (inject_Z side)
              (transform_entry p_half (inject_Z side) (canvas_ready side initialWorld)) with
      | (Ok _, w1) =>
          (if canvasReachable p_half
           then Ok {| mime := "image/png"; image := g (transform_exit w1) |}
           else Throw CanvasUnavailable,
           transform_exit w1)
      | (Throw e, w1) => (Throw e, transform_exit w1)
      end.
Proof.
  split; [|split].
  - apply (invalid_id_throws_valid_id_dispatches p_half (Finite (1 # 2)) None initialWorld).
    intros (k & _ & Hq). unfold Qeq, Q_of_nat in Hq. simpl in Hq. lia.
  - apply (invalid_id_throws_valid_id_dispatches p_half NaN None initialWorld).
    intros (k & _ & []).
  - apply (invalid_id_throws_valid_id_dispatches p_half (Finite 4) None initialWorld).
    exists 4%nat. split; [simpl; lia | reflexivity].
Defined.

(** *** The envelope *)

(** A sample mapped onto [lo, hi) lies in it. *)
Lemma sampled_range p lo hi n :
  unit_samples p -> lo < hi -> lo <= sampled p lo hi n /\ sampled p lo hi n < hi.
Proof.
  intros Hu Hlt. destruct (Hu n) as [H0 H1]. unfold sampled. split; nra.
Qed.

(** Claim C5 fails as stated: a drawer that throws after a [g.push()] of
    its own leaves its push on the stack, so the one [g.pop()] of the
    [finally] block brings back the frame of the transform and the prior
    drawing state stays pushed; [currentScale] is reset all the same. *)
Lemma throwing_drawer_keeps_frame :
  exists w',
    applySymbolTransform p_half 28 (failing_drawer p_half 28) initialWorld
      = (Throw NotAFunction, w') /\
    currentScale w' = 1 /\
    cur (g w') = cur (g (transform_entry p_half 28 initialWorld)) /\
    cur (g w') <> cur (g initialWorld) /\
    saved (g w') = [cur (g initialWorld)] /\
    saved (g w') <> saved (g initialWorld).
Proof.
  eexists. split; [vm_compute; reflexivity|].
  split; [reflexivity|]. split; [vm_compute; reflexivity|].
  split; [|split; [reflexivity | discriminate]].
  intros Heq. apply (f_equal xform) in Heq. discriminate Heq.
Qed.

(** Claim C5, amended.  With unit samples, [applySymbolTransform] draws a
    rotation of [-20, 20) degrees, applied in radians (the degrees over 180,
    times pi), a scale of [0.5, 1) stored in [currentScale], and two offsets
    of [-0.05, 0.05) times the size; the drawer runs in a frame translated
    to the centre, then rotated, then scaled, then offset, on top of a
    pushed state.  Whether the drawer returns or throws, its outcome is
    passed on after one [g.pop()] and [currentScale = 1]: the pop brings
    back the state on top of the push stack as the drawer left it, which is
    the prior drawing state when the drawer leaves the stack as it found
    it; the drawers of the registry do, and return. *)
Theorem transform_envelope_and_reset p size (draw : M unit) w :
  unit_samples p ->
  let n := cursor w in
  let degrees := sampled p (-20) 20 n in
  let scale := sampled p 0.5 1 (1 + n) in
  let fx := sampled p (-0.05) 0.05 (2 + n) in
  let fy := sampled p (-0.05) 0.05 (3 + n) in
  let entry := transform_entry p size w in
  (-20 <= degrees /\ degrees < 20) /\
  (0.5 <= scale /\ scale < 1) /\
  (-0.05 <= fx /\ fx < 0.05) /\
  (-0.05 <= fy /\ fy < 0.05) /\
  (radians degrees = PiTimes (degrees / 180) /\
   -(1 # 9) <= degrees / 180 /\ degrees / 180 < 1 # 9) /\
  currentScale entry = scale /\
  xform (cur (g entry)) =
    xform (cur (g w)) ++
      [Translate (size / 2) (size / 2); Rotate (radians degrees);
       Scale scale; Translate (size * fx) (size * fy)] /\
  saved (g entry) = cur (g w) :: saved (g w) /\
  exists r w1,
    draw entry = (r, w1) /\
    applySymbolTransform p size draw w = (r, transform_exit w1) /\
    currentScale (transform_exit w1) = 1 /\
    match saved (g w1) with
    | top :: rest =>
        cur (g (transform_exit w1)) = top /\ saved (g (transform_exit w1)) = rest
    | [] =>
        cur (g (transform_exit w1)) = cur (g w1) /\ saved (g (transform_exit w1)) = []
    end /\
    (saved (g w1) = saved (g entry) ->
       cur (g (transform_exit w1)) = cur (g w) /\
       saved (g (transform_exit w1)) = saved (g w)) /\
    (forall d, d ∈ DRAWERS -> draw = d p size ->
       r = Ok tt /\
       cur (g (transform_exit w1)) = cur (g w) /\
       saved (g (transform_exit w1)) = saved (g w)).
Proof.
  intros Hu n degrees scale fx fy entry.
  assert (Hdeg : -20 <= degrees /\ degrees < 20)
    by (apply sampled_range; [assumption | reflexivity]).
  split; [exact Hdeg |].
  split; [apply sampled_range; [assumption | reflexivity] |].
  split; [apply sampled_range; [assumption | reflexivity] |].
  split; [apply sampled_range; [assumption | reflexivity] |].
  split.
  { split; [reflexivity|]. destruct Hdeg as [Hlo Hhi].
    unfold Qdiv. change (/ 180) with (1 # 180). split; lra. }
  split; [reflexivity |]. split; [reflexivity |]. split; [reflexivity |].
  destruct (draw entry) as [r w1] eqn:Hd. exists r, w1.
  split; [reflexivity |].
  split; [rewrite applySymbolTransform_unfold; fold entry; rewrite Hd; reflexivity |].
  assert (Hbalanced : saved (g w1) = saved (g entry) ->
            cur (g (transform_exit w1)) = cur (g w) /\
            saved (g (transform_exit w1)) = saved (g w)).
  { unfold transform_exit.
    destruct w1 as [n1 sc1 gr1 pr1 inst1]. destruct gr1 as [wd ht dn bg sm d sv vs pt].
    simpl. intros ->. split; reflexivity. }
  split.
  { unfold transform_exit.
    destruct w1 as [n1 sc1 gr1 pr1 inst1]. destruct gr1 as [wd ht dn bg sm d sv vs pt].
    simpl. destruct sv; reflexivity. }
  split.
  { unfold transform_exit.
    destruct w1 as [n1 sc1 gr1 pr1 inst1]. destruct gr1 as [wd ht dn bg sm d sv vs pt].
    simpl. destruct sv; split; reflexivity. }
  split; [exact Hbalanced |].
  intros d Hin ->.
  destruct (DRAWERS_quiet d Hin p size entry) as (w2 & Hq & Hk).
  rewrite Hq in Hd. injection Hd as <- <-.
  split; [reflexivity |]. apply Hbalanced. apply (keeps_saved _ _ Hk).
Qed.

Lemma p_half_unit : unit_samples p_half.
Proof. intros n. simpl. lra. Qed.

(** C5 at a 28 pixel canvas with the city hall drawer. *)
Lemma transform_envelope_and_reset_witness :
  unit_samples p_half /\
  exists r w1,
    drawCityHall p_half 28 (transform_entry p_half 28 initialWorld) = (r, w1) /\
    applySymbolTransform p_half 28 (drawCityHall p_half 28) initialWorld
      = (r, transform_exit w1) /\
    currentScale (transform_exit w1) = 1 /\
    cur (g (transform_exit w1)) = cur (g initialWorld) /\
    saved (g (transform_exit w1)) = saved (g initialWorld).
Proof.
  split; [exact p_half_unit |].
  destruct (transform_envelope_and_reset p_half 28 (drawCityHall p_half 28) initialWorld p_half_unit)
    as (_ & _ & _ & _ & _ & _ & _ & _ & r & w1 & Hd & Ha & Hs & _ & Hb & _).
  exists r, w1. split; [exact Hd |]. split; [exact Ha |]. split; [exact Hs |].
  apply Hb.
  destruct (drawCityHall_quiet p_half 28 (transform_entry p_half 28 initialWorld))
    as (w2 & Hq & Hk).
  rewrite Hq in Hd. injection Hd as _ <-. apply (keeps_saved _ _ Hk).
Defined.

(** *** Stroke weights *)

Ltac direct_drawer :=
  intros p size w;
  destruct w as [n sc gr pr inst]; destruct gr as [wd ht dn bg sm d sv vs pt];
  destruct d;
  eexists; eexists; split; [run_sketch; reflexivity |];
  split; [cbn [painted g]; rewrite <- ?app_assoc; reflexivity |];
  reflexivity.

Lemma drawCityHall_direct p size :
  paints_with p size (stroke_factors 0) (drawCityHall p size).
Proof. revert p size. unfold drawCityHall. direct_drawer. Qed.
Lemma drawPoliceBox_direct p size :
  paints_with p size (stroke_factors 1) (drawPoliceBox p size).
Proof. revert p size. unfold drawPoliceBox. direct_drawer. Qed.
Lemma drawHighSchool_direct p size :
  paints_with p size (stroke_factors 2) (drawHighSchool p size).
Proof. revert p size. unfold drawHighSchool. direct_drawer. Qed.
Lemma drawPostOffice_direct p size :
  paints_with p size (stroke_factors 3) (drawPostOffice p size).
Proof. revert p size. unfold drawPostOffice. direct_drawer. Qed.
Lemma drawHospital_direct p size :
  paints_with p size (stroke_factors 4) (drawHospital p size).
Proof. revert p size. unfold drawHospital. direct_drawer. Qed.
Lemma drawShrine_direct p size :
  paints_with p size (stroke_factors 5) (drawShrine p size).
Proof. revert p size. unfold drawShrine. direct_drawer. Qed.
Lemma drawTemple_direct p size :
  paints_with p size (stroke_factors 6) (drawTemple p size).
Proof. revert p size. unfold drawTemple. direct_drawer. Qed.
Lemma drawMuseum_direct p size :
  paints_with p size (stroke_factors 7) (drawMuseum p size).
Proof. revert p size. unfold drawMuseum. direct_drawer. Qed.
Lemma drawFactory_direct p size :
  paints_with p size (stroke_factors 8) (drawFactory p size).
Proof. revert p size. unfold drawFactory. direct_drawer. Qed.
Lemma drawCastleRuins_direct p size :
  paints_with p size (stroke_factors 9) (drawCastleRuins p size).
Proof. revert p size. unfold drawCastleRuins. direct_drawer. Qed.

Lemma DRAWERS_direct k d :
  DRAWERS !! k = Some d -> forall p size, paints_with p size (stroke_factors k) (d p size).
Proof.
  rewrite DRAWERS_table. intros Hd p size.
  do 10 (destruct k as [|k];
         [cbn [lookup list_lookup] in Hd; injection Hd as <-;
          auto using drawCityHall_direct, drawPoliceBox_direct, drawHighSchool_direct,
            drawPostOffice_direct, drawHospital_direct, drawShrine_direct,
            drawTemple_direct, drawMuseum_direct, drawFactory_direct,
            drawCastleRuins_direct |]).
  cbn [lookup list_lookup] in Hd. discriminate Hd.
Qed.

(** Claim C3 fails as stated: the first circle of the city hall icon is
    painted under the sampled scale 3/4 with the weight [size * f], which
    is not [max 1 (size * f / s)]. *)
Lemma drawers_apply_uncompensated_stroke :
  let size := 28 in
  let s := sampled p_half 0.5 1 1 in
  let f := sampled p_half 0.05 0.08 4 in
  exists icon w' pt rest,
    createIconForCategory (Finite 0) size p_half initialWorld = (Ok icon, w') /\
    painted (image icon) = pt :: rest /\
    scale_of (xform (under pt)) == s /\
    weight (under pt) == size * f /\
    ~ weight (under pt) == Qmax 1 (size * f / s).
Proof.
  eexists _, _, _, _. split; [vm_compute; reflexivity |].
  split; [reflexivity |]. split; [reflexivity |]. split; [reflexivity |].
  vm_compute. discriminate.
Qed.

(** Claim C3, amended.  While the transform is active with the sampled
    scale [s] of [0.5, 1), the [stroke] helper returns
    [max 1 (size * factor / s)], which is at least 1 and, when
    [size * factor >= s], is rendered under [s] at [size * factor].  The
    drawers of the registry do not call it: whatever the state, and so
    whatever [currentScale], the k-th drawer paints exactly the weights of
    [stroke_factors k], each [size] times a factor sampled between the
    bounds of its row, neither divided by the scale nor raised to 1; so it
    does under the transform. *)
Theorem stroke_helper_compensates p size factor w :
  unit_samples p ->
  let s := sampled p 0.5 1 (1 + cursor w) in
  let entry := transform_entry p size w in
  (0.5 <= s /\ s < 1) /\
  stroke size (Some factor) entry = (Ok (Qmax 1 (size * factor / s)), entry) /\
  1 <= Qmax 1 (size * factor / s) /\
  (s <= size * factor -> s * Qmax 1 (size * factor / s) == size * factor) /\
  (forall k d, DRAWERS !! k = Some d ->
     paints_with p size (stroke_factors k) (d p size) /\
     exists w1 new,
       applySymbolTransform p size (d p size) w = (Ok tt, transform_exit w1) /\
       painted (g (transform_exit w1)) = painted (g w) ++ new /\
       map (fun pt => weight (under pt)) new
         = map (requested p size (4 + cursor w)) (stroke_factors k)).
Proof.
  intros Hu s entry.
  assert (Hs : 0.5 <= s /\ s < 1) by (apply sampled_range; [assumption | reflexivity]).
  split; [exact Hs |].
  split; [reflexivity |].
  split; [apply Q.le_max_l |].
  split.
  - intros Hle. destruct Hs as [Hs0 Hs1].
    assert (Hge : 1 <= size * factor / s).
    { apply Qle_shift_div_l; lra. }
    rewrite (Q.max_r _ _ Hge). field. lra.
  - intros k d Hd. split; [apply DRAWERS_direct, Hd |].
    destruct (DRAWERS_direct k d Hd p size entry) as (w1 & new & Hr & Hp & Hw).
    exists w1, new. rewrite applySymbolTransform_unfold. fold entry. rewrite Hr.
    split; [reflexivity |]. split; [|exact Hw].
    unfold transform_exit.
    destruct w1 as [n1 sc1 gr1 pr1 inst1]. destruct gr1 as [wd ht dn bg sm d1 sv vs pt].
    cbn [g painted] in Hp. subst pt.
    destruct sv; reflexivity.
Qed.

(** C3 at size 28 and factor 0.06. *)
Lemma stroke_helper_compensates_witness :
  unit_samples p_half /\
  stroke 28 (Some 0.06) (transform_entry p_half 28 initialWorld)
    = (Ok (Qmax 1 (28 * 0.06 / sampled p_half 0.5 1 1)),
       transform_entry p_half 28 initialWorld) /\
  paints_with p_half 28 [(0.05, 0.08, 0%nat); (0.04, 0.06, 2%nat)] (drawCityHall p_half 28).
Proof.
  split; [exact p_half_unit |].
  destruct (stroke_helper_compensates p_half 28 0.06 initialWorld p_half_unit)
    as (_ & Hst & _ & _ & Hd).
  split; [exact Hst |].
  apply (Hd 0%nat). rewrite DRAWERS_table. reflexivity.
Defined.

(** *** The memoised generator *)

Lemma generateIcon_keeps_promise p categoryId size w :
  generatorPromise (generateIcon p categoryId size w).2 = generatorPromise w /\
  p5Instances (generateIcon p categoryId size w).2 = p5Instances w.
Proof.
  unfold generateIcon.
  destruct (id_rejected categoryId) eqn:E.
  - unfold createIconForCategory. unfold id_rejected in E. rewrite E. split; reflexivity.
  - apply id_rejected_spec in E. destruct E as (k & Hk & Hq).
    destruct categoryId as [q| |neg]; try contradiction.
    rewrite (createIconForCategory_valid q k _ _ Hk Hq).
    destruct (drawer_at_registered q k Hk Hq) as (c & d & _ & _ & _ & -> & Hin).
    destruct (renderIcon_quiet d (default DEFAULT_CANVAS_SIZE size) p w
                (fun s => DRAWERS_quiet d Hin p s))
      as (w' & -> & _ & _ & _ & Hp & Hi).
    split; assumption.
Qed.

Lemma getIconGenerator_first w :
  generatorPromise w = None ->
  getIconGenerator w =
    (Ok {| promiseId := p5Instances w |},
     {| cursor := cursor w; currentScale := currentScale w; g := g w;
        generatorPromise := Some {| promiseId := p5Instances w |};
        p5Instances := S (p5Instances w) |}).
Proof. intros Hw. unfold getIconGenerator. rewrite Hw. reflexivity. Qed.

Lemma getIconGenerator_cached w pr :
  generatorPromise w = Some pr -> getIconGenerator w = (Ok pr, w).
Proof. intros Hw. unfold getIconGenerator. rewrite Hw. reflexivity. Qed.

Lemma uses_memoised p l : forall w pr,
  generatorPromise w = Some pr ->
  forall prs w', uses p l w = (prs, w') ->
    Forall (fun x => x = pr) prs /\ generatorPromise w' = Some pr /\
    p5Instances w' = p5Instances w.
Proof.
  induction l as [|u l IH]; intros w pr Hw prs w' Hr.
  - injection Hr as <- <-. auto.
  - destruct u as [|categoryId size]; simpl in Hr.
    + rewrite (getIconGenerator_cached w pr Hw) in Hr.
      destruct (uses p l w) as [prs1 w2] eqn:E. injection Hr as <- <-.
      destruct (IH w pr Hw prs1 w2 E) as (Hf & Hp & Hi). auto.
    + destruct (generateIcon_keeps_promise p categoryId size w) as [Hp Hi].
      rewrite Hw in Hp.
      destruct (IH _ pr Hp prs w' Hr) as (Hf & Hp' & Hi').
      split; [assumption |]. split; [assumption |]. congruence.
Qed.

(** Claim C9.  Over any sequence of uses of the module, every
    [getIconGenerator] call returns one and the same promise; a promise
    cached beforehand is that promise and no p5 instance is created, and
    with none cached exactly one instance is created if the generator is
    acquired at all. *)
Theorem getIconGenerator_single_flight p l w :
  exists pr,
    Forall (fun x => x = pr) (uses p l w).1 /\
    (forall pr0, generatorPromise w = Some pr0 ->
       pr = pr0 /\ p5Instances (uses p l w).2 = p5Instances w) /\
    (generatorPromise w = None ->
       p5Instances (uses p l w).2 =
         (if existsb is_Acquire l then S (p5Instances w) else p5Instances w)).
Proof.
  revert w. induction l as [|u l IH]; intros w.
  - exists (default {| promiseId := 0 |} (generatorPromise w)). simpl.
    split; [constructor |]. split; [intros pr0 ->; auto | auto].
  - destruct u as [|categoryId size].
    + destruct (generatorPromise w) as [pr0|] eqn:Hw.
      * destruct (uses p (Acquire :: l) w) as [prs w'] eqn:E.
        destruct (uses_memoised p _ w pr0 Hw prs w' E) as (Hf & _ & Hi).
        exists pr0. simpl. split; [assumption |].
        split; [intros ? [= <-]; auto | discriminate].
      * simpl. rewrite (getIconGenerator_first w Hw).
        set (pr := {| promiseId := p5Instances w |}).
        set (w1 := Build_World _ _ _ _ _).
        destruct (uses p l w1) as [prs w2] eqn:E.
        destruct (uses_memoised p l w1 pr eq_refl prs w2 E) as (Hf & _ & Hi).
        exists pr. simpl. split; [constructor; [reflexivity | assumption] |].
        split; [discriminate |]. intros _. exact Hi.
    + destruct (generateIcon_keeps_promise p categoryId size w) as [Hp Hi].
      destruct (IH (generateIcon p categoryId size w).2) as (pr & Hf & Hsome & Hnone).
      exists pr. simpl. split; [assumption |]. split.
      * intros pr0 Hw. rewrite <- Hp in Hw. destruct (Hsome pr0 Hw) as [-> Hi'].
        split; [reflexivity | congruence].
      * intros Hw. rewrite <- Hp in Hw. rewrite (Hnone Hw), Hi. reflexivity.
Qed.

(** C9 on a fresh module: three acquisitions around one icon. *)
Lemma getIconGenerator_single_flight_witness :
  generatorPromise initialWorld = None /\
  exists pr,
    Forall (fun x => x = pr)
      (uses p_half [Acquire; Generate (Finite 0) None; Acquire; Acquire] initialWorld).1 /\
    p5Instances
      (uses p_half [Acquire; Generate (Finite 0) None; Acquire; Acquire] initialWorld).2
      = 1%nat.
Proof.
  split; [reflexivity |].
  destruct (getIconGenerator_single_flight p_half [Acquire; Generate (Finite 0) None; Acquire; Acquire]
              initialWorld) as (pr & Hf & _ & Hn).
  exists pr. split; [exact Hf | exact (Hn eq_refl)].
Defined.

(** *** The anatomy of an icon *)

Ltac inked_primitive :=
  split; [reflexivity|]; split; [reflexivity|]; split; [reflexivity|];
  split; [first [left; reflexivity | right; reflexivity]|];
  split;
  [ first [ exists []; split; [symmetry; apply app_nil_r | constructor]
          | eexists; split; [reflexivity | repeat constructor] ]
  | eexists _, _, _; split; [reflexivity | repeat split; lra] ].

Ltac drawing :=
  intros p size w;
  destruct w as [n sc gr pr inst]; destruct gr as [wd ht dn bg sm d sv vs pt];
  destruct d;
  eexists; eexists; split; [run_sketch; reflexivity |];
  split; [cbn [painted g]; rewrite <- ?app_assoc; reflexivity |];
  split; [reflexivity |]; split; [reflexivity |]; split; [reflexivity |];
  repeat (constructor; [inked_primitive |]); constructor.

Lemma drawCityHall_draws p size : draws p size 2 4 (drawCityHall p size).
Proof. revert p size. unfold drawCityHall. drawing. Qed.

Lemma drawPoliceBox_draws p size : draws p size 2 1 (drawPoliceBox p size).
Proof. revert p size. unfold drawPoliceBox. drawing. Qed.

Lemma drawHighSchool_draws p size : draws p size 5 3 (drawHighSchool p size).
Proof. revert p size. unfold drawHighSchool. drawing. Qed.

Lemma drawPostOffice_draws p size : draws p size 4 3 (drawPostOffice p size).
Proof. revert p size. unfold drawPostOffice. drawing. Qed.

Lemma drawHospital_draws p size : draws p size 3 2 (drawHospital p size).
Proof. revert p size. unfold drawHospital. drawing. Qed.

Lemma drawShrine_draws p size : draws p size 4 1 (drawShrine p size).
Proof. revert p size. unfold drawShrine. drawing. Qed.

Lemma drawTemple_draws p size : draws p size 4 2 (drawTemple p size).
Proof. revert p size. unfold drawTemple. drawing. Qed.

Lemma drawMuseum_draws p size : draws p size 8 7 (drawMuseum p size).
Proof. revert p size. unfold drawMuseum. drawing. Qed.

Lemma drawFactory_draws p size : draws p size 9 2 (drawFactory p size).
Proof. revert p size. unfold drawFactory. drawing. Qed.

Lemma drawCastleRuins_draws p size : draws p size 1 6 (drawCastleRuins p size).
Proof. revert p size. unfold drawCastleRuins. drawing. Qed.

Ltac registered :=
  lazymatch goal with
  | Hd : _ !! _ = Some _ |- _ => cbn [lookup list_lookup] in Hd; injection Hd as <-
  end.

Lemma DRAWERS_draw k d :
  DRAWERS !! k = Some d ->
  forall p size, draws p size (primitive_count k) (sample_count k) (d p size).
Proof.
  rewrite DRAWERS_table. intros Hd p size.
  destruct k as [|k]; [registered; apply drawCityHall_draws|].
  destruct k as [|k]; [registered; apply drawPoliceBox_draws|].
  destruct k as [|k]; [registered; apply drawHighSchool_draws|].
  destruct k as [|k]; [registered; apply drawPostOffice_draws|].
  destruct k as [|k]; [registered; apply drawHospital_draws|].
  destruct k as [|k]; [registered; apply drawShrine_draws|].
  destruct k as [|k]; [registered; apply drawTemple_draws|].
  destruct k as [|k]; [registered; apply drawMuseum_draws|].
  destruct k as [|k]; [registered; apply drawFactory_draws|].
  destruct k as [|k]; [registered; apply drawCastleRuins_draws|].
  cbn [lookup list_lookup] in Hd. discriminate Hd.
Qed.

Lemma transform_draws p size count samples (draw : M unit) :
  draws p size count samples draw ->
  forall w, exists w' new,
    applySymbolTransform p size draw w = (Ok tt, w') /\
    painted (g w') = painted (g w) ++ new /\
    length new = count /\
    cursor w' = (samples + 4 + cursor w)%nat /\
    (width (g w'), height (g w'), density (g w'), background (g w'), smoothing (g w'),
     cur (g w'), saved (g w'), generatorPromise w', p5Instances w')
    = (width (g w), height (g w), density (g w), background (g w), smoothing (g w),
       cur (g w), saved (g w), generatorPromise w, p5Instances w) /\
    currentScale w' = 1 /\
    Forall (inked p size (cur (g (transform_entry p size w)))) new.
Proof.
  intros Hd w. rewrite applySymbolTransform_unfold.
  destruct (Hd (transform_entry p size w)) as (w1 & new & -> & Hp & Hl & Hc & Hs & Hink).
  exists (transform_exit w1), new. split; [reflexivity|].
  unfold canvas_setup in Hs. injection Hs as Hwd Hht Hdn Hbg Hsm Hcur Hsv Hsc Hpr Hin.
  change (saved (g (transform_entry p size w))) with (cur (g w) :: saved (g w)) in Hsv.
  change (painted (g (transform_entry p size w))) with (painted (g w)) in Hp.
  change (cursor (transform_entry p size w)) with (4 + cursor w)%nat in Hc.
  change (width (g (transform_entry p size w))) with (width (g w)) in Hwd.
  change (height (g (transform_entry p size w))) with (height (g w)) in Hht.
  change (density (g (transform_entry p size w))) with (density (g w)) in Hdn.
  change (background (g (transform_entry p size w))) with (background (g w)) in Hbg.
  change (smoothing (g (transform_entry p size w))) with (smoothing (g w)) in Hsm.
  change (generatorPromise (transform_entry p size w)) with (generatorPromise w) in Hpr.
  change (p5Instances (transform_entry p size w)) with (p5Instances w) in Hin.
  clear Hcur Hsc.
  unfold transform_exit.
  destruct w1 as [n1 sc1 gr1 pr1 inst1]. destruct gr1 as [wd1 ht1 dn1 bg1 sm1 d1 sv1 vs1 pt1].
  cbn [g saved painted cursor width height density background smoothing generatorPromise
       p5Instances cur] in *.
  subst sv1 pt1 n1 wd1 ht1 dn1 bg1 sm1 pr1 inst1.
  split; [reflexivity|]. split; [exact Hl|]. split; [run_setup; cbn [snd]; lia|].
  split; [reflexivity|]. split; [reflexivity|]. exact Hink.
Qed.

Lemma renderIcon_draws (d : SymbolDrawer) count samples size p w :
  (forall s, draws p s count samples (d p s)) ->
  let side := Z.max 8 (Qfloor size) in
  exists w',
    renderIcon d size p w =
      (if canvasReachable p then Ok {| mime := "image/png"; image := g w' |}
       else Throw CanvasUnavailable, w') /\
    (width (g w'), height (g w'), density (g w'), background (g w'), smoothing (g w'),
     cur (g w'), saved (g w'))
    = (side, side, 1%Z, Some 255%Z, false, drawing_setup, []) /\
    length (painted (g w')) = count /\
    cursor w' = (samples + 4 + cursor w)%nat /\
    Forall (inked p (inject_Z side) (icon_entry p (inject_Z side) (cursor w)))
      (painted (g w')).
Proof.
  intros Hd side. rewrite renderIcon_setup. fold side.
  destruct (transform_draws p (inject_Z side) count samples (d p (inject_Z side))
              (Hd (inject_Z side)) (canvas_ready side w))
    as (w1 & new & Hr & Hp & Hl & Hc & Hs & _ & Hink).
  unfold mbind at 1, M_bind at 1. rewrite Hr.
  exists w1. split.
  { unfold mbind, M_bind, ensureCanvasElement. destruct (canvasReachable p); reflexivity. }
  split; [injection Hs as -> -> -> -> -> -> ->; reflexivity|].
  rewrite Hp. split; [exact Hl|]. split; [exact Hc|]. exact Hink.
Qed.

Lemma scale_of_rotations rotations : Forall is_rotation rotations -> scale_of rotations = 1.
Proof.
  induction 1 as [|t rest Ht _ IH]; [reflexivity|].
  destruct t; try contradiction. exact IH.
Qed.

Lemma inked_range p side n pt :
  unit_samples p -> 0 < side ->
  inked p side (icon_entry p side n) pt ->
  0.04 * side <= weight (under pt) /\ weight (under pt) < 0.1 * side /\
  scale_of (xform (under pt)) == sampled p 0.5 1 (1 + n).
Proof.
  intros Hunit Hside (_ & _ & _ & _ & (rotations & Hx & Hrot) & lo & hi & m & Hw & Hlo & Hlt & Hhi).
  destruct (sampled_range p lo hi m Hunit Hlt) as [Hge Hle].
  rewrite Hw, Hx. split; [nra|]. split; [nra|].
  cbn [icon_entry framed xform drawing_setup app scale_of].
  rewrite (scale_of_rotations rotations Hrot). ring.
Qed.

(** Extra X1.  The icon of a registry category is a fixed drawing on a prepared
    canvas.  [generateIcon] returns exactly when the canvas can be reached;
    the canvas is a square with a white background, pixel density 1 and
    smoothing off, left in the drawing state that was set up, nothing
    pushed; the number of primitives painted and the number of samples read
    depend on the category alone; every primitive is stroked in black with
    square caps and mitered joins, under the frame of the transform followed
    by rotations only, at a weight of the side times a factor sampled within
    [0.04, 0.1); with unit samples that weight lies between 4 and 10 percent
    of the side and the scale it is painted under is the sampled one. *)
Theorem icon_anatomy p k size w :
  (k < length SYMBOL_CATEGORIES)%nat ->
  let side := Z.max 8 (Qfloor (default DEFAULT_CANVAS_SIZE size)) in
  exists w',
    generateIcon p (Finite (Q_of_nat k)) size w =
      (if canvasReachable p then Ok {| mime := "image/png"; image := g w' |}
       else Throw CanvasUnavailable, w') /\
    (width (g w'), height (g w'), density (g w'), background (g w'), smoothing (g w'),
     cur (g w'), saved (g w'))
    = (side, side, 1%Z, Some 255%Z, false, drawing_setup, []) /\
    length (painted (g w')) = primitive_count k /\
    cursor w' = (sample_count k + 4 + cursor w)%nat /\
    Forall (inked p (inject_Z side) (icon_entry p (inject_Z side) (cursor w)))
      (painted (g w')) /\
    (unit_samples p ->
     Forall (fun pt =>
               0.04 * inject_Z side <= weight (under pt) /\
               weight (under pt) < 0.1 * inject_Z side /\
               scale_of (xform (under pt)) == sampled p 0.5 1 (1 + cursor w))
       (painted (g w'))).
Proof.
  intros Hk side. unfold generateIcon.
  rewrite (createIconForCategory_valid (Q_of_nat k) k _ _ Hk (Qeq_refl _)).
  unfold drawer_at. rewrite (Qfloor_Q_of_nat _ k (Qeq_refl _)).
  destruct (DRAWERS !! k) as [d|] eqn:Hd.
  2: { apply lookup_ge_None in Hd. rewrite DRAWERS_table in Hd. cbn in Hd, Hk. lia. }
  destruct (renderIcon_draws d (primitive_count k) (sample_count k)
              (default DEFAULT_CANVAS_SIZE size) p w
              (fun s => DRAWERS_draw k d Hd p s))
    as (w' & Hr & Hs & Hl & Hc & Hink).
  exists w'. fold side in Hs, Hink.
  split; [exact Hr|]. split; [exact Hs|]. split; [exact Hl|]. split; [exact Hc|].
  split; [exact Hink|].
  intros Hunit. eapply Forall_impl; [exact Hink|].
  intros pt Hpt. apply (inked_range p (inject_Z side) (cursor w) pt Hunit); [|exact Hpt].
  unfold Qlt. cbn. lia.
Qed.

(** X1 at the factory icon at 64 pixels: nine primitives, six samples. *)
Lemma icon_anatomy_witness :
  exists w',
    generateIcon p_half (Finite (Q_of_nat 8)) (Some 64) initialWorld
      = (Ok {| mime := "image/png"; image := g w' |}, w') /\
    length (painted (g w')) = 9%nat /\
    cursor w' = 6%nat /\
    Forall (fun pt => 0.04 * 64 <= weight (under pt) /\ weight (under pt) < 0.1 * 64)
      (painted (g w')).
Proof.
  destruct (icon_anatomy p_half 8 (Some 64) initialWorld ltac:(cbn; lia))
    as (w' & Hr & _ & Hl & Hc & _ & Hrange).
  exists w'. split; [exact Hr|]. split; [exact Hl|]. split; [exact Hc|].
  eapply Forall_impl; [exact (Hrange p_half_unit)|].
  intros pt (Hlo & Hhi & _). split; [exact Hlo|exact Hhi].
Defined.

(** *** The drawer table *)

(** Extra X2.  The table [DRAWERS] is built in the order of the categories.  For
    categories whose keys name no member that a plain object inherits
    (where reading [DRAWERS_BY_KEY] is reading its own properties), the
    build succeeds exactly when every key has a drawer, and then the i-th
    drawer is the one registered under the key of the i-th category;
    otherwise it throws "Drawer not found" for the first key without a
    drawer. *)
Theorem build_drawers_first_missing_key categories :
  Forall (fun c => key c ∉ Object_prototype_members) categories ->
  match build_drawers categories with
  | Ok drawers =>
      length drawers = length categories /\
      forall i c, categories !! i = Some c -> DRAWERS_BY_KEY !! key c = drawers !! i
  | Throw e =>
      exists i c,
        categories !! i = Some c /\
        e = DrawerNotFound (key c) /\
        DRAWERS_BY_KEY !! key c = None /\
        forall j c', (j < i)%nat -> categories !! j = Some c' ->
                     is_Some (DRAWERS_BY_KEY !! key c')
  end.
Proof.
  intros _.
  induction categories as [|c rest IH]; cbn [build_drawers].
  - split; [reflexivity|]. intros i c Hc. discriminate Hc.
  - destruct (DRAWERS_BY_KEY !! key c) as [d|] eqn:Hd.
    + destruct (build_drawers rest) as [drawers|e].
      * destruct IH as [Hlen Hall]. split; [cbn; rewrite Hlen; reflexivity|].
        intros [|i] c' Hc'.
        { injection Hc' as <-. exact Hd. }
        { apply (Hall i c' Hc'). }
      * destruct IH as (i & c' & Hc' & He & Hnone & Hbefore).
        exists (S i), c'. split; [exact Hc'|]. split; [exact He|]. split; [exact Hnone|].
        intros [|j] c'' Hj Hc''.
        { injection Hc'' as <-. rewrite Hd. eauto. }
        { apply (Hbefore j c''); [lia|exact Hc'']. }
    + exists 0%nat, c. split; [reflexivity|]. split; [reflexivity|]. split; [exact Hd|].
      intros j c' Hj. lia.
Qed.

(** X2 at three categories, the second with a key that has no drawer. *)
Lemma build_drawers_first_missing_key_witness :
  let categories :=
    [ {| id := 0; key := "city-hall"; label := "city hall" |};
      {| id := 1; key := "lighthouse"; label := "lighthouse" |};
      {| id := 2; key := "shrine"; label := "shrine" |} ] in
  Forall (fun c => key c ∉ Object_prototype_members) categories /\
  build_drawers categories = Throw (DrawerNotFound "lighthouse") /\
  match build_drawers categories with
  | Ok drawers =>
      length drawers = length categories /\
      forall i c, categories !! i = Some c -> DRAWERS_BY_KEY !! key c = drawers !! i
  | Throw e =>
      exists i c,
        categories !! i = Some c /\
        e = DrawerNotFound (key c) /\
        DRAWERS_BY_KEY !! key c = None /\
        forall j c', (j < i)%nat -> categories !! j = Some c' ->
                     is_Some (DRAWERS_BY_KEY !! key c')
  end.
Proof.
  intros categories.
  assert (Hkeys : Forall (fun c => key c ∉ Object_prototype_members) categories).
  { repeat constructor; intros Hin;
      repeat (apply elem_of_cons in Hin as [Hin|Hin]; [discriminate Hin|]);
      inversion Hin. }
  split; [exact Hkeys|]. split; [vm_compute; reflexivity|].
  exact (build_drawers_first_missing_key categories Hkeys).
Defined.

(** Extra X3.  A drawer registered under a key that no category of the registry
    carries is a placeholder: it returns and leaves sketch and canvas
    exactly as they were. *)
Theorem unregistered_drawers_draw_nothing k d :
  DRAWERS_BY_KEY !! k = Some d ->
  k ∉ key <$> SYMBOL_CATEGORIES ->
  forall p size w, d p size w = (Ok tt, w).
Proof.
  intros Hd Hk p size w.
  assert (Hplace : forall w0 : World, (g_push;; g_pop) w0 = (Ok tt, w0)).
  { intros [n sc [wd ht dn bg sm cu sv vs pt] pr inst]. reflexivity. }
  unfold DRAWERS_BY_KEY in Hd. apply elem_of_list_to_map_2 in Hd.
  repeat (apply elem_of_cons in Hd as [Hd | Hd];
          [injection Hd as -> ->;
           first [ solve [ exfalso; apply Hk; cbn [fmap list_fmap key SYMBOL_CATEGORIES];
                           repeat first [apply list_elem_of_here | apply list_elem_of_further] ]
                 | exact (Hplace w) ] |]).
  apply elem_of_nil in Hd as [].
Qed.

(** X3 at the windmill drawer. *)
Lemma unregistered_drawers_draw_nothing_witness :
  DRAWERS_BY_KEY !! "windmill" = Some drawWindmill /\
  drawWindmill p_half 28 initialWorld = (Ok tt, initialWorld).
Proof.
  assert (Hd : DRAWERS_BY_KEY !! "windmill" = Some drawWindmill) by reflexivity.
  split; [exact Hd|].
  apply (unregistered_drawers_draw_nothing "windmill" drawWindmill Hd).
  apply (bool_decide_unpack _). vm_compute. exact I.
Defined.

(** *** The exported helpers *)

(** Extra X4.  The exported helpers with their default arguments: [jitter] and [vary]
    each read one sample; with unit samples [jitter] yields an offset within
    half a percent of the size either way and [vary] a value within ten
    percent of the one given. *)
Theorem vary_and_jitter_ranges p size value w :
  unit_samples p ->
  0 < size -> 0 < value ->
  exists j v,
    jitter p size None w = (Ok j, (random p 0 1 w).2) /\
    vary p value None w = (Ok v, (random p 0 1 w).2) /\
    cursor (random p 0 1 w).2 = S (cursor w) /\
    - (0.005 * size) <= j /\ j < 0.005 * size /\
    0.9 * value <= v /\ v < 1.1 * value.
Proof.
  intros Hunit Hsize Hvalue.
  destruct (Hunit (cursor w)) as [Hlo Hhi].
  eexists _, _. split; [reflexivity|]. split; [reflexivity|]. split; [reflexivity|].
  cbn [default]. repeat split; nra.
Qed.

(** X4 at size 28 and value 10 with samples of one half. *)
Lemma vary_and_jitter_ranges_witness :
  exists j v,
    jitter p_half 28 None initialWorld = (Ok j, (random p_half 0 1 initialWorld).2) /\
    vary p_half 10 None initialWorld = (Ok v, (random p_half 0 1 initialWorld).2) /\
    j == 0 /\ v == 10.
Proof.
  destruct (vary_and_jitter_ranges p_half 28 10 initialWorld p_half_unit)
    as (j & v & Hj & Hv & _); [reflexivity|reflexivity|].
  exists j, v. split; [exact Hj|]. split; [exact Hv|].
  injection Hj as <-. injection Hv as <-. split; reflexivity.
Defined.

(** *** The module scale between icons *)

Lemma generateIcon_scale p categoryId size w :
  currentScale w = 1 -> currentScale (generateIcon p categoryId size w).2 = 1.
Proof.
  intros Hone. unfold generateIcon.
  destruct (id_rejected categoryId) eqn:Hrej.
  - rewrite createIconForCategory_invalid; [exact Hone|].
    intros Hvalid. apply id_rejected_spec in Hvalid. congruence.
  - apply id_rejected_spec in Hrej as (k & Hk & Hq).
    destruct categoryId as [q| |]; try contradiction.
    rewrite (createIconForCategory_valid q k _ _ Hk Hq).
    destruct (drawer_at_registered q k Hk Hq) as (c & d & _ & _ & _ & -> & Hin).
    destruct (renderIcon_quiet d (default DEFAULT_CANVAS_SIZE size) p w
                (fun s => DRAWERS_quiet d Hin p s)) as (w' & -> & _ & _ & Hs & _).
    exact Hs.
Qed.

Lemma getIconGenerator_scale w : currentScale (getIconGenerator w).2 = currentScale w.
Proof.
  destruct (generatorPromise w) as [pr|] eqn:Hpr.
  - rewrite (getIconGenerator_cached w pr Hpr). reflexivity.
  - rewrite (getIconGenerator_first w Hpr). reflexivity.
Qed.

(** Extra X5.  Between icons the module scale is 1.  From a state in which
    [currentScale] is 1, every sequence of [getIconGenerator] and
    [generateIcon] calls, with valid or invalid ids, leaves it at 1, so that
    [stroke] called outside a transform divides by 1. *)
Theorem scale_is_one_between_icons p l : forall w,
  currentScale w = 1 ->
  currentScale (uses p l w).2 = 1 /\
  forall size factor,
    stroke size (Some factor) (uses p l w).2
      = (Ok (Qmax 1 (size * factor / 1)), (uses p l w).2).
Proof.
  assert (Hscale : forall w, currentScale w = 1 -> currentScale (uses p l w).2 = 1).
  { induction l as [|[|categoryId size] rest IH]; intros w Hone; cbn [uses].
    - exact Hone.
    - pose proof (getIconGenerator_scale w) as Hg.
      destruct (getIconGenerator w) as [[pr|e] w1]; cbn [snd] in Hg.
      + specialize (IH w1 ltac:(congruence)). destruct (uses p rest w1). exact IH.
      + apply IH. congruence.
    - apply IH, generateIcon_scale, Hone. }
  intros w Hone. split; [apply Hscale, Hone|].
  intros size factor. unfold stroke, get_currentScale, mbind, M_bind, mret, M_ret.
  cbn [default]. rewrite (Hscale w Hone). reflexivity.
Qed.

(** X5 at an acquisition, an icon and a rejected id. *)
Lemma scale_is_one_between_icons_witness :
  currentScale
    (uses p_half [Acquire; Generate (Finite 3) None; Generate NaN None] initialWorld).2 = 1.
Proof.
  apply (scale_is_one_between_icons p_half
           [Acquire; Generate (Finite 3) None; Generate NaN None] initialWorld).
  reflexivity.
Defined.

End GeneratorLaws.

(** ** Page *)

(** *** One turn of each loop *)

Lemma cancelButton_click_ok s : exists s', cancelButton_click s = (Ok tt, s').
Proof.
  unfold cancelButton_click.
  destruct (negb (isGenerating s) || cancelRequested s); eexists; reflexivity.
Qed.

Lemma suspend_ok b s : suspend b s = (Ok tt, suspend_state b s).
Proof.
  unfold suspend_state, suspend.
  destruct (cancelClicked b (suspensions s)); [|reflexivity].
  destruct (cancelButton_click_ok (set_suspended (suspended s ++ [snapshot s]) s)) as [s' ->].
  reflexivity.
Qed.

Lemma icon_loop_step b gen category folderName perCategory pixelSize remaining iconIndex zip s :
  icon_loop b gen category folderName perCategory pixelSize (S remaining) iconIndex zip s =
  if cancelRequested s then (Ok zip, s)
  else
    match generateIcon gen (categoryNumber (id category)) (Some (inject_Z pixelSize)) (world s) with
    | (Throw e, w) => (Throw e, set_world w s)
    | (Ok dataUrl, w) =>
        icon_loop b gen category folderName perCategory pixelSize remaining (iconIndex + 1)
          (folder_file folderName (fileNameOf iconIndex) (image dataUrl) zip)
          (after_icon b category perCategory iconIndex (set_world w s))
    end.
Proof.
  cbn [icon_loop]. unfold mbind at 1, H_bind at 1, get at 1.
  destruct (cancelRequested s); [reflexivity |].
  unfold mbind at 1, H_bind at 1, lift at 1.
  destruct (generateIcon _ _ _ _) as [[dataUrl | e] w]; [|reflexivity].
  unfold mbind at 1, H_bind at 1, after_icon.
  destruct (_ || _).
  - unfold mbind at 1, H_bind at 1, yieldToBrowser.
    unfold appendProgress at 1, modify at 1. rewrite suspend_ok. reflexivity.
  - reflexivity.
Qed.

Lemma category_loop_step b gen total perCategory pixelSize index category rest zip s :
  category_loop b gen total perCategory pixelSize index (category :: rest) zip s =
  if cancelRequested s then (Ok zip, s)
  else
    let s1 := (appendProgress (MsgCategory (label category) (index + 1) total) false s).2 in
    let folderName := folderNameOf index category in
    if folderCreated b folderName
    then
      match icon_loop b gen category folderName perCategory pixelSize
              (Z.to_nat perCategory) 0 (zip_folder folderName zip) s1 with
      | (Ok zip', s2) =>
          category_loop b gen total perCategory pixelSize (index + 1) rest zip' s2
      | (Throw e, s2) => (Throw e, s2)
      end
    else (Throw (ZipFolderFailed folderName), s1).
Proof.
  cbn [category_loop]. unfold mbind at 1, H_bind at 1, get at 1.
  destruct (cancelRequested s); [reflexivity |].
  unfold mbind at 1, H_bind at 1, appendProgress at 1, modify at 1.
  cbn zeta. destruct (folderCreated b _); [|reflexivity].
  unfold mbind at 1, H_bind at 1.
  destruct (icon_loop _ _ _ _ _ _ _ _ _ _) as [[zip' | e] s2]; reflexivity.
Qed.

(** *** What a run leaves alone *)

Lemma frame_generating s s' : frame s' = frame s -> isGenerating s' = isGenerating s.
Proof. unfold frame. intros H. injection H. auto. Qed.

Lemma frame_shows s s' shot : frame s' = frame s -> shows s' shot -> shows s shot.
Proof.
  unfold frame, shows. intros H. injection H. intros.
  repeat match goal with H : _ /\ _ |- _ => destruct H end.
  repeat split; congruence.
Qed.

Lemma evolves_suspensions b s s' : evolves b s s' -> (suspensions s <= suspensions s')%nat.
Proof.
  intros [_ (new & Hl & _) _ _ _]. unfold suspensions. rewrite Hl, length_app. lia.
Qed.

Lemma evolves_refl b s : evolves b s s.
Proof.
  split; auto.
  - exists []. rewrite app_nil_r. auto.
  - intros _ n Hn. lia.
Qed.

Lemma evolves_trans b s1 s2 s3 : evolves b s1 s2 -> evolves b s2 s3 -> evolves b s1 s3.
Proof.
  intros E1 E2.
  pose proof (evolves_suspensions _ _ _ E1) as L1.
  pose proof (evolves_suspensions _ _ _ E2) as L2.
  destruct E1 as [F1 (n1 & Hl1 & Hs1) St1 Ck1 Un1].
  destruct E2 as [F2 (n2 & Hl2 & Hs2) St2 Ck2 Un2].
  pose proof (frame_generating _ _ F1) as G1.
  split.
  - congruence.
  - exists (n1 ++ n2). split; [rewrite Hl2, Hl1, app_assoc; reflexivity |].
    apply Forall_app. split; [assumption |].
    eapply Forall_impl; [exact Hs2 |]. intros shot. apply frame_shows, F1.
  - intros Hg Hc. apply St2; [congruence | auto].
  - intros Hg n Hn Hck.
    destruct (Nat.lt_ge_cases n (suspensions s2)) as [Hlt | Hge].
    + apply St2; [congruence |]. apply (Ck1 Hg n); [lia | assumption].
    + apply (Ck2 ltac:(congruence) n); [lia | assumption].
  - intros Hq. rewrite Un2, Un1; [reflexivity | |]; intros n Hn; apply Hq; lia.
Qed.

Lemma evolves_set_world b w s : evolves b s (set_world w s).
Proof.
  split; auto.
  - exists []. simpl. rewrite app_nil_r. auto.
  - intros _ n Hn. unfold suspensions in Hn. simpl in Hn. lia.
Qed.

Lemma evolves_appendProgress b m s : evolves b s (appendProgress m false s).2.
Proof.
  split; auto.
  - exists []. simpl. rewrite app_nil_r. auto.
  - intros _ n Hn. unfold suspensions in Hn. simpl in Hn. lia.
Qed.

Lemma shows_snapshot s : shows s (snapshot s).
Proof. repeat split. Qed.

Lemma evolves_suspend b s : evolves b s (suspend_state b s).
Proof.
  unfold suspend_state, suspend, cancelButton_click.
  destruct (cancelClicked b (suspensions s)) eqn:Hck.
  - cbn [isGenerating cancelRequested set_suspended].
    destruct (isGenerating s) eqn:Hg; destruct (cancelRequested s) eqn:Hc; simpl.
    all: split; simpl; rewrite ?Hg, ?Hc; auto.
    all: try (exists [snapshot s]; split; [reflexivity |];
              constructor; [apply shows_snapshot | constructor]).
    all: try discriminate.
    all: try (intros Hq; specialize (Hq (suspensions s));
              unfold suspensions in *; simpl in Hq; rewrite length_app in Hq;
              simpl in Hq; rewrite Hq in Hck by lia; discriminate).
    all: intros _ n Hn; unfold suspensions in Hn; simpl in Hn.
    all: try (intros; discriminate).
  - split; simpl; auto.
    + exists [snapshot s]. split; [reflexivity |].
      constructor; [apply shows_snapshot | constructor].
    + intros _ n Hn Hc. unfold suspensions in *. simpl in Hn.
      rewrite length_app in Hn. simpl in Hn.
      assert (n = length (suspended s)) by lia. subst n. congruence.
Qed.

Lemma evolves_same b s s' :
  frame s' = frame s -> suspended s' = suspended s ->
  cancelRequested s' = cancelRequested s -> evolves b s s'.
Proof.
  intros Hf Hs Hc. split; auto.
  - exists []. rewrite app_nil_r. auto.
  - congruence.
  - intros _ n Hn. unfold suspensions in Hn. rewrite Hs in Hn. lia.
Qed.

(** *** Relations kept by every step of a handler *)

Section Preserving.
Context (R : App -> App -> Prop).
Hypothesis R_refl : forall s, R s s.
Hypothesis R_trans : forall s1 s2 s3, R s1 s2 -> R s2 s3 -> R s1 s3.

Lemma preserving_ret {A} (a : A) : preserving R (mret a).
Proof. intros s. apply R_refl. Qed.

Lemma preserving_get : preserving R get.
Proof. intros s. apply R_refl. Qed.

Lemma preserving_raise {A} e : preserving R (@raise A e).
Proof. intros s. apply R_refl. Qed.

Lemma preserving_bind {A B} (m : H A) (f : A -> H B) :
  preserving R m -> (forall a, preserving R (f a)) -> preserving R (m ≫= f).
Proof.
  intros Hm Hf s. unfold mbind, H_bind. specialize (Hm s).
  destruct (m s) as [[a | e] s1]; simpl in *; [|assumption].
  eapply R_trans; [exact Hm | apply Hf].
Qed.

Lemma preserving_if {A} (c : bool) (m1 m2 : H A) :
  preserving R m1 -> preserving R m2 -> preserving R (if c then m1 else m2).
Proof. destruct c; auto. Qed.
End Preserving.

(** *** The loops *)

Lemma archive_kept_refl s : archive_kept s s.
Proof. split; reflexivity. Qed.

Lemma archive_kept_trans s1 s2 s3 :
  archive_kept s1 s2 -> archive_kept s2 s3 -> archive_kept s1 s3.
Proof. intros [? ?] [? ?]. split; congruence. Qed.

Create HintDb steps.

Lemma evolving_lift b {A} (m : M A) : preserving (evolves b) (lift m).
Proof.
  intros s. unfold lift. destruct (m (world s)) as [r w]. apply evolves_set_world.
Qed.

Lemma evolving_appendProgress b m : preserving (evolves b) (appendProgress m false).
Proof. intros s. apply evolves_appendProgress. Qed.

Lemma evolving_suspend b : preserving (evolves b) (suspend b).
Proof. intros s. apply evolves_suspend. Qed.

Lemma evolving_yield b : preserving (evolves b) (yieldToBrowser b).
Proof. apply evolving_suspend. Qed.

Lemma keeping_lift {A} (m : M A) : preserving archive_kept (lift m).
Proof. intros s. unfold lift. destruct (m (world s)) as [r w]. split; reflexivity. Qed.

Lemma keeping_appendProgress m r : preserving archive_kept (appendProgress m r).
Proof. intros s. split; reflexivity. Qed.

Lemma keeping_suspend b : preserving archive_kept (suspend b).
Proof.
  intros s. unfold suspend, cancelButton_click.
  destruct (cancelClicked b _); [|split; reflexivity].
  destruct (_ || _); split; reflexivity.
Qed.

Lemma keeping_yield b : preserving archive_kept (yieldToBrowser b).
Proof. apply keeping_suspend. Qed.

#[local] Hint Resolve evolves_refl evolves_trans archive_kept_refl archive_kept_trans : steps.
#[local] Hint Resolve evolving_lift evolving_appendProgress evolving_suspend evolving_yield
  keeping_lift keeping_appendProgress keeping_suspend keeping_yield : steps.

Ltac step_through :=
  repeat first
    [ solve [eauto with steps]
    | apply preserving_bind; [solve [eauto with steps] | | intros ?]
    | apply preserving_if
    | apply preserving_ret; solve [eauto with steps]
    | apply preserving_get; solve [eauto with steps]
    | apply preserving_raise; solve [eauto with steps] ].

Lemma icon_loop_evolves b gen category folderName perCategory pixelSize remaining :
  forall iconIndex zip,
    preserving (evolves b)
      (icon_loop b gen category folderName perCategory pixelSize remaining iconIndex zip).
Proof.
  induction remaining as [|remaining IH]; intros iconIndex zip; cbn [icon_loop].
  - step_through.
  - step_through.
Qed.

Lemma icon_loop_keeps b gen category folderName perCategory pixelSize remaining :
  forall iconIndex zip,
    preserving archive_kept
      (icon_loop b gen category folderName perCategory pixelSize remaining iconIndex zip).
Proof.
  induction remaining as [|remaining IH]; intros iconIndex zip; cbn [icon_loop].
  - step_through.
  - step_through.
Qed.

Lemma category_loop_evolves b gen total perCategory pixelSize categories :
  forall index zip,
    preserving (evolves b)
      (category_loop b gen total perCategory pixelSize index categories zip).
Proof.
  induction categories as [|category rest IH]; intros index zip; cbn [category_loop].
  - step_through.
  - step_through. apply icon_loop_evolves.
Qed.

Lemma category_loop_keeps b gen total perCategory pixelSize categories :
  forall index zip,
    preserving archive_kept
      (category_loop b gen total perCategory pixelSize index categories zip).
Proof.
  induction categories as [|category rest IH]; intros index zip; cbn [category_loop].
  - step_through.
  - step_through. apply icon_loop_keeps.
Qed.

(** The loop heads: with the flag set, neither loop does anything. *)
Lemma icon_loop_head b gen category folderName perCategory pixelSize remaining iconIndex zip s :
  cancelRequested s = true ->
  icon_loop b gen category folderName perCategory pixelSize remaining iconIndex zip s
    = (Ok zip, s).
Proof.
  intros Hc. destruct remaining; [reflexivity |].
  rewrite icon_loop_step, Hc. reflexivity.
Qed.

Lemma category_loop_head b gen total perCategory pixelSize index categories zip s :
  cancelRequested s = true ->
  category_loop b gen total perCategory pixelSize index categories zip s = (Ok zip, s).
Proof.
  intros Hc. destruct categories; [reflexivity |].
  rewrite category_loop_step, Hc. reflexivity.
Qed.

(** A loop that ends by an exception was never cancelled. *)
Lemma icon_loop_throw b gen category folderName perCategory pixelSize remaining :
  forall iconIndex zip s e s',
    icon_loop b gen category folderName perCategory pixelSize remaining iconIndex zip s
      = (Throw e, s') ->
    cancelRequested s' = false.
Proof.
  induction remaining as [|remaining IH]; intros iconIndex zip s e s' Hr.
  - discriminate.
  - rewrite icon_loop_step in Hr.
    destruct (cancelRequested s) eqn:Hc; [discriminate |].
    destruct (generateIcon _ _ _ _) as [[dataUrl | e'] w].
    + eapply IH, Hr.
    + injection Hr as _ <-. exact Hc.
Qed.

Lemma category_loop_throw b gen total perCategory pixelSize categories :
  forall index zip s e s',
    category_loop b gen total perCategory pixelSize index categories zip s = (Throw e, s') ->
    cancelRequested s' = false.
Proof.
  induction categories as [|category rest IH]; intros index zip s e s' Hr.
  - discriminate.
  - rewrite category_loop_step in Hr.
    destruct (cancelRequested s) eqn:Hc; [discriminate |].
    cbn zeta in Hr. destruct (folderCreated b _).
    + destruct (icon_loop _ _ _ _ _ _ _ _ _ _) as [[zip' | e'] s2] eqn:Hi.
      * eapply IH, Hr.
      * injection Hr as _ <-. eapply icon_loop_throw, Hi.
    + injection Hr as _ <-. exact Hc.
Qed.

(** *** Cancellation *)

Lemma generation_after_loops b gen categories perCategory pixelSize s :
  generation b gen categories perCategory pixelSize s =
  match category_loop b gen (length categories) perCategory pixelSize 0 categories [] s with
  | (Ok zip, s1) =>
      if cancelRequested s1
      then (Ok (Cancelled zip), (appendProgress MsgCancelled false s1).2)
      else
        (appendProgress MsgCompressing false;;
         modify (fun s => set_compressed (compressed s ++ [zip]) s);;
         suspend b;;
         modify (fun s => set_downloads (downloads s ++ [zip]) s);;
         appendProgress MsgDone false;;
         refreshCategoryPreviews b;;
         mret (Completed zip)) s1
  | (Throw e, s1) => (Throw e, s1)
  end.
Proof.
  unfold generation. unfold mbind at 1, H_bind at 1.
  destruct (category_loop _ _ _ _ _ _ _ _ _) as [[zip | e] s1]; [|reflexivity].
  unfold mbind at 1, H_bind at 1, get at 1.
  destruct (cancelRequested s1); reflexivity.
Qed.

Lemma guarded_generation_cancelled b gen categories perCategory pixelSize s zip s1 :
  category_loop b gen (length categories) perCategory pixelSize 0 categories [] s
    = (Ok zip, s1) ->
  cancelRequested s1 = true ->
  guarded_generation b gen categories perCategory pixelSize s =
    (Cancelled zip, (finally_block (appendProgress MsgCancelled false s1).2).2).
Proof.
  intros Hl Hc. unfold guarded_generation.
  rewrite generation_after_loops, Hl, Hc. reflexivity.
Qed.

(** Claim C2.  Both loops return at once, with the archive and the page as
    they are, when the flag is set at their head.  When the flag is set as
    the loops start, or the cancel button is clicked during a suspension of
    the loops, the loops end normally with the flag still set, the run ends
    [Cancelled] with the cancelled message as its last line, nothing is
    compressed or downloaded, and the page is ready again. *)
Theorem cancel_click_ends_run_cancelled b gen categories perCategory pixelSize s :
  isGenerating s = true ->
  let loops := category_loop b gen (length categories) perCategory pixelSize
                 0 categories [] s in
  let final := guarded_generation b gen categories perCategory pixelSize s in
  (cancelRequested s = true \/
   exists n, (suspensions s <= n < suspensions loops.2)%nat /\ cancelClicked b n = true) ->
  (forall total index cats zip s0,
     cancelRequested s0 = true ->
     category_loop b gen total perCategory pixelSize index cats zip s0 = (Ok zip, s0)) /\
  (forall category folderName remaining iconIndex zip s0,
     cancelRequested s0 = true ->
     icon_loop b gen category folderName perCategory pixelSize remaining iconIndex zip s0
       = (Ok zip, s0)) /\
  exists zip,
    loops.1 = Ok zip /\
    cancelRequested loops.2 = true /\
    final.1 = Cancelled zip /\
    progress final.2 = progress loops.2 ++ [MsgCancelled] /\
    compressed final.2 = compressed s /\
    downloads final.2 = downloads s /\
    isGenerating final.2 = false /\
    cancelRequested final.2 = false /\
    generateButton (disabled final.2) = false.
Proof.
  intros Hg loops final Hcancel.
  split; [intros; apply category_loop_head; assumption |].
  split; [intros; apply icon_loop_head; assumption |].
  pose proof (category_loop_evolves b gen (length categories) perCategory pixelSize
                categories 0 [] s) as Hev.
  pose proof (category_loop_keeps b gen (length categories) perCategory pixelSize
                categories 0 [] s) as [Hcomp Hdown].
  fold loops in Hev, Hcomp, Hdown.
  assert (Hreq : cancelRequested loops.2 = true).
  { destruct Hcancel as [Hc | (n & Hn & Hck)].
    - apply (ev_sticky _ _ _ Hev Hg Hc).
    - apply (ev_click _ _ _ Hev Hg n Hn Hck). }
  destruct loops as [[zip | e] s1] eqn:Hloops; simpl in Hreq, Hcomp, Hdown.
  - exists zip. subst final.
    rewrite (guarded_generation_cancelled _ _ _ _ _ _ _ _ Hloops Hreq).
    simpl. repeat split; assumption.
  - apply category_loop_throw in Hloops. congruence.
Qed.

(** *** Reading the form *)

Lemma selection_size (X : gset nat) : (size X =? 0)%nat = true <-> X = ∅.
Proof. rewrite Nat.eqb_eq, size_empty_iff. apply leibniz_equiv_iff. Qed.

Lemma submit_with_generator b gen s :
  generator s = Some gen -> submit b s = submit_ready b gen s.
Proof.
  intros Hg. unfold submit, ensureGenerator. rewrite Hg. simpl. rewrite Hg. reflexivity.
Qed.

(** Claim C1, amended.  A count of 0 or less and a size below 8 are
    rejected with their message; a count above 0 runs as
    [min 6000 count] and a size from 8 on as [min 512 size], both within
    their ranges, and the run starts with these values. *)
Theorem clamp_upper_reject_lower b gen s n m :
  Number_parseInt (countValue s) = Some n ->
  Number_parseInt (pixelValue s) = Some m ->
  selectedCategories s <> ∅ ->
  ((n <= 0)%Z -> (submit_ready b gen s).1 = Rejected MsgCountInvalid) /\
  ((0 < n)%Z -> (m < MIN_PIXEL_SIZE)%Z ->
     (submit_ready b gen s).1 = Rejected MsgPixelInvalid) /\
  ((0 < n)%Z -> (MIN_PIXEL_SIZE <= m)%Z ->
     exists r s1,
       read_form s = (inr r, s1) /\
       perCategory r = Z.min MAX_PER_CATEGORY n /\
       pixelSize r = Z.min MAX_PIXEL_SIZE m /\
       (1 <= perCategory r <= MAX_PER_CATEGORY)%Z /\
       (MIN_PIXEL_SIZE <= pixelSize r <= MAX_PIXEL_SIZE)%Z /\
       progress (start_run r s1) =
         [MsgStart (length (activeCategories r)) (perCategory r) (pixelSize r)] /\
       submit_ready b gen s =
         guarded_generation b gen (activeCategories r) (perCategory r) (pixelSize r)
           (start_run r s1)).
Proof.
  intros Hn Hm Hsel. unfold submit_ready, read_form. rewrite Hn.
  unfold MIN_PIXEL_SIZE, MAX_PIXEL_SIZE, MAX_PER_CATEGORY in *.
  split; [|split].
  - intros Hle. apply Z.leb_le in Hle. rewrite Hle. reflexivity.
  - intros Hpos Hlt. apply Z.leb_gt in Hpos. rewrite Hpos.
    assert (Hpx : forall s', pixelValue s' = pixelValue s ->
                    Number_parseInt (pixelValue s') = Some m) by (intros ? ->; exact Hm).
    destruct (_ =? n)%Z; rewrite Hpx by reflexivity;
      apply Z.ltb_lt in Hlt; rewrite Hlt; reflexivity.
  - intros Hpos Hge. apply Z.leb_gt in Hpos. rewrite Hpos.
    assert (Hpx : forall s', pixelValue s' = pixelValue s ->
                    Number_parseInt (pixelValue s') = Some m) by (intros ? ->; exact Hm).
    assert (Hnsel : forall X : gset nat, X = selectedCategories s -> (size X =? 0)%nat = false).
    { intros X ->. destruct (size _ =? 0)%nat eqn:E; [|reflexivity].
      apply selection_size in E. contradiction. }
    apply Z.ltb_ge in Hge.
    destruct (_ =? n)%Z; rewrite Hpx by reflexivity; rewrite Hge;
      destruct (_ =? m)%Z; rewrite Hnsel by reflexivity;
      eexists; eexists; (split; [reflexivity |]); cbn [perCategory pixelSize];
      apply Z.ltb_ge in Hge;
      repeat split; try reflexivity; try lia.
Qed.

(** C1 at the counts 0 and 10000 and the sizes 4 and 9999. *)
Lemma clamp_upper_reject_lower_witness :
  (submit_ready quiet_browser p_half (ready_page "0" "64")).1 = Rejected MsgCountInvalid /\
  (submit_ready quiet_browser p_half (ready_page "7" "4")).1 = Rejected MsgPixelInvalid /\
  exists r s1,
    read_form (ready_page "10000" "9999") = (inr r, s1) /\
    perCategory r = 6000%Z /\ pixelSize r = 512%Z.
Proof.
  assert (Hsel : forall c p, selectedCategories (ready_page c p) <> ∅).
  { intros c p He. apply (f_equal size) in He. vm_compute in He. discriminate. }
  split; [|split].
  - apply (clamp_upper_reject_lower quiet_browser p_half (ready_page "0" "64") 0 64);
      [reflexivity | reflexivity | apply Hsel | lia].
  - apply (clamp_upper_reject_lower quiet_browser p_half (ready_page "7" "4") 7 4);
      [reflexivity | reflexivity | apply Hsel | lia | unfold MIN_PIXEL_SIZE; lia].
  - destruct (clamp_upper_reject_lower quiet_browser p_half (ready_page "10000" "9999") 10000 9999)
      as (_ & _ & Hacc); [reflexivity | reflexivity | apply Hsel |].
    destruct Hacc as (r & s1 & Hr & Hc & Hp & _); [lia | unfold MIN_PIXEL_SIZE; lia |].
    exists r, s1. auto.
Defined.

(** Claim C1 fails as stated: a count of 0 and a size of 4 are rejected,
    so there is no effective count 1 or effective size 8. *)
Lemma low_values_are_rejected_not_clamped :
  (submit quiet_browser (initialApp "0" "64")).1 = Rejected MsgCountInvalid /\
  (submit quiet_browser (initialApp "7" "4")).1 = Rejected MsgPixelInvalid /\
  ~ (exists r s1, read_form (ready_page "0" "64") = (inr r, s1) /\ perCategory r = 1%Z) /\
  ~ (exists r s1, read_form (ready_page "7" "4") = (inr r, s1) /\ pixelSize r = 8%Z).
Proof.
  split; [vm_compute; reflexivity |]. split; [vm_compute; reflexivity |].
  split; intros (r & s1 & Hr & _); vm_compute in Hr; discriminate.
Qed.

(** *** Rejected submissions *)

Lemma read_form_run_state s : run_state (read_form s).2 = run_state s.
Proof.
  unfold read_form.
  destruct (Number_parseInt (countValue s)) as [n|]; [|reflexivity].
  destruct (n <=? 0)%Z; [reflexivity |].
  destruct (_ =? n)%Z;
    (destruct (Number_parseInt _) as [m|]; [|reflexivity]);
    (destruct (m <? _)%Z; [reflexivity |]);
    destruct (_ =? m)%Z; destruct (size _ =? 0)%nat; reflexivity.
Qed.


Lemma read_form_fields s :
  (countValue (read_form s).2 = countValue s \/ countValue (read_form s).2 = "6000") /\
  (pixelValue (read_form s).2 = pixelValue s \/ pixelValue (read_form s).2 = "512").
Proof.
  unfold read_form.
  destruct (Number_parseInt (countValue s)) as [n|]; [|auto].
  destruct (n <=? 0)%Z eqn:Hn; [auto |]. apply Z.leb_gt in Hn.
  assert (Hc : forall k, (Z.min MAX_PER_CATEGORY (Z.max 1 n) =? n)%Z = false ->
                 String_of_Z (Z.min MAX_PER_CATEGORY (Z.max 1 n)) = k -> k = "6000").
  { intros k Hne <-. apply Z.eqb_neq in Hne. unfold MAX_PER_CATEGORY in *.
    replace (Z.min 6000 (Z.max 1 n)) with 6000%Z by lia. reflexivity. }
  destruct (_ =? n)%Z eqn:En; cbn [pixelValue set_countValue];
    (destruct (Number_parseInt (pixelValue s)) as [m|]; [|cbn; eauto]);
    (destruct (m <? MIN_PIXEL_SIZE)%Z eqn:Hm; [cbn; eauto |]);
    apply Z.ltb_ge in Hm; unfold MIN_PIXEL_SIZE, MAX_PIXEL_SIZE in *;
    (destruct (_ =? m)%Z eqn:Em;
      [| apply Z.eqb_neq in Em;
         replace (Z.min 512 (Z.max 8 m)) with 512%Z by lia]);
    destruct (size _ =? 0)%nat; cbn; eauto.
Qed.

Lemma read_form_rejects s :
  count_bad s \/ pixel_bad s \/ selectedCategories s = ∅ ->
  exists m, (read_form s).1 = inl m.
Proof.
  unfold count_bad, pixel_bad, read_form. intros Hbad.
  destruct (Number_parseInt (countValue s)) as [n|] eqn:Hn; [|eauto].
  destruct (n <=? 0)%Z eqn:Hle; [eauto |]. apply Z.leb_gt in Hle.
  assert (Hrest :
    match Number_parseInt (pixelValue s) with
    | None => True
    | Some m => (m <= 0)%Z
    end \/ selectedCategories s = ∅) by (destruct Hbad as [? | [? | ?]]; [lia | auto | auto]).
  clear Hbad.
  destruct (_ =? n)%Z; cbn [pixelValue set_countValue];
    (destruct (Number_parseInt (pixelValue s)) as [m|]; [|eauto]);
    (destruct (m <? MIN_PIXEL_SIZE)%Z eqn:Hlt; [eauto |]);
    apply Z.ltb_ge in Hlt; unfold MIN_PIXEL_SIZE in Hlt;
    (destruct Hrest as [? | Hsel]; [lia |]);
    destruct (_ =? m)%Z; cbn [selectedCategories set_pixelValue set_countValue];
    rewrite (proj2 (selection_size _) Hsel); eauto.
Qed.


Lemma read_form_message s m :
  (read_form s).1 = inl m -> m = first_failed_check s.
Proof.
  unfold read_form, first_failed_check.
  destruct (Number_parseInt (countValue s)) as [n|]; [|intros [= <-]; reflexivity].
  destruct (n <=? 0)%Z; [intros [= <-]; reflexivity |].
  destruct (_ =? n)%Z; cbn [pixelValue set_countValue];
    (destruct (Number_parseInt (pixelValue s)) as [k|]; [|intros [= <-]; reflexivity]);
    (destruct (k <? MIN_PIXEL_SIZE)%Z; [intros [= <-]; reflexivity |]);
    destruct (_ =? k)%Z; destruct (size _ =? 0)%nat; intros [= <-]; reflexivity.
Qed.



(** *** The gate against a second submission *)

Lemma evolving_modify_quiet b (f : App -> App) :
  (forall s, frame (f s) = frame s) ->
  (forall s, suspended (f s) = suspended s) ->
  (forall s, cancelRequested (f s) = cancelRequested s) ->
  preserving (evolves b) (modify f).
Proof. intros Hf Hs Hc s. unfold modify. simpl. apply evolves_same; auto. Qed.

Lemma refreshCategoryPreviews_loop_evolves b gen entries :
  forall counter, preserving (evolves b) (refreshCategoryPreviews_loop b gen entries counter).
Proof.
  induction entries as [|[categoryId src] rest IH]; intros counter;
    cbn [refreshCategoryPreviews_loop].
  - step_through.
  - step_through. apply evolving_modify_quiet; reflexivity.
Qed.

Lemma refreshCategoryPreviews_evolves b : preserving (evolves b) (refreshCategoryPreviews b).
Proof.
  intros s. unfold refreshCategoryPreviews. destruct (generator s) as [gen|].
  - revert s. change (preserving (evolves b)
      (fun s => (refreshCategoryPreviews_loop b gen (previewImages s) 0;;
                 appendProgress MsgPreviewsRefreshed false) s)).
    intros s.
    apply (preserving_bind (evolves b) (evolves_trans b)
             (refreshCategoryPreviews_loop b gen (previewImages s) 0)).
    + apply refreshCategoryPreviews_loop_evolves.
    + intros ?. apply evolving_appendProgress.
  - apply evolves_refl.
Qed.

Lemma generation_evolves b gen categories perCategory pixelSize :
  preserving (evolves b) (generation b gen categories perCategory pixelSize).
Proof.
  unfold generation. step_through.
  - apply category_loop_evolves.
  - apply evolving_modify_quiet; reflexivity.
  - apply evolving_modify_quiet; reflexivity.
  - apply refreshCategoryPreviews_evolves.
Qed.

Lemma start_run_gated r s : gated (snapshot (start_run r s)).
Proof.
  unfold gated, start_run, snapshot. simpl. repeat split.
  apply Forall_forall. intros c Hc. apply list_elem_of_fmap in Hc as (c0 & -> & _). reflexivity.
Qed.

Lemma guarded_generation_log b gen categories perCategory pixelSize s :
  suspended (guarded_generation b gen categories perCategory pixelSize s).2 =
  suspended (generation b gen categories perCategory pixelSize s).2.
Proof.
  unfold guarded_generation.
  destruct (generation _ _ _ _ _ _) as [[o | e] s1]; reflexivity.
Qed.

(** Claim C4, amended.  A run starts with the generate button, both
    number fields and every category checkbox disabled and the cancel
    button enabled, and the page shows them disabled at every suspension of
    the run; the disabled controls are the gate against a second request,
    the listener itself checks nothing. *)
Theorem running_page_gates_submission b gen r s :
  let s0 := start_run r s in
  let final :=
    guarded_generation b gen (activeCategories r) (perCategory r) (pixelSize r) s0 in
  gated (snapshot s0) /\
  cancelButton (disabled s0) = false /\
  cancelRequested s0 = false /\
  exists new, suspended final.2 = suspended s ++ new /\ Forall gated new.
Proof.
  intros s0 final.
  split; [apply start_run_gated |]. split; [reflexivity |]. split; [reflexivity |].
  subst final. rewrite guarded_generation_log.
  destruct (generation_evolves b gen (activeCategories r) (perCategory r) (pixelSize r) s0)
    as [_ (new & Hlog & Hshows) _ _ _].
  exists new. split; [exact Hlog |].
  eapply Forall_impl; [exact Hshows |].
  intros shot (Hg & Hcb & Hgb & Hci & Hpi).
  destruct (start_run_gated r s) as (G1 & G2 & G3 & G4 & G5). fold s0 in G1, G2, G3, G4, G5.
  unfold gated. simpl in G1, G2, G3, G4, G5.
  rewrite Hg, Hcb, Hgb, Hci, Hpi. auto.
Qed.

(** Claim C4 fails as stated: the listener, run on a page in the middle of
    a run, rejects nothing; it runs to completion, triggers a download and
    resets the flags of the run in progress. *)
Lemma listener_has_no_busy_check :
  isGenerating busy_page = true /\
  cancelRequested busy_page = true /\
  (forall m, (submit quiet_browser busy_page).1 <> Rejected m) /\
  (exists zip, (submit quiet_browser busy_page).1 = Completed zip /\
               downloads (submit quiet_browser busy_page).2 = [zip]) /\
  isGenerating (submit quiet_browser busy_page).2 = false.
Proof.
  split; [reflexivity |]. split; [reflexivity |].
  split; [intros m Hm; vm_compute in Hm; discriminate |].
  split; [eexists; split; vm_compute; reflexivity | reflexivity].
Qed.

(** *** Naming *)

Lemma holds_from_spec test count :
  forall z, holds_from test z count = true ->
  forall k, (z <= k < z + Z.of_nat count)%Z -> test k = true.
Proof.
  induction count as [|count IH]; intros z Hall k Hk; [lia |].
  cbn [holds_from] in Hall. apply andb_true_iff in Hall as [Hz Hrest].
  destruct (Z.eq_dec k z) as [-> | Hne]; [exact Hz |].
  apply (IH (Z.succ z) Hrest). lia.
Qed.

Lemma padStart_zero_padded w z :
  holds_from (fun z => String.eqb (padStart (String_of_Z z) w "0") (zero_padded w z))
    1 (Z.to_nat (10 ^ Z.of_nat w - 1)) = true ->
  (1 <= z < 10 ^ Z.of_nat w)%Z ->
  padStart (String_of_Z z) w "0" = zero_padded w z.
Proof.
  intros Hall Hz. apply String.eqb_eq.
  apply (holds_from_spec _ _ 1 Hall z). lia.
Qed.

Lemma pad2_spec k :
  (k < 99)%nat -> padStart (String_of_nat (k + 1)) 2 "0" = zero_padded 2 (Z.of_nat (k + 1)).
Proof.
  intros Hk. apply padStart_zero_padded; [vm_compute; reflexivity |].
  change (10 ^ Z.of_nat 2)%Z with 100%Z. lia.
Qed.

Lemma pad4_spec n :
  (Z.of_nat n < 9999)%Z ->
  padStart (String_of_nat (n + 1)) 4 "0" = zero_padded 4 (Z.of_nat (n + 1)).
Proof.
  intros Hn. apply padStart_zero_padded; [vm_compute; reflexivity |].
  change (10 ^ Z.of_nat 4)%Z with 10000%Z. lia.
Qed.

Lemma folderNameOf_spec index c :
  (index < 99)%nat -> folderNameOf index c = spec_folder_name (index + 1) (key c).
Proof. intros H. unfold folderNameOf, spec_folder_name. rewrite pad2_spec by exact H. reflexivity. Qed.

Lemma fileNameOf_spec iconIndex :
  (Z.of_nat iconIndex < 9999)%Z -> fileNameOf iconIndex = spec_file_name (iconIndex + 1).
Proof. intros H. unfold fileNameOf, spec_file_name. rewrite pad4_spec by exact H. reflexivity. Qed.

Lemma generateIcon_ok p k size w :
  canvasReachable p = true -> (k < length SYMBOL_CATEGORIES)%nat ->
  exists url w', generateIcon p (categoryNumber k) size w = (Ok url, w').
Proof.
  intros Hc Hk. unfold generateIcon, categoryNumber.
  rewrite (createIconForCategory_valid (Q_of_nat k) k _ _ Hk (Qeq_refl _)).
  destruct (drawer_at_registered (Q_of_nat k) k Hk (Qeq_refl _))
    as (c & d & _ & _ & _ & -> & Hin).
  destruct (renderIcon_quiet d (default DEFAULT_CANVAS_SIZE size) p w
              (fun s => DRAWERS_quiet d Hin p s)) as (w' & Hr & _).
  rewrite Hc in Hr. eauto.
Qed.

Section Uninterrupted.
Context (b : Browser) (gen : P5).
Hypothesis reachable : canvasReachable gen = true.
Hypothesis unclicked : forall n, cancelClicked b n = false.
Hypothesis folders : forall name, folderCreated b name = true.

Lemma suspend_unclicked s : cancelRequested (suspend_state b s) = cancelRequested s.
Proof. unfold suspend_state, suspend. rewrite unclicked. reflexivity. Qed.

Lemma after_icon_unclicked category perCategory iconIndex s :
  cancelRequested (after_icon b category perCategory iconIndex s) = cancelRequested s.
Proof.
  unfold after_icon. destruct (_ || _); [|reflexivity].
  rewrite suspend_unclicked. reflexivity.
Qed.

Lemma icon_loop_paths category folderName perCategory pixelSize :
  (id category < length SYMBOL_CATEGORIES)%nat ->
  forall remaining iconIndex zip s,
    cancelRequested s = false ->
    (Z.of_nat (iconIndex + remaining) <= 9999)%Z ->
    exists zip' s',
      icon_loop b gen category folderName perCategory pixelSize remaining iconIndex zip s
        = (Ok zip', s') /\
      cancelRequested s' = false /\
      map path_of zip' =
        map path_of zip ++
        map (fun n => FilePath folderName (spec_file_name n)) (seq (S iconIndex) remaining).
Proof.
  intros Hid. induction remaining as [|remaining IH]; intros iconIndex zip s Hc Hb.
  - exists zip, s. simpl. rewrite app_nil_r. auto.
  - rewrite icon_loop_step, Hc.
    destruct (generateIcon_ok gen (id category) (Some (inject_Z pixelSize)) (world s)
                reachable Hid) as (url & w' & ->).
    destruct (IH (iconIndex + 1)%nat
                (folder_file folderName (fileNameOf iconIndex) (image url) zip)
                (after_icon b category perCategory iconIndex (set_world w' s)))
      as (zip' & s' & Hr & Hc' & Hp).
    { rewrite after_icon_unclicked. exact Hc. }
    { lia. }
    exists zip', s'. split; [exact Hr |]. split; [exact Hc' |].
    rewrite Hp. unfold folder_file. rewrite map_app. cbn [map path_of seq].
    rewrite fileNameOf_spec by lia. rewrite <- app_assoc.
    replace (iconIndex + 1)%nat with (S iconIndex) by lia. reflexivity.
Qed.

Lemma category_loop_paths total perCategory pixelSize categories :
  Forall (fun c => (id c < length SYMBOL_CATEGORIES)%nat) categories ->
  (perCategory <= 9999)%Z ->
  forall index zip s,
    cancelRequested s = false ->
    (index + length categories <= 99)%nat ->
    exists zip' s',
      category_loop b gen total perCategory pixelSize index categories zip s
        = (Ok zip', s') /\
      cancelRequested s' = false /\
      map path_of zip' =
        map path_of zip ++ spec_layout (S index) categories (Z.to_nat perCategory).
Proof.
  intros Hids Hcount. induction Hids as [|category rest Hid _ IH]; intros index zip s Hc Hb.
  - exists zip, s. simpl. rewrite app_nil_r. auto.
  - rewrite category_loop_step, Hc. cbn zeta. rewrite folders.
    cbn [length] in Hb.
    destruct (icon_loop_paths category (folderNameOf index category) perCategory pixelSize
                Hid (Z.to_nat perCategory) 0
                (zip_folder (folderNameOf index category) zip)
                (appendProgress (MsgCategory (label category) (index + 1) total) false s).2)
      as (zip1 & s1 & -> & Hc1 & Hp1); [exact Hc | lia |].
    destruct (IH (index + 1)%nat zip1 s1 Hc1) as (zip2 & s2 & Hr & Hc2 & Hp2); [lia |].
    exists zip2, s2. split; [exact Hr |]. split; [exact Hc2 |].
    rewrite Hp2, Hp1. unfold zip_folder. rewrite map_app. cbn [map path_of spec_layout].
    rewrite folderNameOf_spec by lia.
    replace (index + 1)%nat with (S index) by lia.
    rewrite <- !app_assoc. reflexivity.
Qed.
End Uninterrupted.

Lemma keeping_modify (f : App -> App) :
  (forall s, compressed (f s) = compressed s) ->
  (forall s, downloads (f s) = downloads s) ->
  preserving archive_kept (modify f).
Proof. intros Hc Hd s. split; [apply Hc | apply Hd]. Qed.

Lemma refreshCategoryPreviews_loop_keeps b gen entries :
  forall counter,
    preserving archive_kept (refreshCategoryPreviews_loop b gen entries counter).
Proof.
  induction entries as [|[categoryId src] rest IH]; intros counter;
    cbn [refreshCategoryPreviews_loop].
  - step_through.
  - step_through. apply keeping_modify; reflexivity.
Qed.

Lemma refreshCategoryPreviews_keeps b : preserving archive_kept (refreshCategoryPreviews b).
Proof.
  intros s. unfold refreshCategoryPreviews. destruct (generator s) as [gen|].
  - apply (preserving_bind archive_kept archive_kept_trans
             (refreshCategoryPreviews_loop b gen (previewImages s) 0)).
    + apply refreshCategoryPreviews_loop_keeps.
    + intros ?. apply keeping_appendProgress.
  - apply archive_kept_refl.
Qed.

(** Once the loops are through and no cancellation is pending, the archive
    is compressed and handed to the downloader. *)
Lemma guarded_generation_downloads b gen categories perCategory pixelSize s zip s1 :
  category_loop b gen (length categories) perCategory pixelSize 0 categories [] s
    = (Ok zip, s1) ->
  cancelRequested s1 = false ->
  let final := guarded_generation b gen categories perCategory pixelSize s in
  compressed final.2 = compressed s1 ++ [zip] /\
  downloads final.2 = downloads s1 ++ [zip] /\
  (final.1 = Completed zip \/ exists e, final.1 = Failed e).
Proof.
  intros Hl Hc final. assert (Hf : final = final) by reflexivity.
  unfold final at 2 in Hf. clearbody final. unfold guarded_generation in Hf.
  rewrite generation_after_loops, Hl, Hc in Hf.
  unfold mbind at 1, H_bind at 1, appendProgress at 1, modify at 1 in Hf.
  unfold mbind at 1, H_bind at 1, modify at 1 in Hf.
  unfold mbind at 1, H_bind at 1 in Hf. rewrite suspend_ok in Hf.
  unfold mbind at 1, H_bind at 1, modify at 1 in Hf.
  unfold mbind at 1, H_bind at 1, appendProgress at 1, modify at 1 in Hf.
  unfold mbind at 1, H_bind at 1 in Hf.
  match type of Hf with
  | context [refreshCategoryPreviews b ?s0] =>
      pose proof (refreshCategoryPreviews_keeps b s0) as [Hk1 Hk2];
      pose proof (keeping_suspend b
        (set_compressed (compressed (set_progress (progress s1 ++ [MsgCompressing]) s1) ++ [zip])
           (set_progress (progress s1 ++ [MsgCompressing]) s1))) as [Hs1 Hs2];
      destruct (refreshCategoryPreviews b s0) as [[u | e] s2]
  end; subst final; simpl in *; unfold suspend_state in *;
    (split; [congruence |]); (split; [congruence |]); eauto.
Qed.

Lemma read_form_request s r :
  (read_form s).1 = inr r ->
  activeCategories r =
    filter (fun category => id category ∈ selectedCategories s) SYMBOL_CATEGORIES /\
  (1 <= perCategory r <= MAX_PER_CATEGORY)%Z /\
  (MIN_PIXEL_SIZE <= pixelSize r <= MAX_PIXEL_SIZE)%Z.
Proof.
  unfold read_form, MAX_PER_CATEGORY, MIN_PIXEL_SIZE, MAX_PIXEL_SIZE.
  destruct (Number_parseInt (countValue s)) as [n|]; [|discriminate].
  destruct (n <=? 0)%Z eqn:Hn; [discriminate |]. apply Z.leb_gt in Hn.
  destruct (_ =? n)%Z;
    (destruct (Number_parseInt _) as [m|]; [|discriminate]);
    (destruct (m <? 8)%Z eqn:Hm; [discriminate |]); apply Z.ltb_ge in Hm;
    destruct (_ =? m)%Z; (destruct (size _ =? 0)%nat; [discriminate |]);
    simpl; intros [= <-]; simpl; repeat split; lia.
Qed.

Lemma active_categories_valid (X : gset nat) :
  Forall (fun c => (id c < length SYMBOL_CATEGORIES)%nat)
    (filter (fun category => id category ∈ X) SYMBOL_CATEGORIES).
Proof.
  apply Forall_forall. intros c Hc. apply list_elem_of_filter in Hc as [_ Hc].
  revert c Hc. apply Forall_forall. repeat constructor.
Qed.

(** Claim C8.  The folder of the k-th active category is named with [k]
    on two digits, an underscore and the slugified key, and the n-th file
    with [n] on four digits and ".png"; an uninterrupted run builds, for
    the active categories in order, exactly the layout of these names and
    hands it to the downloader. *)
Theorem folder_and_file_naming b gen s r :
  canvasReachable gen = true ->
  (forall n, cancelClicked b n = false) ->
  (forall name, folderCreated b name = true) ->
  (read_form s).1 = inr r ->
  let s0 := start_run r (read_form s).2 in
  let final :=
    guarded_generation b gen (activeCategories r) (perCategory r) (pixelSize r) s0 in
  (forall k c, (1 <= k <= 99)%nat -> folderNameOf (k - 1) c = spec_folder_name k (key c)) /\
  (forall n, (1 <= Z.of_nat n <= 9999)%Z -> fileNameOf (n - 1) = spec_file_name n) /\
  folderNameOf 2 {| id := 4; key := "hospital"; label := "byoin" |} = "03_hospital" /\
  fileNameOf 6 = "0007.png" /\
  activeCategories r =
    filter (fun category => id category ∈ selectedCategories s) SYMBOL_CATEGORIES /\
  exists zip,
    map path_of zip = spec_layout 1 (activeCategories r) (Z.to_nat (perCategory r)) /\
    downloads final.2 = downloads s ++ [zip].
Proof.
  intros Hreach Hquiet Hfolders Hr s0 final.
  split.
  { intros k c Hk. rewrite folderNameOf_spec by lia.
    replace (k - 1 + 1)%nat with k by lia. reflexivity. }
  split.
  { intros n Hn. rewrite fileNameOf_spec by lia.
    replace (n - 1 + 1)%nat with n by lia. reflexivity. }
  split; [reflexivity |]. split; [reflexivity |].
  destruct (read_form_request s r Hr) as (Hact & Hcount & _).
  split; [exact Hact |].
  unfold MAX_PER_CATEGORY in Hcount.
  assert (Hids : Forall (fun c => (id c < length SYMBOL_CATEGORIES)%nat) (activeCategories r))
    by (rewrite Hact; apply active_categories_valid).
  assert (Hlen : (length (activeCategories r) <= 10)%nat)
    by (rewrite Hact; apply (length_filter _ SYMBOL_CATEGORIES)).
  destruct (category_loop_paths b gen Hreach Hquiet Hfolders
              (length (activeCategories r)) (perCategory r) (pixelSize r)
              (activeCategories r) Hids ltac:(lia) 0%nat [] s0 eq_refl ltac:(simpl; lia))
    as (zip & s1 & Hl & Hc & Hp).
  exists zip. split; [exact Hp |].
  destruct (guarded_generation_downloads b gen _ _ _ _ _ _ Hl Hc) as (_ & Hd & _).
  fold final in Hd. rewrite Hd.
  destruct (category_loop_keeps b gen (length (activeCategories r)) (perCategory r)
              (pixelSize r) (activeCategories r) 0 [] s0) as [_ Hk].
  rewrite Hl in Hk. simpl in Hk. rewrite Hk. subst s0.
  pose proof (read_form_run_state s) as Hrs. unfold run_state in Hrs.
  injection Hrs as _ _ _ _ _ _ _ _ _ _ _ Hdl. simpl. rewrite Hdl. reflexivity.
Qed.

(** *** The canvas *)

(** Claim C10.  For a valid id the canvas is a square of side
    [max 8 (floor size)]: a size below 8 gives 8, a size from 8 on gives its
    floor, and a size beyond [MAX_PIXEL_SIZE] gives a canvas beyond it, as
    nothing at this layer bounds the side from above; the bound of 512 is
    that of a request read from the form. *)
Theorem canvas_side_is_max_8_floor p categoryId size w :
  valid_id categoryId ->
  let side := Z.max 8 (Qfloor size) in
  (exists w',
     createIconForCategory categoryId size p w =
       (if canvasReachable p then Ok {| mime := "image/png"; image := g w' |}
        else Throw CanvasUnavailable, w') /\
     width (g w') = side /\ height (g w') = side) /\
  (size < 8 -> side = 8%Z)%Q /\
  (8 <= size -> side = Qfloor size)%Q /\
  (inject_Z MAX_PIXEL_SIZE + 1 <= size -> (MAX_PIXEL_SIZE < side)%Z)%Q /\
  (forall s r, (read_form s).1 = inr r -> (pixelSize r <= MAX_PIXEL_SIZE)%Z).
Proof.
  intros (k & Hk & Hq) side. destruct categoryId as [q| |neg]; try contradiction.
  split; [|split; [|split; [|split]]].
  - rewrite (createIconForCategory_valid q k _ _ Hk Hq).
    destruct (drawer_at_registered q k Hk Hq) as (c & d & _ & _ & _ & -> & Hin).
    destruct (renderIcon_quiet d size p w (fun s => DRAWERS_quiet d Hin p s))
      as (w' & Hr & Hw & Hh & _).
    exists w'. auto.
  - intros Hs. subst side.
    assert (Qfloor size < 8)%Z; [|lia].
    rewrite Zlt_Qlt. eapply Qle_lt_trans; [apply Qfloor_le | exact Hs].
  - intros Hs. subst side.
    assert (8 <= Qfloor size)%Z; [|lia].
    change 8%Z with (Qfloor (inject_Z 8)). apply Qfloor_resp_le. exact Hs.
  - intros Hs. subst side.
    assert (MAX_PIXEL_SIZE + 1 <= Qfloor size)%Z; [|lia].
    rewrite <- (Qfloor_Z (MAX_PIXEL_SIZE + 1)). apply Qfloor_resp_le.
    rewrite inject_Z_plus. exact Hs.
  - intros s r Hr. apply (read_form_request s r Hr).
Qed.

(** C10 at the sizes 100000 and 7/2. *)
Lemma canvas_side_is_max_8_floor_witness :
  valid_id (Finite 0) /\
  (exists w',
     createIconForCategory (Finite 0) 100000 p_half initialWorld =
       (Ok {| mime := "image/png"; image := g w' |}, w') /\
     width (g w') = 100000%Z /\ height (g w') = 100000%Z) /\
  (exists w',
     createIconForCategory (Finite 0) (7 # 2) p_half initialWorld =
       (Ok {| mime := "image/png"; image := g w' |}, w') /\
     width (g w') = 8%Z /\ height (g w') = 8%Z).
Proof.
  assert (Hv : valid_id (Finite 0))
    by (exists 0%nat; split; [simpl; lia | reflexivity]).
  split; [exact Hv |]. split.
  - exact (proj1 (canvas_side_is_max_8_floor p_half (Finite 0) 100000 initialWorld Hv)).
  - exact (proj1 (canvas_side_is_max_8_floor p_half (Finite 0) (7 # 2) initialWorld Hv)).
Defined.

(** *** Scenarios *)

(** C2 on three categories of a hundred icons, cancelled at the end of
    the first category. *)
Lemma cancel_click_ends_run_cancelled_witness :
  let r := request_of three_by_hundred in
  let s := start_run r (read_form three_by_hundred).2 in
  let final :=
    guarded_generation cancelling_browser p_half (activeCategories r)
      (perCategory r) (pixelSize r) s in
  isGenerating s = true /\
  length (activeCategories r) = 3%nat /\ perCategory r = 100%Z /\
  exists zip,
    final.1 = Cancelled zip /\
    map path_of zip = spec_layout 1 (take 1 (activeCategories r)) 100 /\
    downloads final.2 = [] /\ compressed final.2 = [] /\
    isGenerating final.2 = false /\ cancelRequested final.2 = false.
Proof.
  intros r s final.
  assert (Hg : isGenerating s = true) by (vm_compute; reflexivity).
  split; [exact Hg |].
  split; [vm_compute; reflexivity |]. split; [vm_compute; reflexivity |].
  destruct (cancel_click_ends_run_cancelled cancelling_browser p_half (activeCategories r)
              (perCategory r) (pixelSize r) s Hg)
    as (_ & _ & zip & Hl & _ & Ho & _ & Hc & Hd & Hi & Hr & _).
  { right. exists 3%nat. vm_compute. repeat split; lia. }
  exists zip. split; [exact Ho |].
  split.
  { apply (f_equal (fun o => match o with Ok z => map path_of z | Throw _ => [] end)) in Hl.
    rewrite <- Hl. vm_compute. reflexivity. }
  split; [exact Hd |]. split; [exact Hc |]. split; assumption.
Defined.


(** C8 on the third to fifth category with seven icons each: the last
    file of the archive is the seventh icon of the hospital folder. *)
Lemma folder_and_file_naming_witness :
  let r := request_of three_by_seven in
  let s0 := start_run r (read_form three_by_seven).2 in
  let final :=
    guarded_generation quiet_browser p_half (activeCategories r) (perCategory r)
      (pixelSize r) s0 in
  canvasReachable p_half = true /\
  (read_form three_by_seven).1 = inr r /\
  exists zip,
    map path_of zip = spec_layout 1 (activeCategories r) 7 /\
    last (map path_of zip) = Some (FilePath "03_hospital" "0007.png") /\
    downloads final.2 = [zip].
Proof.
  intros r s0 final.
  assert (Hr : (read_form three_by_seven).1 = inr r) by (vm_compute; reflexivity).
  split; [reflexivity |]. split; [exact Hr |].
  destruct (folder_and_file_naming quiet_browser p_half three_by_seven r eq_refl
              (fun _ => eq_refl) (fun _ => eq_refl) Hr)
    as (_ & _ & _ & _ & _ & zip & Hp & Hd).
  exists zip. split; [exact Hp |]. split; [rewrite Hp; vm_compute; reflexivity | exact Hd].
Defined.

(** *** Slugs *)

Lemma every_char_app test s1 s2 :
  every_char test (s1 +:+ s2) = every_char test s1 && every_char test s2.
Proof.
  induction s1 as [|c s1 IH]; simpl; [reflexivity|].
  rewrite IH, andb_assoc. reflexivity.
Qed.

Lemma every_char_rev_app test s : forall t,
  every_char test (String.rev_app s t) = every_char test s && every_char test t.
Proof.
  induction s as [|c s IH]; intros t; simpl; [reflexivity|].
  rewrite IH. simpl. rewrite !andb_assoc, (andb_comm (test c)). reflexivity.
Qed.

Lemma every_char_rev test s : every_char test (String.rev s) = every_char test s.
Proof. unfold String.rev. rewrite every_char_rev_app. simpl. apply andb_true_r. Qed.

Lemma every_char_impl (test1 test2 : ascii -> bool) s :
  (forall c, test1 c = true -> test2 c = true) ->
  every_char test1 s = true -> every_char test2 s = true.
Proof.
  intros Himp. induction s as [|c s IH]; simpl; [reflexivity|].
  intros [Hc Hs]%andb_true_iff. rewrite (Himp c Hc), (IH Hs). reflexivity.
Qed.

Lemma every_char_trimStart test s :
  every_char test s = true -> every_char test (trimStart s) = true.
Proof.
  induction s as [|c s IH]; simpl; [reflexivity|].
  intros [Hc Hs]%andb_true_iff. destruct (is_space c); [auto|].
  simpl. rewrite Hc, Hs. reflexivity.
Qed.

Lemma every_char_trim test s : every_char test s = true -> every_char test (trim s) = true.
Proof.
  intros Hs. unfold trim. rewrite every_char_rev. apply every_char_trimStart.
  rewrite every_char_rev. apply every_char_trimStart, Hs.
Qed.

Lemma every_char_strip_symbols s :
  every_char (fun c => is_word c || is_space c || is_hyphen c) (strip_symbols s) = true.
Proof.
  induction s as [|c s IH]; simpl; [reflexivity|].
  destruct (is_word c || is_space c || is_hyphen c) eqn:Hc; [|exact IH].
  simpl. rewrite Hc, IH. reflexivity.
Qed.

Lemma every_char_hyphenate s : forall in_run,
  every_char (fun c => is_word c || is_space c || is_hyphen c) s = true ->
  every_char (fun c => is_word c || is_hyphen c) (hyphenate_from in_run s) = true.
Proof.
  induction s as [|c s IH]; intros in_run; simpl; [reflexivity|].
  intros [Hc Hs]%andb_true_iff. destruct (is_space c) eqn:Hsp.
  - destruct in_run; simpl; auto.
  - simpl. rewrite orb_false_r in Hc. rewrite Hc. simpl. auto.
Qed.

Lemma toLowerCase_ascii_slug c :
  is_word c || is_hyphen c = true -> is_slug_char (toLowerCase_ascii c) = true.
Proof.
  destruct c as [[] [] [] [] [] [] [] []]; vm_compute; intros H; congruence.
Qed.

Lemma every_char_toLowerCase s :
  every_char (fun c => is_word c || is_hyphen c) s = true ->
  every_char is_slug_char (toLowerCase s) = true.
Proof.
  induction s as [|c s IH]; simpl; [reflexivity|].
  intros [Hc Hs]%andb_true_iff. rewrite (toLowerCase_ascii_slug c Hc), (IH Hs). reflexivity.
Qed.

(** Extra X6.  Whatever its argument, [slugify] returns a string of lower-case
    letters, digits, underscores and hyphens only. *)
Theorem slugify_alphabet value : every_char is_slug_char (slugify value) = true.
Proof.
  unfold slugify, hyphenate_spaces.
  apply every_char_toLowerCase, every_char_hyphenate, every_char_trim,
    every_char_strip_symbols.
Qed.

Lemma is_slug_char_kept c :
  is_slug_char c = true ->
  is_word c || is_space c || is_hyphen c = true /\ is_space c = false /\
  toLowerCase_ascii c = c.
Proof.
  destruct c as [[] [] [] [] [] [] [] []]; vm_compute; intros H;
    repeat split; congruence.
Qed.

Lemma strip_symbols_slug s : every_char is_slug_char s = true -> strip_symbols s = s.
Proof.
  induction s as [|c s IH]; simpl; [reflexivity|].
  intros [Hc Hs]%andb_true_iff. destruct (is_slug_char_kept c Hc) as (-> & _ & _).
  rewrite (IH Hs). reflexivity.
Qed.

Lemma trimStart_slug s : every_char is_slug_char s = true -> trimStart s = s.
Proof.
  destruct s as [|c s]; simpl; [reflexivity|].
  intros [Hc Hs]%andb_true_iff. destruct (is_slug_char_kept c Hc) as (_ & -> & _).
  reflexivity.
Qed.

Lemma string_rev_app_twice s : forall t u,
  String.rev_app (String.rev_app s t) u = String.rev_app t (s +:+ u).
Proof.
  induction s as [|c s IH]; intros t u; simpl; [reflexivity|].
  rewrite IH. reflexivity.
Qed.

Lemma string_app_empty s : s +:+ "" = s.
Proof.
  induction s as [|c s IH]; [reflexivity|].
  change (String c (s +:+ "") = String c s). rewrite IH. reflexivity.
Qed.

Lemma string_rev_involutive s : String.rev (String.rev s) = s.
Proof.
  unfold String.rev. rewrite string_rev_app_twice. simpl. apply string_app_empty.
Qed.

Lemma trim_slug s : every_char is_slug_char s = true -> trim s = s.
Proof.
  intros Hs. unfold trim. rewrite (trimStart_slug s Hs).
  rewrite trimStart_slug by (rewrite every_char_rev; exact Hs).
  apply string_rev_involutive.
Qed.

Lemma hyphenate_slug s : forall in_run,
  every_char is_slug_char s = true -> hyphenate_from in_run s = s.
Proof.
  induction s as [|c s IH]; intros in_run; simpl; [reflexivity|].
  intros [Hc Hs]%andb_true_iff. destruct (is_slug_char_kept c Hc) as (_ & -> & _).
  rewrite (IH false Hs). reflexivity.
Qed.

Lemma toLowerCase_slug s : every_char is_slug_char s = true -> toLowerCase s = s.
Proof.
  induction s as [|c s IH]; simpl; [reflexivity|].
  intros [Hc Hs]%andb_true_iff. destruct (is_slug_char_kept c Hc) as (_ & _ & ->).
  rewrite (IH Hs). reflexivity.
Qed.

Lemma slugify_slug s : every_char is_slug_char s = true -> slugify s = s.
Proof.
  intros Hs. unfold slugify, hyphenate_spaces.
  rewrite (strip_symbols_slug s Hs), (trim_slug s Hs), (hyphenate_slug s false Hs).
  apply toLowerCase_slug, Hs.
Qed.

(** Extra X7.  [slugify] is idempotent: a slug is its own slug. *)
Theorem slugify_idempotent value : slugify (slugify value) = slugify value.
Proof.
  apply slugify_slug. unfold slugify, hyphenate_spaces.
  apply every_char_toLowerCase, every_char_hyphenate, every_char_trim,
    every_char_strip_symbols.
Qed.

(** *** Reading the form twice *)

Lemma parseInt_upper_bounds :
  Number_parseInt (String_of_Z MAX_PER_CATEGORY) = Some MAX_PER_CATEGORY /\
  Number_parseInt (String_of_Z MAX_PIXEL_SIZE) = Some MAX_PIXEL_SIZE.
Proof. split; vm_compute; reflexivity. Qed.

Lemma count_clamped_fields n s :
  (0 < n)%Z ->
  Number_parseInt (countValue s) = Some n ->
  Number_parseInt (countValue (count_clamped n s))
    = Some (Z.min MAX_PER_CATEGORY (Z.max 1 n)) /\
  pixelValue (count_clamped n s) = pixelValue s /\
  selectedCategories (count_clamped n s) = selectedCategories s.
Proof.
  intros Hpos Hn. unfold count_clamped.
  destruct (_ =? n)%Z eqn:Hc.
  - apply Z.eqb_eq in Hc. rewrite Hc. auto.
  - apply Z.eqb_neq in Hc. cbn [countValue pixelValue selectedCategories set_countValue].
    replace (Z.min MAX_PER_CATEGORY (Z.max 1 n)) with MAX_PER_CATEGORY
      by (unfold MAX_PER_CATEGORY in *; lia).
    split; [apply parseInt_upper_bounds|auto].
Qed.

Lemma pixel_clamped_fields m s :
  (MIN_PIXEL_SIZE <= m)%Z ->
  Number_parseInt (pixelValue s) = Some m ->
  Number_parseInt (pixelValue (pixel_clamped m s))
    = Some (Z.min MAX_PIXEL_SIZE (Z.max MIN_PIXEL_SIZE m)) /\
  countValue (pixel_clamped m s) = countValue s /\
  selectedCategories (pixel_clamped m s) = selectedCategories s.
Proof.
  intros Hmin Hm. unfold pixel_clamped.
  destruct (_ =? m)%Z eqn:Hc.
  - apply Z.eqb_eq in Hc. rewrite Hc. auto.
  - apply Z.eqb_neq in Hc. cbn [countValue pixelValue selectedCategories set_pixelValue].
    replace (Z.min MAX_PIXEL_SIZE (Z.max MIN_PIXEL_SIZE m)) with MAX_PIXEL_SIZE
      by (unfold MAX_PIXEL_SIZE, MIN_PIXEL_SIZE in *; lia).
    split; [apply parseInt_upper_bounds|auto].
Qed.

Lemma read_form_unfold s :
  read_form s =
  match Number_parseInt (countValue s) with
  | None => (inl MsgCountInvalid, s)
  | Some n =>
      if (n <=? 0)%Z then (inl MsgCountInvalid, s)
      else
        match Number_parseInt (pixelValue (count_clamped n s)) with
        | None => (inl MsgPixelInvalid, count_clamped n s)
        | Some m =>
            if (m <? MIN_PIXEL_SIZE)%Z then (inl MsgPixelInvalid, count_clamped n s)
            else
              let s2 := pixel_clamped m (count_clamped n s) in
              if (size (selectedCategories s2) =? 0)%nat then (inl MsgNoCategory, s2)
              else
                (inr {| perCategory := Z.min MAX_PER_CATEGORY (Z.max 1 n);
                        pixelSize := Z.min MAX_PIXEL_SIZE (Z.max MIN_PIXEL_SIZE m);
                        activeCategories :=
                          filter (fun category => id category ∈ selectedCategories s2)
                            SYMBOL_CATEGORIES |}, s2)
        end
  end.
Proof. reflexivity. Qed.

Lemma clamp_fixed lo hi n : (lo <= hi)%Z ->
  Z.min hi (Z.max lo (Z.min hi (Z.max lo n))) = Z.min hi (Z.max lo n).
Proof. lia. Qed.

(** Extra X8.  Reading the form is idempotent: read again right after a reading, the
    form gives the same verdict or request and no field is rewritten a
    second time. *)
Theorem read_form_idempotent s : read_form (read_form s).2 = read_form s.
Proof.
  rewrite (read_form_unfold s).
  destruct (Number_parseInt (countValue s)) as [n|] eqn:Hn;
    [|cbn [snd]; rewrite read_form_unfold, Hn; reflexivity].
  destruct (n <=? 0)%Z eqn:Hn0;
    [cbn [snd]; rewrite read_form_unfold, Hn, Hn0; reflexivity|].
  pose proof Hn0 as Hpos. apply Z.leb_gt in Hpos.
  destruct (count_clamped_fields n s Hpos Hn) as (Hn1 & Hp1 & Hs1).
  set (s1 := count_clamped n s) in *.
  assert (Hper : (Z.min MAX_PER_CATEGORY (Z.max 1 n) <=? 0)%Z = false)
    by (apply Z.leb_gt; unfold MAX_PER_CATEGORY; lia).
  assert (Hs11 : count_clamped (Z.min MAX_PER_CATEGORY (Z.max 1 n)) s1 = s1).
  { unfold count_clamped at 1. rewrite clamp_fixed by (unfold MAX_PER_CATEGORY; lia).
    rewrite Z.eqb_refl. reflexivity. }
  destruct (Number_parseInt (pixelValue s1)) as [m|] eqn:Hm.
  2: { cbn [snd]. rewrite read_form_unfold, Hn1, Hper, Hs11, Hm. reflexivity. }
  destruct (m <? MIN_PIXEL_SIZE)%Z eqn:Hm0.
  { cbn [snd]. rewrite read_form_unfold, Hn1, Hper, Hs11, Hm, Hm0. reflexivity. }
  pose proof Hm0 as Hmin. apply Z.ltb_ge in Hmin.
  destruct (pixel_clamped_fields m s1 Hmin Hm) as (Hm2 & Hc2 & Hs2).
  set (s2 := pixel_clamped m s1) in *.
  assert (Hpx : (Z.min MAX_PIXEL_SIZE (Z.max MIN_PIXEL_SIZE m) <? MIN_PIXEL_SIZE)%Z = false)
    by (apply Z.ltb_ge; unfold MAX_PIXEL_SIZE, MIN_PIXEL_SIZE; lia).
  assert (Hs21 : count_clamped (Z.min MAX_PER_CATEGORY (Z.max 1 n)) s2 = s2).
  { unfold count_clamped at 1. rewrite clamp_fixed by (unfold MAX_PER_CATEGORY; lia).
    rewrite Z.eqb_refl. reflexivity. }
  assert (Hs22 : pixel_clamped (Z.min MAX_PIXEL_SIZE (Z.max MIN_PIXEL_SIZE m)) s2 = s2).
  { unfold pixel_clamped at 1.
    rewrite clamp_fixed by (unfold MAX_PIXEL_SIZE, MIN_PIXEL_SIZE; lia).
    rewrite Z.eqb_refl. reflexivity. }
  assert (Hagain :
    read_form s2 =
      (let s3 := s2 in
       if (size (selectedCategories s3) =? 0)%nat then (inl MsgNoCategory, s3)
       else
         (inr {| perCategory := Z.min MAX_PER_CATEGORY (Z.max 1 n);
                 pixelSize := Z.min MAX_PIXEL_SIZE (Z.max MIN_PIXEL_SIZE m);
                 activeCategories :=
                   filter (fun category => id category ∈ selectedCategories s3)
                     SYMBOL_CATEGORIES |}, s3))).
  { rewrite read_form_unfold, Hc2, Hn1, Hper, Hs21, Hm2, Hpx, Hs22.
    rewrite !clamp_fixed by (unfold MAX_PER_CATEGORY, MAX_PIXEL_SIZE, MIN_PIXEL_SIZE; lia).
    reflexivity. }
  cbv zeta in *.
  destruct (size (selectedCategories s2) =? 0)%nat eqn:Hsel; cbn [snd]; exact Hagain.
Qed.

(** *** The finally block *)

Lemma finally_block_fields s :
  let s' := (finally_block s).2 in
  isGenerating s' = false /\ cancelRequested s' = false /\
  disabled s' =
    {| generateButton := false; cancelButton := true; countInput := false;
       pixelInput := false; refreshButton := negb (initialized s) |} /\
  checkboxes s' = map (fun c => (c.1, false)) (checkboxes s) /\
  initialized s' = initialized s /\ progress s' = progress s /\
  compressed s' = compressed s /\ downloads s' = downloads s /\
  suspended s' = suspended s /\ world s' = world s /\
  selectedCategories s' = selectedCategories s /\ previewImages s' = previewImages s.
Proof. destruct s. cbn. repeat split; reflexivity. Qed.

Lemma guarded_generation_final b gen categories perCategory pixelSize s :
  exists s1,
    (guarded_generation b gen categories perCategory pixelSize s).2 = (finally_block s1).2 /\
    checkboxes s1 = checkboxes s.
Proof.
  unfold guarded_generation.
  pose proof (generation_evolves b gen categories perCategory pixelSize s) as Hev.
  destruct (generation b gen categories perCategory pixelSize s) as [[o|e] s1] eqn:Hg;
    cbn [snd] in *.
  - exists s1. split; [reflexivity|]. pose proof (ev_frame _ _ _ Hev) as Hf.
    unfold frame in Hf. congruence.
  - eexists. split; [reflexivity|]. pose proof (ev_frame _ _ _ Hev) as Hf.
    unfold frame in Hf. destruct s1; cbn in *. congruence.
Qed.

(** Extra X9.  The [finally] block: however the run ends (completed, cancelled or
    failed, whatever the browser does), the page is left not generating,
    with no cancellation pending, the generate button and both inputs
    enabled, the cancel button disabled, the refresh button enabled once
    the page is initialised, and every checkbox of the page still there and
    enabled. *)
Theorem run_always_ends_ready b gen categories perCategory pixelSize s :
  let final := (guarded_generation b gen categories perCategory pixelSize s).2 in
  isGenerating final = false /\
  cancelRequested final = false /\
  disabled final =
    {| generateButton := false; cancelButton := true; countInput := false;
       pixelInput := false; refreshButton := negb (initialized final) |} /\
  checkboxes final = map (fun c => (c.1, false)) (checkboxes s).
Proof.
  destruct (guarded_generation_final b gen categories perCategory pixelSize s)
    as (s1 & Hfinal & Hboxes).
  cbv zeta. rewrite Hfinal.
  destruct (finally_block_fields s1) as (H1 & H2 & H3 & H4 & H5 & _).
  rewrite H5, <- Hboxes. auto.
Qed.

(** *** Failed runs *)

Lemma generateIcon_registered p k size w :
  (k < length SYMBOL_CATEGORIES)%nat ->
  exists w',
    generateIcon p (categoryNumber k) size w =
      (if canvasReachable p then Ok {| mime := "image/png"; image := g w' |}
       else Throw CanvasUnavailable, w') /\
    width (g w') = Z.max 8 (Qfloor (default DEFAULT_CANVAS_SIZE size)) /\
    height (g w') = Z.max 8 (Qfloor (default DEFAULT_CANVAS_SIZE size)) /\
    currentScale w' = 1%Q /\
    generatorPromise w' = generatorPromise w /\ p5Instances w' = p5Instances w.
Proof.
  intros Hk. unfold generateIcon, categoryNumber.
  rewrite (createIconForCategory_valid (Q_of_nat k) k _ _ Hk (Qeq_refl _)).
  destruct (drawer_at_registered (Q_of_nat k) k Hk (Qeq_refl _))
    as (c & d & _ & _ & _ & -> & Hin).
  destruct (renderIcon_quiet d (default DEFAULT_CANVAS_SIZE size) p w
              (fun s => DRAWERS_quiet d Hin p s)) as (w' & Hr & Hw & Hh & Hs & Hp & Hi).
  exists w'. auto 10.
Qed.

Lemma icon_loop_throw_cause b gen category folderName perCategory pixelSize remaining :
  (id category < length SYMBOL_CATEGORIES)%nat ->
  forall iconIndex zip s e s',
    icon_loop b gen category folderName perCategory pixelSize remaining iconIndex zip s
      = (Throw e, s') ->
    e = CanvasUnavailable /\ canvasReachable gen = false.
Proof.
  intros Hid. induction remaining as [|remaining IH]; intros iconIndex zip s e s' Hrun.
  - discriminate Hrun.
  - rewrite icon_loop_step in Hrun. destruct (cancelRequested s); [discriminate|].
    destruct (generateIcon_registered gen (id category) (Some (inject_Z pixelSize))
                (world s) Hid) as (w' & Hg & _).
    rewrite Hg in Hrun. destruct (canvasReachable gen).
    + eapply IH, Hrun.
    + injection Hrun as <- _. auto.
Qed.

Lemma category_loop_throw_cause b gen total perCategory pixelSize categories :
  Forall (fun c => (id c < length SYMBOL_CATEGORIES)%nat) categories ->
  forall index zip s e s',
    category_loop b gen total perCategory pixelSize index categories zip s = (Throw e, s') ->
    (e = CanvasUnavailable /\ canvasReachable gen = false) \/
    (exists i c,
       categories !! i = Some c /\
       e = ZipFolderFailed (folderNameOf (index + i) c) /\
       folderCreated b (folderNameOf (index + i) c) = false).
Proof.
  intros Hids. induction Hids as [|category rest Hid _ IH]; intros index zip s e s' Hrun.
  - discriminate Hrun.
  - rewrite category_loop_step in Hrun. destruct (cancelRequested s); [discriminate|].
    cbn zeta in Hrun.
    destruct (folderCreated b (folderNameOf index category)) eqn:Hfolder.
    + destruct (icon_loop _ _ _ _ _ _ _ _ _ _) as [[zip'|e'] s2] eqn:Hicons.
      * destruct (IH _ _ _ _ _ Hrun) as [Hcanvas|(i & c & Hc & He & Hf)]; [auto|].
        right. exists (S i), c. replace (index + S i)%nat with (index + 1 + i)%nat by lia.
        auto.
      * injection Hrun as <- _. left. eapply icon_loop_throw_cause; eauto.
    + injection Hrun as <- _. right. exists 0%nat, category.
      rewrite Nat.add_0_r. auto.
Qed.

(** Extra X10.  When the loops of a run over categories of the registry throw, the
    cause is a folder the archive did not create or a canvas that cannot be
    reached; the run then ends [Failed] with that error, the error is the
    last line of the progress area, and nothing is compressed or
    downloaded. *)
Theorem run_fails_only_on_folder_or_canvas b gen perCategory pixelSize categories s e :
  Forall (fun c => (id c < length SYMBOL_CATEGORIES)%nat) categories ->
  (category_loop b gen (length categories) perCategory pixelSize 0 categories [] s).1
    = Throw e ->
  let final := guarded_generation b gen categories perCategory pixelSize s in
  ((e = CanvasUnavailable /\ canvasReachable gen = false) \/
   (exists i c,
      categories !! i = Some c /\
      e = ZipFolderFailed (folderNameOf i c) /\
      folderCreated b (folderNameOf i c) = false)) /\
  final.1 = Failed e /\
  last (progress final.2) = Some (MsgError e) /\
  compressed final.2 = compressed s /\
  downloads final.2 = downloads s.
Proof.
  intros Hids Hrun final.
  destruct (category_loop b gen (length categories) perCategory pixelSize 0 categories [] s)
    as [[zip|e'] s1] eqn:Hloops; cbn [fst] in Hrun; [discriminate|].
  injection Hrun as ->.
  split; [exact (category_loop_throw_cause _ _ _ _ _ _ Hids _ _ _ _ _ Hloops)|].
  pose proof (category_loop_keeps b gen (length categories) perCategory pixelSize
                categories 0%nat [] s) as [Hc Hd].
  rewrite Hloops in Hc, Hd. cbn [snd] in Hc, Hd.
  subst final. unfold guarded_generation. rewrite generation_after_loops, Hloops.
  cbn [fst snd].
  destruct (finally_block_fields (appendProgress (MsgError e) false s1).2)
    as (_ & _ & _ & _ & _ & -> & -> & -> & _).
  destruct s1; cbn in *. rewrite last_snoc. auto.
Qed.

(** X10 at the second folder cannot be created. *)
Lemma run_fails_only_on_folder_or_canvas_witness :
  let b := {| p5 := p_half; cancelClicked := fun _ => false;
              folderCreated := fun name => negb (String.eqb name "02_police-box") |} in
  let final := guarded_generation b p_half (take 2 SYMBOL_CATEGORIES) 1 8 (ready_page "1" "8") in
  final.1 = Failed (ZipFolderFailed "02_police-box") /\
  last (progress final.2) = Some (MsgError (ZipFolderFailed "02_police-box")) /\
  downloads final.2 = [].
Proof.
  intros b final.
  assert (Hids : Forall (fun c => (id c < length SYMBOL_CATEGORIES)%nat)
                   (take 2 SYMBOL_CATEGORIES)) by (repeat constructor; cbn; lia).
  assert (Hrun : (category_loop b p_half (length (take 2 SYMBOL_CATEGORIES)) 1 8 0
                    (take 2 SYMBOL_CATEGORIES) [] (ready_page "1" "8")).1
                 = Throw (ZipFolderFailed "02_police-box")) by (vm_compute; reflexivity).
  destruct (run_fails_only_on_folder_or_canvas b p_half 1 8 (take 2 SYMBOL_CATEGORIES)
              (ready_page "1" "8") _ Hids Hrun) as (_ & Hf & Hl & _ & Hd).
  split; [exact Hf|]. split; [exact Hl|]. unfold final. rewrite Hd. vm_compute. reflexivity.
Defined.

(** *** What a run downloads *)

(** Extra X11.  What is downloaded is what was compressed: a run adds the same
    archives to both, one when it completes, none when it is cancelled, at
    most one when it fails; a run never ends as a rejection. *)
Theorem download_follows_outcome b gen categories perCategory pixelSize s :
  let final := guarded_generation b gen categories perCategory pixelSize s in
  exists saved,
    compressed final.2 = compressed s ++ saved /\
    downloads final.2 = downloads s ++ saved /\
    match final.1 with
    | Completed zip => saved = [zip]
    | Cancelled _ => saved = []
    | Failed _ => saved = [] \/ exists zip, saved = [zip]
    | Aborted _ | NoGenerator | Rejected _ => False
    end.
Proof.
  intros final.
  pose proof (category_loop_keeps b gen (length categories) perCategory pixelSize
                categories 0%nat [] s) as [Hc Hd].
  destruct (category_loop b gen (length categories) perCategory pixelSize 0 categories [] s)
    as [[zip|e] s1] eqn:Hloops; cbn [snd] in Hc, Hd.
  - destruct (cancelRequested s1) eqn:Hflag.
    + exists []. subst final.
      rewrite (guarded_generation_cancelled _ _ _ _ _ _ _ _ Hloops Hflag). cbn [fst snd].
      destruct (finally_block_fields (appendProgress MsgCancelled false s1).2)
        as (_ & _ & _ & _ & _ & _ & -> & -> & _).
      rewrite !app_nil_r. destruct s1; cbn in *. auto.
    + exists [zip].
      destruct (guarded_generation_downloads _ _ _ _ _ _ _ _ Hloops Hflag)
        as (Hc' & Hd' & Ho).
      fold final in Hc', Hd', Ho. rewrite Hc', Hd', Hc, Hd.
      split; [reflexivity|]. split; [reflexivity|].
      destruct Ho as [-> | [e ->]]; eauto.
  - exists []. subst final. unfold guarded_generation.
    rewrite generation_after_loops, Hloops. cbn [fst snd].
    destruct (finally_block_fields (appendProgress (MsgError e) false s1).2)
      as (_ & _ & _ & _ & _ & _ & -> & -> & _).
    rewrite !app_nil_r. destruct s1; cbn in *. auto.
Qed.

(** *** Cancel requests *)

Lemma reporting_refl s : reporting s s.
Proof. intros Hs. exact Hs. Qed.

Lemma reporting_trans s1 s2 s3 : reporting s1 s2 -> reporting s2 s3 -> reporting s1 s3.
Proof. unfold reporting. auto. Qed.

Lemma reporting_same s s' :
  progress s' = progress s -> cancelRequested s' = cancelRequested s -> reporting s s'.
Proof. unfold reporting, cancel_reported, cancel_lines. intros -> ->. auto. Qed.

Lemma cancel_lines_line m s :
  is_cancel_request m = false -> cancel_lines (appendProgress m false s).2 = cancel_lines s.
Proof.
  intros Hm. unfold cancel_lines.
  cbn [appendProgress modify snd progress cancelRequested set_progress].
  rewrite filter_app, length_app. rewrite filter_cons_False by (rewrite Hm; auto).
  rewrite filter_nil. cbn [length]. lia.
Qed.

Lemma reporting_line m s :
  is_cancel_request m = false -> reporting s (appendProgress m false s).2.
Proof.
  intros Hm. unfold reporting, cancel_reported. rewrite (cancel_lines_line m s Hm). auto.
Qed.

Lemma reporting_click s : reporting s (cancelButton_click s).2.
Proof.
  unfold cancelButton_click. destruct (negb (isGenerating s) || cancelRequested s) eqn:Hguard.
  - apply reporting_refl.
  - apply orb_false_iff in Hguard as [_ Hflag].
    unfold reporting, cancel_reported, cancel_lines. rewrite Hflag.
    unfold appendProgress, mbind, H_bind, modify.
    cbn [snd progress cancelRequested set_progress set_disabled set_cancelRequested].
    rewrite filter_app, length_app, filter_cons_True by exact I.
    rewrite filter_nil. cbn [length]. lia.
Qed.

Lemma reporting_suspend b s : reporting s (suspend b s).2.
Proof.
  unfold suspend. destruct (cancelClicked b _).
  - eapply reporting_trans; [|apply reporting_click]. apply reporting_same; reflexivity.
  - apply reporting_same; reflexivity.
Qed.

Lemma reports_lift {A} (m : M A) : preserving reporting (lift m).
Proof.
  intros s. unfold lift. destruct (m (world s)) as [r w]. apply reporting_same; reflexivity.
Qed.

Lemma reports_appendProgress m :
  is_cancel_request m = false -> preserving reporting (appendProgress m false).
Proof. intros Hm s. apply reporting_line, Hm. Qed.

Lemma reports_suspend b : preserving reporting (suspend b).
Proof. intros s. apply reporting_suspend. Qed.

Lemma reports_yield b : preserving reporting (yieldToBrowser b).
Proof. apply reports_suspend. Qed.

Lemma reports_modify (f : App -> App) :
  (forall s, progress (f s) = progress s) ->
  (forall s, cancelRequested (f s) = cancelRequested s) ->
  preserving reporting (modify f).
Proof. intros Hp Hc s. apply reporting_same; [apply Hp | apply Hc]. Qed.

Create HintDb reports.

#[local] Hint Resolve reporting_refl reporting_trans reports_lift reports_appendProgress
  reports_suspend reports_yield : reports.

Ltac report_through :=
  repeat first
    [ solve [eauto with reports]
    | apply preserving_bind; [solve [eauto with reports] | | intros ?]
    | apply preserving_if
    | apply preserving_ret; solve [eauto with reports]
    | apply preserving_get; solve [eauto with reports]
    | apply preserving_raise; solve [eauto with reports]
    | apply reports_modify; reflexivity ].

Lemma icon_loop_reports b gen category folderName perCategory pixelSize remaining :
  forall iconIndex zip,
    preserving reporting
      (icon_loop b gen category folderName perCategory pixelSize remaining iconIndex zip).
Proof.
  induction remaining as [|remaining IH]; intros iconIndex zip; cbn [icon_loop];
    report_through.
Qed.

Lemma category_loop_reports b gen total perCategory pixelSize categories :
  forall index zip,
    preserving reporting
      (category_loop b gen total perCategory pixelSize index categories zip).
Proof.
  induction categories as [|category rest IH]; intros index zip; cbn [category_loop];
    report_through.
  apply icon_loop_reports.
Qed.

Lemma refreshCategoryPreviews_loop_reports b gen entries :
  forall counter, preserving reporting (refreshCategoryPreviews_loop b gen entries counter).
Proof.
  induction entries as [|[categoryId image] rest IH]; intros counter;
    cbn [refreshCategoryPreviews_loop]; report_through.
Qed.

Lemma refreshCategoryPreviews_reports b : preserving reporting (refreshCategoryPreviews b).
Proof.
  intros s. unfold refreshCategoryPreviews. destruct (generator s) as [gen|];
    [|apply reporting_refl].
  apply (preserving_bind reporting reporting_trans
           (refreshCategoryPreviews_loop b gen (previewImages s) 0)).
  - apply refreshCategoryPreviews_loop_reports.
  - intros ?. apply reports_appendProgress. reflexivity.
Qed.

Lemma generation_reports b gen categories perCategory pixelSize :
  preserving reporting (generation b gen categories perCategory pixelSize).
Proof.
  unfold generation. report_through.
  - apply category_loop_reports.
  - apply refreshCategoryPreviews_reports.
Qed.

Lemma cancelButton_click_twice s :
  cancelButton_click (cancelButton_click s).2 = (Ok tt, (cancelButton_click s).2).
Proof.
  unfold cancelButton_click at 2 3.
  destruct (negb (isGenerating s) || cancelRequested s) eqn:Hguard; cbn [snd].
  - unfold cancelButton_click. rewrite Hguard. reflexivity.
  - unfold cancelButton_click. unfold appendProgress, mbind, H_bind, modify.
    cbn [snd isGenerating cancelRequested set_progress set_disabled set_cancelRequested].
    rewrite orb_true_r. reflexivity.
Qed.

Lemma bind_returns {A B} (m : H A) (k : A -> H B) (P : B -> Prop) s :
  (forall a s1, forall b s', k a s1 = (Ok b, s') -> P b) ->
  forall b s', (m ≫= k) s = (Ok b, s') -> P b.
Proof.
  intros Hk b s'. unfold mbind, H_bind. destruct (m s) as [[a|e] s1]; [|discriminate].
  apply Hk.
Qed.

(** Extra X12.  A second click on the cancel button changes nothing, and over a whole
    run, whatever the clicks, the progress area gets at most one line
    reporting a cancel request, and exactly one when the run ends
    cancelled. *)
Theorem cancel_request_is_reported_once b gen r s :
  let final :=
    guarded_generation b gen (activeCategories r) (perCategory r) (pixelSize r)
      (start_run r s) in
  (forall s0,
     cancelButton_click (cancelButton_click s0).2 = (Ok tt, (cancelButton_click s0).2)) /\
  (forall zip, final.1 = Cancelled zip -> cancel_lines final.2 = 1%nat) /\
  (cancel_lines final.2 <= 1)%nat.
Proof.
  intros final. split; [exact cancelButton_click_twice|].
  assert (Hstart : cancel_reported (start_run r s)) by reflexivity.
  pose proof (generation_reports b gen (activeCategories r) (perCategory r) (pixelSize r)
                (start_run r s) Hstart) as Hend.
  assert (Hlines : forall s1, cancel_lines (finally_block s1).2 = cancel_lines s1).
  { intros s1. unfold cancel_lines.
    destruct (finally_block_fields s1) as (_ & _ & _ & _ & _ & -> & _). reflexivity. }
  assert (Hbound : (cancel_lines
                      (generation b gen (activeCategories r) (perCategory r) (pixelSize r)
                         (start_run r s)).2 <= 1)%nat).
  { rewrite Hend. destruct (cancelRequested _); lia. }
  subst final. unfold guarded_generation.
  rewrite generation_after_loops in *.
  destruct (category_loop _ _ _ _ _ _ _ _ _) as [[zip|e] s1] eqn:Hloops.
  - destruct (cancelRequested s1) eqn:Hflag.
    + cbn [fst snd] in *. rewrite Hlines. red in Hend.
      replace (cancelRequested (appendProgress MsgCancelled false s1).2) with true in Hend
        by (symmetry; exact Hflag).
      rewrite Hend. auto.
    + lazymatch type of Hbound with
      | (cancel_lines (?m).2 <= 1)%nat => destruct m as [[o|e] s2] eqn:Hrest
      end.
      * cbn [fst snd] in *. rewrite Hlines. split; [|exact Hbound].
        intros zip0 Ho. subst o.
        enough (Hk : Cancelled zip0 = Completed zip) by discriminate.
        revert Hrest. generalize (Cancelled zip0) s2.
        repeat (apply (bind_returns _ _ (fun o => o = Completed zip)); intros ? ?).
        intros o s' Hret. injection Hret as <- _. reflexivity.
      * cbn [fst snd] in *. rewrite Hlines. split; [discriminate|].
        rewrite cancel_lines_line by reflexivity. exact Hbound.
  - cbn [fst snd] in *. rewrite Hlines. split; [discriminate|].
    rewrite cancel_lines_line by reflexivity. exact Hbound.
Qed.

(** *** The progress of a run *)

Lemma progress_marks_in perCategory count : forall from m,
  m ∈ progress_marks perCategory from count <->
  (from <= m < from + count)%nat /\ reports_after perCategory m = true.
Proof.
  induction count as [|count IH]; intros from m; cbn [progress_marks].
  - rewrite elem_of_nil. split; [tauto|]. intros [? _]. lia.
  - destruct (reports_after perCategory from) eqn:Hfrom.
    + rewrite elem_of_cons, IH. split.
      * intros [-> | [? ?]]; split; auto; lia.
      * intros [Hm Hr]. destruct (decide (m = from)); [auto|]. right. split; [lia|auto].
    + rewrite IH. split.
      * intros [? ?]. split; [lia|auto].
      * intros [Hm Hr]. split; [|auto].
        destruct (decide (m = from)) as [->|]; [congruence|lia].
Qed.

Lemma progress_marks_snoc perCategory count : forall from,
  progress_marks perCategory from (S count) =
  progress_marks perCategory from count ++
  (if reports_after perCategory (from + count) then [(from + count)%nat] else []).
Proof.
  induction count as [|count IH]; intros from.
  - cbn [progress_marks]. rewrite Nat.add_0_r.
    destruct (reports_after perCategory from); reflexivity.
  - change (progress_marks perCategory from (S (S count))) with
      (if reports_after perCategory from
       then from :: progress_marks perCategory (S from) (S count)
       else progress_marks perCategory (S from) (S count)).
    rewrite (IH (S from)). cbn [progress_marks].
    replace (S from + count)%nat with (from + S count)%nat by lia.
    destruct (reports_after perCategory from); reflexivity.
Qed.

Lemma progress_marks_window perCategory k :
  (1 <= k <= Z.to_nat perCategory)%nat ->
  exists m, m ∈ progress_marks perCategory 1 (Z.to_nat perCategory) /\
            (k <= m < k + 200)%nat.
Proof.
  intros Hk. set (n := Z.to_nat perCategory) in *.
  set (m := (200 * ((k + 199) / 200))%nat).
  assert (Hm : (k <= m < k + 200)%nat).
  { pose proof (Nat.div_mod_eq (k + 199) 200) as Hd.
    pose proof (Nat.mod_upper_bound (k + 199) 200 ltac:(lia)) as Hu.
    subst m. lia. }
  destruct (decide (m <= n)%nat) as [Hle|Hgt].
  - exists m. split; [|exact Hm]. apply progress_marks_in. split; [lia|].
    unfold reports_after. apply orb_true_iff. left. apply Nat.eqb_eq.
    subst m. rewrite Nat.mul_comm. apply Nat.Div0.mod_mul.
  - exists n. split; [|lia]. apply progress_marks_in. split; [lia|].
    unfold reports_after. apply orb_true_iff. right. apply Z.eqb_eq. subst n. lia.
Qed.

Lemma progress_marks_last perCategory :
  (1 <= perCategory)%Z ->
  last (progress_marks perCategory 1 (Z.to_nat perCategory)) = Some (Z.to_nat perCategory).
Proof.
  intros Hper. destruct (Z.to_nat perCategory) as [|n] eqn:Hn; [lia|].
  rewrite progress_marks_snoc.
  replace (reports_after perCategory (1 + n)) with true.
  - apply last_snoc.
  - symmetry. unfold reports_after. apply orb_true_iff. right. apply Z.eqb_eq. lia.
Qed.

Lemma cards_kept_refl s : cards_kept s s.
Proof. repeat split. Qed.

Lemma cards_kept_trans s1 s2 s3 : cards_kept s1 s2 -> cards_kept s2 s3 -> cards_kept s1 s3.
Proof. unfold cards_kept. intros (? & ? & ? & ?) (? & ? & ? & ?). repeat split; congruence. Qed.

Section Transcript.
Context (b : Browser) (gen : P5).
Hypothesis reachable : canvasReachable gen = true.
Hypothesis unclicked : forall n, cancelClicked b n = false.
Hypothesis folders : forall name, folderCreated b name = true.

Lemma suspend_quiet s :
  suspend b s = (Ok tt, set_suspended (suspended s ++ [snapshot s]) s).
Proof. unfold suspend. rewrite unclicked. reflexivity. Qed.

Lemma after_icon_report category perCategory iconIndex s :
  let s' := after_icon b category perCategory iconIndex s in
  progress s' =
    progress s ++
    (if reports_after perCategory (S iconIndex)
     then [MsgProgress (label category) (S iconIndex) perCategory] else []) /\
  suspensions s' =
    (suspensions s + if reports_after perCategory (S iconIndex) then 1 else 0)%nat /\
  cancelRequested s' = cancelRequested s /\ cards_kept s s' /\ world s' = world s.
Proof.
  unfold after_icon, reports_after, suspend_state.
  replace (iconIndex + 1)%nat with (S iconIndex) by lia.
  destruct (_ || _).
  - rewrite suspend_quiet. unfold suspensions. destruct s; cbn.
    rewrite length_app. cbn. repeat split; reflexivity.
  - rewrite app_nil_r, Nat.add_0_r. repeat split; reflexivity.
Qed.

Lemma icon_loop_transcript category folderName perCategory pixelSize :
  (id category < length SYMBOL_CATEGORIES)%nat ->
  forall remaining iconIndex zip s,
    cancelRequested s = false ->
    exists zip' s',
      icon_loop b gen category folderName perCategory pixelSize remaining iconIndex zip s
        = (Ok zip', s') /\
      cancelRequested s' = false /\
      progress s' = progress s ++ icon_reports category perCategory (S iconIndex) remaining /\
      suspensions s' =
        (suspensions s + length (progress_marks perCategory (S iconIndex) remaining))%nat /\
      length zip' = (length zip + remaining)%nat /\
      cards_kept s s'.
Proof.
  intros Hid. induction remaining as [|remaining IH]; intros iconIndex zip s Hc.
  - exists zip, s. cbn. rewrite app_nil_r, !Nat.add_0_r.
    repeat split; auto using cards_kept_refl.
  - rewrite icon_loop_step, Hc.
    destruct (generateIcon_ok gen (id category) (Some (inject_Z pixelSize)) (world s)
                reachable Hid) as (url & w' & ->).
    destruct (after_icon_report category perCategory iconIndex (set_world w' s))
      as (Hp & Hs & Hflag & Hcards & _).
    destruct (IH (iconIndex + 1)%nat
                (folder_file folderName (fileNameOf iconIndex) (image url) zip)
                (after_icon b category perCategory iconIndex (set_world w' s)))
      as (zip' & s' & Hr & Hc' & Hp' & Hs' & Hz & Hcards').
    { rewrite Hflag. exact Hc. }
    exists zip', s'. split; [exact Hr|]. split; [exact Hc'|].
    replace (iconIndex + 1)%nat with (S iconIndex) in * by lia.
    change (progress (set_world w' s)) with (progress s) in Hp.
    change (suspensions (set_world w' s)) with (suspensions s) in Hs.
    rewrite Hp', Hs', Hz, Hp, Hs. unfold icon_reports, folder_file.
    cbn [progress_marks]. rewrite length_app.
    split; [|split; [|split]].
    + destruct (reports_after perCategory (S iconIndex)); cbn [map];
        rewrite <- app_assoc; reflexivity.
    + destruct (reports_after perCategory (S iconIndex)); cbn [length]; lia.
    + cbn [length]. lia.
    + eapply cards_kept_trans; [|exact Hcards']. eapply cards_kept_trans; [|exact Hcards].
      repeat split.
Qed.

Lemma category_loop_transcript total perCategory pixelSize categories :
  Forall (fun c => (id c < length SYMBOL_CATEGORIES)%nat) categories ->
  forall index zip s,
    cancelRequested s = false ->
    exists zip' s',
      category_loop b gen total perCategory pixelSize index categories zip s
        = (Ok zip', s') /\
      cancelRequested s' = false /\
      progress s' = progress s ++ run_reports total perCategory index categories /\
      suspensions s' =
        (suspensions s +
         length categories * length (progress_marks perCategory 1 (Z.to_nat perCategory)))%nat /\
      length zip' = (length zip + length categories * S (Z.to_nat perCategory))%nat /\
      cards_kept s s'.
Proof.
  intros Hids. induction Hids as [|category rest Hid _ IH]; intros index zip s Hc.
  - exists zip, s. cbn. rewrite app_nil_r, !Nat.add_0_r.
    repeat split; auto using cards_kept_refl.
  - rewrite category_loop_step, Hc. cbn zeta. rewrite folders.
    destruct (icon_loop_transcript category (folderNameOf index category) perCategory
                pixelSize Hid (Z.to_nat perCategory) 0%nat
                (zip_folder (folderNameOf index category) zip)
                (appendProgress (MsgCategory (label category) (index + 1) total) false s).2)
      as (zip1 & s1 & -> & Hc1 & Hp1 & Hs1 & Hz1 & Hk1); [exact Hc|].
    destruct (IH (index + 1)%nat zip1 s1 Hc1) as (zip' & s' & Hr & Hc' & Hp' & Hs' & Hz' & Hk').
    exists zip', s'. split; [exact Hr|]. split; [exact Hc'|].
    rewrite Hp', Hs', Hz', Hp1, Hs1, Hz1. unfold zip_folder. rewrite length_app.
    cbn [run_reports length appendProgress modify snd progress set_progress].
    replace (index + 1)%nat with (S index) by lia.
    split; [|split; [|split]].
    + rewrite <- !app_assoc. reflexivity.
    + unfold suspensions. cbn [suspended set_progress]. lia.
    + lia.
    + eapply cards_kept_trans; [|exact Hk']. eapply cards_kept_trans; [|exact Hk1].
      repeat split.
Qed.

End Transcript.

(** *** Refreshing the previews *)

Lemma refreshCategoryPreviews_loop_step b gen categoryId image rest counter s :
  refreshCategoryPreviews_loop b gen ((categoryId, image) :: rest) counter s =
  match generateIcon gen (categoryNumber categoryId) (Some (inject_Z PREVIEW_SIZE)) (world s) with
  | (Throw e, w) => (Throw e, set_world w s)
  | (Ok src, w) =>
      refreshCategoryPreviews_loop b gen rest (counter + 1)
        (after_preview b counter
           (set_previewImages (map_set categoryId src (previewImages (set_world w s)))
              (set_world w s)))
  end.
Proof.
  cbn [refreshCategoryPreviews_loop]. unfold mbind at 1, H_bind at 1, lift at 1.
  destruct (generateIcon _ _ _ _) as [[src | e] w]; [|reflexivity].
  unfold mbind at 1, H_bind at 1, modify at 1.
  unfold mbind at 1, H_bind at 1, after_preview.
  destruct (_ =? 0)%nat.
  - unfold yieldToBrowser. rewrite suspend_ok. reflexivity.
  - reflexivity.
Qed.

Lemma map_set_middle pre categoryId old src rest :
  categoryId ∉ pre.*1 ->
  map_set categoryId src (pre ++ (categoryId, old) :: rest) = pre ++ (categoryId, src) :: rest.
Proof.
  induction pre as [|[k v] pre IH]; intros Hfresh; cbn [map_set app].
  - rewrite Nat.eqb_refl. reflexivity.
  - cbn [fmap list_fmap fst] in Hfresh. apply not_elem_of_cons in Hfresh as [Hk Hpre].
    destruct (k =? categoryId)%nat eqn:Hkk; [apply Nat.eqb_eq in Hkk; congruence|].
    rewrite IH by exact Hpre. reflexivity.
Qed.

Lemma cancelButton_click_fields s :
  let s' := (cancelButton_click s).2 in
  previewImages s' = previewImages s /\ generator s' = generator s /\
  selectedCategories s' = selectedCategories s /\ world s' = world s /\
  suspended s' = suspended s /\ checkboxes s' = checkboxes s /\
  initialized s' = initialized s /\ isGenerating s' = isGenerating s.
Proof.
  unfold cancelButton_click. destruct (negb _ || _); repeat split; reflexivity.
Qed.

Lemma suspend_state_fields b s :
  let s' := suspend_state b s in
  previewImages s' = previewImages s /\ generator s' = generator s /\
  selectedCategories s' = selectedCategories s /\ world s' = world s /\
  suspended s' = suspended s ++ [snapshot s] /\ checkboxes s' = checkboxes s /\
  initialized s' = initialized s /\ isGenerating s' = isGenerating s /\
  ((forall n, cancelClicked b n = false) ->
   progress s' = progress s /\ cancelRequested s' = cancelRequested s /\
   disabled s' = disabled s).
Proof.
  unfold suspend_state, suspend. destruct (cancelClicked b _) eqn:Hclick.
  - destruct (cancelButton_click_fields
                (set_suspended (suspended s ++ [snapshot s]) s))
      as (-> & -> & -> & -> & -> & -> & -> & ->).
    repeat split; try reflexivity;
      match goal with
      | Hun : forall n, cancelClicked b n = false |- _ => rewrite Hun in Hclick; discriminate
      end.
  - repeat split; reflexivity.
Qed.

Lemma after_preview_fields b counter s :
  let s' := after_preview b counter s in
  previewImages s' = previewImages s /\ generator s' = generator s /\
  selectedCategories s' = selectedCategories s /\ world s' = world s /\
  suspensions s' = (suspensions s + if ((counter + 1) mod 5 =? 0)%nat then 1 else 0)%nat /\
  ((forall n, cancelClicked b n = false) ->
   progress s' = progress s /\ cancelRequested s' = cancelRequested s).
Proof.
  unfold after_preview. destruct (_ =? 0)%nat.
  - destruct (suspend_state_fields b s) as (-> & -> & -> & -> & Hs & _ & _ & _ & Hq).
    unfold suspensions. rewrite Hs, length_app. cbn [length].
    repeat split; try reflexivity; apply Hq; assumption.
  - rewrite Nat.add_0_r. repeat split; reflexivity.
Qed.

Lemma fifth_step counter :
  ((counter + 1) / 5 = counter / 5 + if ((counter + 1) mod 5 =? 0)%nat then 1 else 0)%nat.
Proof.
  pose proof (Nat.div_mod_eq counter 5). pose proof (Nat.div_mod_eq (counter + 1) 5).
  pose proof (Nat.mod_upper_bound counter 5 ltac:(lia)).
  pose proof (Nat.mod_upper_bound (counter + 1) 5 ltac:(lia)).
  destruct (_ =? 0)%nat eqn:Hm; [apply Nat.eqb_eq in Hm|apply Nat.eqb_neq in Hm]; lia.
Qed.

Lemma refreshCategoryPreviews_loop_redraws b gen :
  canvasReachable gen = true ->
  forall entries pre counter s,
    previewImages s = pre ++ entries ->
    NoDup (pre ++ entries).*1 ->
    Forall (fun entry => (entry.1 < length SYMBOL_CATEGORIES)%nat) entries ->
    Forall preview_sized pre ->
    exists s',
      refreshCategoryPreviews_loop b gen entries counter s = (Ok tt, s') /\
      (previewImages s').*1 = (previewImages s).*1 /\
      Forall preview_sized (previewImages s') /\
      generator s' = generator s /\
      selectedCategories s' = selectedCategories s /\
      suspensions s' = (suspensions s + (counter + length entries) / 5 - counter / 5)%nat /\
      ((forall n, cancelClicked b n = false) ->
       progress s' = progress s /\ cancelRequested s' = cancelRequested s).
Proof.
  intros Hreach.
  induction entries as [|[k old] rest IH]; intros pre counter s Hsplit Hdup Hids Hpre.
  - exists s. cbn [refreshCategoryPreviews_loop length]. rewrite Hsplit, app_nil_r.
    rewrite Nat.add_0_r. repeat split; auto. lia.
  - rewrite refreshCategoryPreviews_loop_step.
    apply Forall_cons in Hids as [Hk Hids]. cbn [fst] in Hk.
    destruct (generateIcon_registered gen k (Some (inject_Z PREVIEW_SIZE)) (world s) Hk)
      as (w' & -> & Hw & Hh & _).
    rewrite Hreach.
    set (src := {| mime := "image/png"; image := g w' |}).
    set (s1 := set_previewImages _ _).
    assert (Hs1 : previewImages s1 = (pre ++ [(k, src)]) ++ rest).
    { subst s1. cbn [previewImages set_previewImages set_world]. rewrite Hsplit.
      rewrite map_set_middle, <- app_assoc; [reflexivity|].
      rewrite fmap_app in Hdup. apply NoDup_app in Hdup as (_ & Hdis & _).
      intros Hin. apply (Hdis k Hin). cbn. left. }
    destruct (after_preview_fields b counter s1) as (Ha1 & Ha2 & Ha3 & _ & Ha5 & Ha6).
    destruct (IH (pre ++ [(k, src)]) (counter + 1)%nat (after_preview b counter s1))
      as (s' & Hr & Hkeys & Hsized & Hgen & Hsel & Hsusp & Hquiet).
    { rewrite Ha1. exact Hs1. }
    { rewrite <- app_assoc. cbn [app]. rewrite fmap_app in *. exact Hdup. }
    { exact Hids. }
    { apply Forall_app. split; [exact Hpre|]. constructor; [|constructor].
      split; cbn [snd image src]; [rewrite Hw | rewrite Hh]; reflexivity. }
    exists s'. split; [exact Hr|].
    rewrite Hkeys, Hgen, Hsel, Hsusp, Ha1, Ha2, Ha3, Ha5, Hs1, Hsplit.
    split; [|split; [exact Hsized|split; [reflexivity|split; [reflexivity|split]]]].
    + rewrite <- app_assoc. cbn [app]. rewrite !fmap_app. reflexivity.
    + cbn [length]. pose proof (fifth_step counter) as Hstep.
      assert (Hmono : ((counter + 1) / 5 <= (counter + 1 + length rest) / 5)%nat)
        by (apply Nat.Div0.div_le_mono; lia).
      replace (counter + S (length rest))%nat with (counter + 1 + length rest)%nat by lia.
      unfold suspensions in *. subst s1. cbn [suspended set_previewImages set_world] in *.
      lia.
    + intros Hun. destruct (Hquiet Hun) as [-> ->]. destruct (Ha6 Hun) as [-> ->].
      split; reflexivity.
Qed.

Lemma refreshCategoryPreviews_redraws b s gen :
  generator s = Some gen ->
  canvasReachable gen = true ->
  NoDup (previewImages s).*1 ->
  Forall (fun entry => (entry.1 < length SYMBOL_CATEGORIES)%nat) (previewImages s) ->
  exists s',
    refreshCategoryPreviews b s = (Ok tt, s') /\
    (previewImages s').*1 = (previewImages s).*1 /\
    Forall preview_sized (previewImages s') /\
    selectedCategories s' = selectedCategories s /\
    last (progress s') = Some MsgPreviewsRefreshed /\
    suspensions s' = (suspensions s + length (previewImages s) / 5)%nat /\
    ((forall n, cancelClicked b n = false) ->
     progress s' = progress s ++ [MsgPreviewsRefreshed] /\
     cancelRequested s' = cancelRequested s).
Proof.
  intros Hgen Hreach Hdup Hids. unfold refreshCategoryPreviews. rewrite Hgen.
  destruct (refreshCategoryPreviews_loop_redraws b gen Hreach (previewImages s) [] 0%nat s
              eq_refl Hdup Hids (Forall_nil_2 _))
    as (s1 & Hr & Hkeys & Hsized & _ & Hsel & Hsusp & Hquiet).
  unfold mbind, H_bind. rewrite Hr.
  eexists. split; [reflexivity|].
  cbn [appendProgress modify snd previewImages selectedCategories progress set_progress
       cancelRequested].
  rewrite last_snoc. unfold suspensions in *. cbn [suspended set_progress].
  rewrite Hsusp. cbn [Nat.add]. rewrite Nat.sub_0_r.
  split; [exact Hkeys|]. split; [exact Hsized|]. split; [exact Hsel|].
  split; [reflexivity|]. split; [reflexivity|].
  intros Hun. destruct (Hquiet Hun) as [-> ->]. split; reflexivity.
Qed.

(** Extra X13.  With a generator whose canvas can be reached, on a page whose preview
    keys are distinct ids of the registry, [refreshCategoryPreviews]
    returns, keeps the keys of the previews and their order, leaves every
    preview a canvas of [PREVIEW_SIZE] by [PREVIEW_SIZE], keeps the
    selection, reports last that the previews were refreshed, and suspends
    once for every five previews. *)
Theorem refresh_redraws_every_preview b s gen :
  generator s = Some gen ->
  canvasReachable gen = true ->
  NoDup (previewImages s).*1 ->
  Forall (fun entry => (entry.1 < length SYMBOL_CATEGORIES)%nat) (previewImages s) ->
  exists s',
    refreshCategoryPreviews b s = (Ok tt, s') /\
    (previewImages s').*1 = (previewImages s).*1 /\
    Forall preview_sized (previewImages s') /\
    selectedCategories s' = selectedCategories s /\
    last (progress s') = Some MsgPreviewsRefreshed /\
    suspensions s' = (suspensions s + length (previewImages s) / 5)%nat.
Proof.
  intros Hgen Hreach Hdup Hids.
  destruct (refreshCategoryPreviews_redraws b s gen Hgen Hreach Hdup Hids)
    as (s' & Hr & Hkeys & Hsized & Hsel & Hlast & Hsusp & _).
  exists s'. auto 10.
Qed.

(** X13 at the ten previews of the initialised page. *)
Lemma refresh_redraws_every_preview_witness :
  exists s',
    refreshCategoryPreviews quiet_browser (ready_page "1" "8") = (Ok tt, s') /\
    (previewImages s').*1 = (previewImages (ready_page "1" "8")).*1 /\
    Forall preview_sized (previewImages s') /\
    length (previewImages s') = 10%nat.
Proof.
  destruct (refresh_redraws_every_preview quiet_browser (ready_page "1" "8") p_half)
    as (s' & Hr & Hkeys & Hsized & _).
  - vm_compute. reflexivity.
  - reflexivity.
  - apply (bool_decide_unpack _). vm_compute. exact I.
  - apply (bool_decide_unpack _). vm_compute. exact I.
  - exists s'. split; [exact Hr|]. split; [exact Hkeys|]. split; [exact Hsized|].
    rewrite <- (length_fmap fst), Hkeys, length_fmap. vm_compute. reflexivity.
Defined.

(** *** The yield cadence *)

(** Extra X14.  The cadence of the icon loop: run without interruption for a category
    of the registry, it makes one archive entry per icon, and reports and
    suspends exactly after every 200th icon and after the last one; so
    every icon is followed by a suspension within the next 200 icons, and
    the last report is that of the full count. *)
Theorem icon_loop_yields_every_200 b gen category folderName perCategory pixelSize s :
  canvasReachable gen = true ->
  (forall n, cancelClicked b n = false) ->
  (id category < length SYMBOL_CATEGORIES)%nat ->
  cancelRequested s = false ->
  let marks := progress_marks perCategory 1 (Z.to_nat perCategory) in
  (exists zip s',
     icon_loop b gen category folderName perCategory pixelSize (Z.to_nat perCategory) 0 [] s
       = (Ok zip, s') /\
     length zip = Z.to_nat perCategory /\
     progress s' =
       progress s ++ map (fun k => MsgProgress (label category) k perCategory) marks /\
     suspensions s' = (suspensions s + length marks)%nat) /\
  (forall k, (1 <= k <= Z.to_nat perCategory)%nat ->
     exists m, m ∈ marks /\ (k <= m < k + 200)%nat) /\
  ((1 <= perCategory)%Z -> last marks = Some (Z.to_nat perCategory)).
Proof.
  intros Hreach Hun Hid Hflag marks. split; [|split].
  - destruct (icon_loop_transcript b gen Hreach Hun category folderName perCategory
                pixelSize Hid (Z.to_nat perCategory) 0%nat [] s Hflag)
      as (zip & s' & Hr & _ & Hp & Hs & Hz & _).
    exists zip, s'. auto.
  - apply progress_marks_window.
  - apply progress_marks_last.
Qed.

(** X14 at 450 icons: suspensions after the 200th, the 400th and the 450th. *)
Lemma icon_loop_yields_every_200_witness :
  progress_marks 450 1 450 = [200; 400; 450]%nat /\
  exists zip s',
    icon_loop quiet_browser p_half {| id := 3; key := "post-office"; label := "yubinkyoku" |}
      "01_post-office" 450 8 450 0 [] (initialApp "450" "8") = (Ok zip, s') /\
    length zip = 450%nat /\
    suspensions s' = 3%nat.
Proof.
  assert (Hmarks : progress_marks 450 1 450 = [200; 400; 450]%nat) by (vm_compute; reflexivity).
  split; [exact Hmarks|].
  destruct (icon_loop_yields_every_200 quiet_browser p_half
              {| id := 3; key := "post-office"; label := "yubinkyoku" |}
              "01_post-office" 450 8 (initialApp "450" "8"))
    as ((zip & s' & Hr & Hz & _ & Hs) & _).
  - reflexivity.
  - intros n. reflexivity.
  - cbn. lia.
  - reflexivity.
  - exists zip, s'. split; [exact Hr|]. split; [exact Hz|].
    rewrite Hs. change (Z.to_nat 450) with 450%nat. rewrite Hmarks. reflexivity.
Defined.

(** *** A run nobody interrupts *)

Lemma start_run_fields r s :
  let s0 := start_run r s in
  cancelRequested s0 = false /\ isGenerating s0 = true /\
  progress s0 = [MsgStart (length (activeCategories r)) (perCategory r) (pixelSize r)] /\
  generator s0 = generator s /\ previewImages s0 = previewImages s /\
  suspended s0 = suspended s /\ compressed s0 = compressed s /\
  downloads s0 = downloads s /\ selectedCategories s0 = selectedCategories s /\
  world s0 = world s /\ initialized s0 = initialized s.
Proof. repeat split; reflexivity. Qed.

(** Extra X15.  A run nobody interrupts, in a browser where folders are created and the
    canvas is reached, on a page whose preview keys are distinct ids of the
    registry: the run completes; the archive holds one folder call and the
    requested number of file calls per category; the progress area shows the
    start line, then for every category its line and its reports, then the
    compressing, done and previews-refreshed lines; the suspensions are those
    of the reports, one for the compression and one for every five previews;
    the archive is downloaded. *)
Theorem uninterrupted_run_completes b gen s r :
  canvasReachable gen = true ->
  (forall n, cancelClicked b n = false) ->
  (forall name, folderCreated b name = true) ->
  generator s = Some gen ->
  NoDup (previewImages s).*1 ->
  Forall (fun entry => (entry.1 < length SYMBOL_CATEGORIES)%nat) (previewImages s) ->
  (read_form s).1 = inr r ->
  let categories := activeCategories r in
  let marks := progress_marks (perCategory r) 1 (Z.to_nat (perCategory r)) in
  let final :=
    guarded_generation b gen categories (perCategory r) (pixelSize r)
      (start_run r (read_form s).2) in
  exists zip,
    final.1 = Completed zip /\
    length zip = (length categories * S (Z.to_nat (perCategory r)))%nat /\
    progress final.2 =
      MsgStart (length categories) (perCategory r) (pixelSize r)
        :: run_reports (length categories) (perCategory r) 0 categories
        ++ [MsgCompressing; MsgDone; MsgPreviewsRefreshed] /\
    suspensions final.2 =
      (suspensions s + length categories * length marks + 1
       + length (previewImages s) / 5)%nat /\
    downloads final.2 = downloads s ++ [zip].
Proof.
  intros Hreach Hun Hfolders Hgen Hdup Hkeys Hread categories marks final.
  destruct (read_form_request s r Hread) as (Hactive & _ & _).
  pose proof (read_form_run_state s) as Hstate. unfold run_state in Hstate.
  set (s1 := (read_form s).2) in *.
  assert (Hfields : generator s1 = generator s /\ previewImages s1 = previewImages s /\
                    suspended s1 = suspended s /\ downloads s1 = downloads s).
  { repeat split; congruence. }
  clear Hstate. destruct Hfields as (Hg1 & Hp1 & Hs1 & Hd1).
  destruct (start_run_fields r s1)
    as (Hflag0 & _ & Hprog0 & Hg0 & Hp0 & Hs0 & _ & Hd0 & _).
  set (s0 := start_run r s1) in *.
  assert (Hids : Forall (fun c => (id c < length SYMBOL_CATEGORIES)%nat) categories).
  { subst categories. rewrite Hactive. apply active_categories_valid. }
  destruct (category_loop_transcript b gen Hreach Hun Hfolders (length categories)
              (perCategory r) (pixelSize r) categories Hids 0%nat [] s0 Hflag0)
    as (zip & s2 & Hloops & Hflag2 & Hprog2 & Hsusp2 & Hzip & (Hg2 & Hp2 & _)).
  assert (Hrun : exists s4,
            generation b gen categories (perCategory r) (pixelSize r) s0
              = (Ok (Completed zip), s4) /\
            progress s4 = progress s2 ++ [MsgCompressing; MsgDone; MsgPreviewsRefreshed] /\
            suspensions s4 = (suspensions s2 + 1 + length (previewImages s) / 5)%nat /\
            downloads s4 = downloads s2 ++ [zip]).
  { rewrite generation_after_loops, Hloops, Hflag2.
    unfold mbind at 1, H_bind at 1, appendProgress at 1, modify at 1.
    unfold mbind at 1, H_bind at 1, modify at 1.
    unfold mbind at 1, H_bind at 1. rewrite (suspend_quiet b Hun).
    unfold mbind at 1, H_bind at 1, modify at 1.
    unfold mbind at 1, H_bind at 1, appendProgress at 1, modify at 1.
    set (s3 := set_progress _ _).
    assert (Hg3 : generator s3 = Some gen) by (subst s3; cbn; congruence).
    assert (Hp3 : previewImages s3 = previewImages s) by (subst s3; cbn; congruence).
    destruct (refreshCategoryPreviews_redraws b s3 gen Hg3 Hreach)
      as (s4 & Hr & _ & _ & _ & _ & Hsusp4 & Hrest).
    { rewrite Hp3. exact Hdup. }
    { rewrite Hp3. exact Hkeys. }
    destruct (Hrest Hun) as [Hprog4 _].
    destruct (refreshCategoryPreviews_keeps b s3) as [_ Hd4]. rewrite Hr in Hd4.
    cbn [snd] in Hd4.
    unfold mbind at 1, H_bind at 1. rewrite Hr.
    exists s4. split; [reflexivity|].
    rewrite Hprog4, Hsusp4, Hd4, Hp3. subst s3. unfold suspensions.
    cbn [progress suspended downloads set_progress set_downloads set_suspended
         set_compressed snd].
    rewrite length_app, <- !app_assoc. cbn [length app]. repeat split; lia. }
  destruct Hrun as (s4 & Hrun & Hprog4 & Hsusp4 & Hd4).
  exists zip. subst final. unfold guarded_generation. rewrite Hrun. cbn [fst snd].
  destruct (finally_block_fields s4) as (_ & _ & _ & _ & _ & Hpf & _ & Hdf & Hsf & _).
  unfold suspensions in *. rewrite Hpf, Hdf, Hsf, Hprog4, Hsusp4, Hd4, Hprog2, Hsusp2.
  destruct (category_loop_keeps b gen (length categories) (perCategory r) (pixelSize r)
              categories 0%nat [] s0) as [_ Hd2].
  rewrite Hloops in Hd2. cbn [snd] in Hd2.
  rewrite Hd2, Hd0, Hd1, Hprog0, Hs0, Hs1.
  split; [reflexivity|]. split; [cbn [length] in Hzip; exact Hzip|].
  split; [reflexivity|]. split; [reflexivity|]. reflexivity.
Qed.

(** X15 at three categories of seven icons. *)
Lemma uninterrupted_run_completes_witness :
  let r := request_of three_by_seven in
  let final :=
    guarded_generation quiet_browser p_half (activeCategories r) (perCategory r)
      (pixelSize r) (start_run r (read_form three_by_seven).2) in
  exists zip,
    final.1 = Completed zip /\
    length zip = 24%nat /\
    last (progress final.2) = Some MsgPreviewsRefreshed /\
    suspensions final.2 = 9%nat.
Proof.
  intros r final.
  destruct (uninterrupted_run_completes quiet_browser p_half three_by_seven r)
    as (zip & Ho & Hz & Hp & Hs & _).
  - reflexivity.
  - intros n. reflexivity.
  - intros name. reflexivity.
  - vm_compute. reflexivity.
  - apply (bool_decide_unpack _). vm_compute. exact I.
  - apply (bool_decide_unpack _). vm_compute. exact I.
  - vm_compute. reflexivity.
  - exists zip. fold final in Ho, Hp, Hs. split; [exact Ho|].
    split; [rewrite Hz; vm_compute; reflexivity|].
    split; [rewrite Hp; vm_compute; reflexivity|].
    rewrite Hs. vm_compute. reflexivity.
Defined.

(** *** No archive entry is overwritten *)

Lemma string_app_cons c s t : String c s +:+ t = String c (s +:+ t).
Proof. reflexivity. Qed.

Lemma string_app_length s t : String.length (s +:+ t) = (String.length s + String.length t)%nat.
Proof.
  induction s as [|c s IH]; [reflexivity|].
  rewrite string_app_cons. cbn [String.length]. rewrite IH. reflexivity.
Qed.

Lemma string_app_inj s1 : forall s2 t1 t2,
  String.length s1 = String.length s2 -> s1 +:+ t1 = s2 +:+ t2 -> s1 = s2 /\ t1 = t2.
Proof.
  induction s1 as [|c s1 IH]; intros [|d s2] t1 t2 Hlen Heq; try discriminate Hlen.
  - auto.
  - rewrite !string_app_cons in Heq. injection Heq as -> Heq. injection Hlen as Hlen.
    destruct (IH _ _ _ Hlen Heq) as [-> ->]. auto.
Qed.

Lemma zero_padded_length w : forall n, String.length (zero_padded w n) = w.
Proof.
  induction w as [|w IH]; intros n; cbn [zero_padded]; [reflexivity|].
  rewrite string_app_length, IH. cbn. lia.
Qed.

Lemma digit_char_inj a b :
  (0 <= a < 10)%Z -> (0 <= b < 10)%Z -> digit_char a = digit_char b -> a = b.
Proof.
  intros Ha Hb Heq. apply (f_equal nat_of_ascii) in Heq. unfold digit_char in Heq.
  rewrite !nat_ascii_embedding in Heq by lia. lia.
Qed.

Lemma zero_padded_inj w : forall n m,
  (0 <= n < 10 ^ Z.of_nat w)%Z -> (0 <= m < 10 ^ Z.of_nat w)%Z ->
  zero_padded w n = zero_padded w m -> n = m.
Proof.
  induction w as [|w IH]; intros n m Hn Hm Heq.
  - cbn in Hn, Hm. lia.
  - cbn [zero_padded] in Heq.
    apply string_app_inj in Heq as [Hhigh Hlow]; [|rewrite !zero_padded_length; reflexivity].
    injection Hlow as Hlow.
    rewrite Nat2Z.inj_succ, Z.pow_succ_r in Hn, Hm by lia.
    apply digit_char_inj in Hlow; [|apply Z.mod_pos_bound; lia..].
    apply IH in Hhigh; [|split; [apply Z.div_pos; lia | apply Z.div_lt_upper_bound; lia]..].
    rewrite (Z.div_mod n 10), (Z.div_mod m 10) by lia. congruence.
Qed.

Lemma spec_file_name_inj n m :
  (Z.of_nat n <= 9999)%Z -> (Z.of_nat m <= 9999)%Z ->
  spec_file_name n = spec_file_name m -> n = m.
Proof.
  intros Hn Hm Heq. unfold spec_file_name in Heq.
  apply string_app_inj in Heq as [Heq _]; [|rewrite !zero_padded_length; reflexivity].
  apply zero_padded_inj in Heq; [lia|cbn; lia..].
Qed.

Lemma spec_folder_name_inj k k' key key' :
  (k <= 99)%nat -> (k' <= 99)%nat ->
  spec_folder_name k key = spec_folder_name k' key' -> k = k'.
Proof.
  intros Hk Hk' Heq. unfold spec_folder_name in Heq.
  apply string_app_inj in Heq as [Heq _]; [|rewrite !zero_padded_length; reflexivity].
  apply zero_padded_inj in Heq; [lia|cbn; lia..].
Qed.

Lemma list_map_fmap {A B} (f : A -> B) l : map f l = f <$> l.
Proof. reflexivity. Qed.

Lemma spec_layout_folders count categories : forall k p,
  p ∈ spec_layout k categories count ->
  exists j c, (k <= j < k + length categories)%nat /\ c ∈ categories /\
              path_folder p = spec_folder_name j (key c).
Proof.
  induction categories as [|c rest IH]; intros k p Hp; cbn [spec_layout] in Hp.
  - apply elem_of_nil in Hp as [].
  - apply elem_of_cons in Hp as [-> | Hp].
    { exists k, c. cbn [length path_folder]. split; [lia|]. split; [left|reflexivity]. }
    apply elem_of_app in Hp as [Hp | Hp].
    + rewrite list_map_fmap in Hp. apply list_elem_of_fmap in Hp as (n & -> & _).
      exists k, c. cbn [length path_folder]. split; [lia|]. split; [left|reflexivity].
    + destruct (IH _ _ Hp) as (j & d & Hj & Hd & Hf).
      exists j, d. cbn [length]. split; [lia|]. split; [right; exact Hd|exact Hf].
Qed.

Lemma spec_layout_NoDup count categories :
  (Z.of_nat count <= 9999)%Z ->
  forall k, (k + length categories <= 100)%nat -> NoDup (spec_layout k categories count).
Proof.
  intros Hcount. induction categories as [|c rest IH]; intros k Hk; cbn [spec_layout].
  - constructor.
  - cbn [length] in Hk.
    assert (Hlater : forall p, p ∈ spec_layout (S k) rest count ->
                       path_folder p <> spec_folder_name k (key c)).
    { intros p Hp Heq. destruct (spec_layout_folders _ _ _ _ Hp) as (j & d & Hj & _ & Hf).
      rewrite Hf in Heq. apply spec_folder_name_inj in Heq; lia. }
    rewrite list_map_fmap. apply NoDup_cons. split.
    + intros Hin. apply elem_of_app in Hin as [Hin | Hin].
      * apply list_elem_of_fmap in Hin as (n & Hn & _). discriminate Hn.
      * apply (Hlater _ Hin). reflexivity.
    + apply NoDup_app. split; [|split].
      * apply NoDup_fmap_2_strong; [|apply NoDup_seq].
        intros n m Hn Hm Heq. apply elem_of_seq in Hn, Hm.
        apply (f_equal (fun p => match p with FilePath _ name => name | FolderPath f => f end))
          in Heq.
        apply spec_file_name_inj in Heq; [exact Heq|lia..].
      * intros p Hp Hin. apply list_elem_of_fmap in Hp as (n & -> & _).
        apply (Hlater _ Hin). reflexivity.
      * apply IH. lia.
Qed.

(** Extra X16.  No archive entry overwrites another: folder names of different positions
    differ (below 99), file names of different indices differ (below 9999),
    and in the archive an uninterrupted run downloads no two calls name
    the same path. *)
Theorem archive_paths_are_distinct b gen s r :
  canvasReachable gen = true ->
  (forall n, cancelClicked b n = false) ->
  (forall name, folderCreated b name = true) ->
  (read_form s).1 = inr r ->
  let final :=
    guarded_generation b gen (activeCategories r) (perCategory r) (pixelSize r)
      (start_run r (read_form s).2) in
  (forall i j c d, (i < 99)%nat -> (j < 99)%nat ->
     folderNameOf i c = folderNameOf j d -> i = j) /\
  (forall m n, (Z.of_nat m < 9999)%Z -> (Z.of_nat n < 9999)%Z ->
     fileNameOf m = fileNameOf n -> m = n) /\
  exists zip,
    downloads final.2 = downloads s ++ [zip] /\
    NoDup (map path_of zip).
Proof.
  intros Hreach Hquiet Hfolders Hr final. split; [|split].
  - intros i j c d Hi Hj Heq. rewrite !folderNameOf_spec in Heq by lia.
    apply spec_folder_name_inj in Heq; lia.
  - intros m n Hm Hn Heq. rewrite !fileNameOf_spec in Heq by lia.
    apply spec_file_name_inj in Heq; lia.
  - set (s0 := start_run r (read_form s).2) in *.
    destruct (read_form_request s r Hr) as (Hact & Hcount & _).
    unfold MAX_PER_CATEGORY in Hcount.
    assert (Hids : Forall (fun c => (id c < length SYMBOL_CATEGORIES)%nat) (activeCategories r))
      by (rewrite Hact; apply active_categories_valid).
    assert (Hlen : (length (activeCategories r) <= 10)%nat)
      by (rewrite Hact; apply (length_filter _ SYMBOL_CATEGORIES)).
    destruct (category_loop_paths b gen Hreach Hquiet Hfolders
                (length (activeCategories r)) (perCategory r) (pixelSize r)
                (activeCategories r) Hids ltac:(lia) 0%nat [] s0 eq_refl ltac:(simpl; lia))
      as (zip & s1 & Hl & Hc & Hp).
    exists zip. split.
    + destruct (guarded_generation_downloads b gen _ _ _ _ _ _ Hl Hc) as (_ & Hd & _).
      fold final in Hd. rewrite Hd.
      destruct (category_loop_keeps b gen (length (activeCategories r)) (perCategory r)
                  (pixelSize r) (activeCategories r) 0 [] s0) as [_ Hk].
      rewrite Hl in Hk. simpl in Hk. rewrite Hk. subst s0.
      pose proof (read_form_run_state s) as Hrs. unfold run_state in Hrs.
      injection Hrs as _ _ _ _ _ _ _ _ _ _ _ Hdl. simpl. rewrite Hdl. reflexivity.
    + rewrite Hp. apply spec_layout_NoDup; [lia|]. cbn. lia.
Qed.

(** X16 at three categories of seven icons. *)
Lemma archive_paths_are_distinct_witness :
  let r := request_of three_by_seven in
  let final :=
    guarded_generation quiet_browser p_half (activeCategories r) (perCategory r)
      (pixelSize r) (start_run r (read_form three_by_seven).2) in
  exists zip,
    downloads final.2 = [zip] /\ NoDup (map path_of zip).
Proof.
  intros r final.
  destruct (archive_paths_are_distinct quiet_browser p_half three_by_seven r)
    as (_ & _ & zip & Hd & Hdup).
  - reflexivity.
  - intros n. reflexivity.
  - intros name. reflexivity.
  - vm_compute. reflexivity.
  - exists zip. split; [|exact Hdup]. fold final in Hd. rewrite Hd. reflexivity.
Defined.

(** *** Initialisation *)

Lemma createCategoryCard_step categoryId label gen s :
  generator s = Some gen ->
  createCategoryCard categoryId label s =
  match generateIcon gen (categoryNumber categoryId) (Some (inject_Z PREVIEW_SIZE)) (world s) with
  | (Ok src, w) => (Ok tt, with_card categoryId src w s)
  | (Throw e, w) => (Throw e, set_world w s)
  end.
Proof.
  intros Hgen. unfold createCategoryCard. rewrite Hgen.
  unfold mbind at 1, H_bind at 1, lift at 1.
  destruct (generateIcon _ _ _ _) as [[src | e] w]; reflexivity.
Qed.

Lemma map_set_fresh categoryId src m :
  categoryId ∉ m.*1 -> map_set categoryId src m = m ++ [(categoryId, src)].
Proof.
  induction m as [|[k v] m IH]; intros Hfresh; cbn [map_set app]; [reflexivity|].
  cbn [fmap list_fmap fst] in Hfresh. apply not_elem_of_cons in Hfresh as [Hk Hm].
  destruct (k =? categoryId)%nat eqn:Hkk; [apply Nat.eqb_eq in Hkk; congruence|].
  rewrite IH by exact Hm. reflexivity.
Qed.

Lemma suspend_idle b s :
  isGenerating s = false ->
  suspend b s = (Ok tt, set_suspended (suspended s ++ [snapshot s]) s).
Proof.
  intros Hidle. unfold suspend, cancelButton_click.
  cbn [isGenerating set_suspended]. rewrite Hidle.
  destruct (cancelClicked b _); reflexivity.
Qed.

Lemma renderCategoryGrid_loop_cards b gen :
  canvasReachable gen = true ->
  forall categories s,
    generator s = Some gen ->
    isGenerating s = false ->
    Forall (fun c => (id c < length SYMBOL_CATEGORIES)%nat) categories ->
    NoDup ((previewImages s).*1 ++ (id <$> categories)) ->
    exists s',
      renderCategoryGrid_loop b categories s = (Ok tt, s') /\
      (previewImages s').*1 = (previewImages s).*1 ++ (id <$> categories) /\
      (Forall preview_sized (previewImages s) -> Forall preview_sized (previewImages s')) /\
      selectedCategories s' = list_to_set (id <$> categories) ∪ selectedCategories s /\
      checkboxes s' = checkboxes s ++ ((fun c => (id c, false)) <$> categories) /\
      suspensions s' = (suspensions s + grid_yields categories)%nat /\
      idle_state s' = idle_state s.
Proof.
  intros Hreach. induction categories as [|c rest IH]; intros s Hgen Hidle Hids Hdup.
  - exists s. cbn [renderCategoryGrid_loop fmap list_fmap grid_yields filter list_filter length].
    rewrite !app_nil_r, Nat.add_0_r, list_to_set_nil, (left_id_L ∅ (∪)). repeat split; auto.
  - apply Forall_cons in Hids as [Hid Hids].
    cbn [renderCategoryGrid_loop]. unfold mbind at 1, H_bind at 1.
    rewrite (createCategoryCard_step _ _ gen s Hgen).
    destruct (generateIcon_registered gen (id c) (Some (inject_Z PREVIEW_SIZE)) (world s) Hid)
      as (w' & -> & Hw & Hh & _).
    rewrite Hreach.
    set (src := {| mime := "image/png"; image := g w' |}).
    set (s1 := with_card (id c) src w' s).
    assert (Hfresh : id c ∉ (previewImages s).*1).
    { apply NoDup_app in Hdup as (_ & Hdis & _). intros Hin. apply (Hdis _ Hin). left. }
    assert (Hp1 : previewImages s1 = previewImages s ++ [(id c, src)]).
    { subst s1. cbn [with_card previewImages set_selectedCategories set_previewImages].
      apply map_set_fresh. exact Hfresh. }
    unfold mbind at 1, H_bind at 1.
    set (s2 := if ((id c + 1) mod 5 =? 0)%nat
               then set_suspended (suspended s1 ++ [snapshot s1]) s1 else s1).
    assert (Hyield : (if ((id c + 1) mod 5 =? 0)%nat then yieldToBrowser b else mret tt) s1
                     = (Ok tt, s2)).
    { subst s2. destruct (_ =? 0)%nat; [|reflexivity].
      unfold yieldToBrowser. apply suspend_idle. exact Hidle. }
    rewrite Hyield.
    assert (Hp2 : previewImages s2 = previewImages s ++ [(id c, src)]).
    { rewrite <- Hp1. subst s2. destruct (_ =? 0)%nat; reflexivity. }
    destruct (IH s2) as (s' & Hr & Hkeys & Hsized & Hsel & Hboxes & Hsusp & Hstate).
    { subst s2. destruct (_ =? 0)%nat; exact Hgen. }
    { subst s2. destruct (_ =? 0)%nat; exact Hidle. }
    { exact Hids. }
    { rewrite Hp2, fmap_app, <- app_assoc. exact Hdup. }
    exists s'. split; [exact Hr|].
    rewrite Hkeys, Hsel, Hboxes, Hsusp, Hstate, Hp2.
    split; [rewrite fmap_app, <- app_assoc; reflexivity|].
    split.
    { intros Hold. apply Hsized. rewrite Hp2. apply Forall_app. split; [exact Hold|].
      constructor; [|constructor]. split; cbn [snd image src]; [rewrite Hw|rewrite Hh];
        reflexivity. }
    unfold grid_yields. cbn [fmap list_fmap]. rewrite filter_cons.
    subst s2 s1. unfold suspensions.
    destruct ((id c + 1) mod 5 =? 0)%nat eqn:Hfifth.
    + rewrite decide_True by reflexivity.
      cbn [selectedCategories checkboxes suspended set_suspended with_card
           set_selectedCategories set_previewImages set_checkboxes set_world length].
      rewrite length_app, <- app_assoc. cbn [length app].
      split; [rewrite list_to_set_cons, (comm_L (∪) {[id c]} (list_to_set (id <$> rest))),
                <- (assoc_L (∪)); reflexivity|].
      split; [reflexivity|]. split; [lia|reflexivity].
    + rewrite decide_False by discriminate.
      cbn [selectedCategories checkboxes suspended set_suspended with_card
           set_selectedCategories set_previewImages set_checkboxes set_world length].
      rewrite <- app_assoc. cbn [length app].
      split; [rewrite list_to_set_cons, (comm_L (∪) {[id c]} (list_to_set (id <$> rest))),
                <- (assoc_L (∪)); reflexivity|].
      split; [reflexivity|]. split; [lia|reflexivity].
Qed.

Lemma getIconGenerator_returns w : exists pr w', getIconGenerator w = (Ok pr, w').
Proof.
  destruct (generatorPromise w) as [pr|] eqn:Hpr.
  - rewrite (getIconGenerator_cached w pr Hpr). eauto.
  - rewrite (getIconGenerator_first w Hpr). eauto.
Qed.

Lemma renderCategoryGrid_cards b gen s :
  canvasReachable gen = true ->
  generator s = Some gen ->
  isGenerating s = false ->
  exists s',
    renderCategoryGrid b s = (Ok tt, s') /\
    (previewImages s').*1 = id <$> SYMBOL_CATEGORIES /\
    Forall preview_sized (previewImages s') /\
    selectedCategories s' = list_to_set (id <$> SYMBOL_CATEGORIES) /\
    checkboxes s' = (fun c => (id c, false)) <$> SYMBOL_CATEGORIES /\
    suspensions s' = (suspensions s + 2)%nat /\
    progress s' = progress s ++ [MsgPreviewsLoaded] /\
    disabled s' =
      {| generateButton := false; cancelButton := true; countInput := false;
         pixelInput := false; refreshButton := negb (initialized s) |} /\
    (generator s', isGenerating s', initialized s', cancelRequested s', compressed s',
     downloads s', countValue s', pixelValue s')
    = (generator s, isGenerating s, initialized s, cancelRequested s, compressed s,
       downloads s, countValue s, pixelValue s).
Proof.
  intros Hreach Hgen Hidle. unfold renderCategoryGrid. rewrite Hgen.
  unfold mbind at 1, H_bind at 1, modify at 1.
  unfold mbind at 1, H_bind at 1, modify at 1.
  unfold mbind at 1, H_bind at 1, modify at 1.
  set (s1 := set_previewImages [] _).
  destruct (renderCategoryGrid_loop_cards b gen Hreach SYMBOL_CATEGORIES s1)
    as (s2 & Hr & Hkeys & Hsized & Hsel & Hboxes & Hsusp & Hstate).
  { exact Hgen. }
  { exact Hidle. }
  { repeat constructor; cbn; lia. }
  { apply (bool_decide_unpack _). vm_compute. exact I. }
  unfold mbind at 1, H_bind at 1. rewrite Hr.
  eexists. split; [reflexivity|].
  unfold idle_state in Hstate. injection Hstate as Hf1 Hf2 Hf3 Hf4 Hf5 Hf6 Hf7 Hf8 Hf9 Hf10.
  unfold suspensions in *.
  cbn [previewImages selectedCategories checkboxes suspended set_previewImages
       set_selectedCategories set_checkboxes app fmap list_fmap] in Hkeys, Hsel, Hboxes, Hsusp.
  cbn [appendProgress updateUiState modify snd previewImages selectedCategories checkboxes
       suspended progress disabled generator isGenerating initialized cancelRequested
       compressed downloads countValue pixelValue set_progress set_checkboxes set_disabled].
  rewrite Hsel, Hboxes, Hsusp, Hf1, Hf2, Hf3, Hf4, Hf6, Hf7, Hf8, Hf9, Hf10, Hidle.
  cbn [negb orb].
  split; [exact Hkeys|]. split; [apply Hsized; constructor|].
  split; [apply (right_id_L ∅ (∪))|].
  split; [|rewrite ?Hgen; repeat split; reflexivity].
  reflexivity.
Qed.

(** Extra X17.  The first [ensureGenerator] on a page that is not generating, with a
    canvas that can be reached: the generator is set, the page initialised,
    every category of the registry selected, one preview of the preview size
    and one enabled checkbox per category in registry order, the generate
    and refresh buttons enabled, the four initialisation lines in the
    progress area, three suspensions; and a later [ensureGenerator] returns
    at once. *)
Theorem ensureGenerator_builds_grid b s :
  generator s = None ->
  isGenerating s = false ->
  canvasReachable (p5 b) = true ->
  exists s',
    ensureGenerator b s = (Ok tt, s') /\
    generator s' = Some (p5 b) /\
    initialized s' = true /\
    selectedCategories s' = list_to_set (id <$> SYMBOL_CATEGORIES) /\
    (previewImages s').*1 = id <$> SYMBOL_CATEGORIES /\
    Forall preview_sized (previewImages s') /\
    checkboxes s' = (fun c => (id c, false)) <$> SYMBOL_CATEGORIES /\
    disabled s' =
      {| generateButton := false; cancelButton := true; countInput := false;
         pixelInput := false; refreshButton := false |} /\
    progress s' = [MsgInitialising; MsgInitialised; MsgPreviewsLoaded; MsgReadyForInput] /\
    suspensions s' = (suspensions s + 3)%nat /\
    forall b', ensureGenerator b' s' = (Ok tt, s').
Proof.
  intros Hnone Hidle Hreach. unfold ensureGenerator at 1. rewrite Hnone.
  unfold mbind at 1, H_bind at 1, appendProgress at 1, modify at 1.
  unfold mbind at 1, H_bind at 1, lift at 1.
  destruct (getIconGenerator_returns (world (set_progress ([] ++ [MsgInitialising]) s)))
    as (pr & w1 & ->).
  unfold mbind at 1, H_bind at 1. rewrite suspend_idle by exact Hidle.
  unfold mbind at 1, H_bind at 1, modify at 1.
  unfold mbind at 1, H_bind at 1, modify at 1.
  unfold mbind at 1, H_bind at 1, appendProgress at 1, modify at 1.
  set (s1 := set_progress _ _).
  destruct (renderCategoryGrid_cards b (p5 b) s1 Hreach eq_refl Hidle)
    as (s2 & Hr & Hkeys & Hsized & Hsel & Hboxes & Hsusp & Hprog & Hdis & Hstate).
  unfold mbind at 1, H_bind at 1. rewrite Hr.
  injection Hstate as Hg Hi Hinit _ _ _ _ _.
  eexists. split; [reflexivity|].
  unfold suspensions in *.
  cbn [appendProgress modify snd previewImages selectedCategories checkboxes
       suspended progress disabled generator isGenerating initialized set_progress].
  rewrite Hg, Hinit, Hsel, Hkeys, Hboxes, Hdis, Hprog, Hsusp.
  subst s1.
  cbn [generator initialized progress suspended set_progress set_initialized set_generator
       set_suspended set_world negb app].
  rewrite length_app. cbn [length].
  repeat split; try reflexivity; try assumption; try lia.
  intros b'. unfold ensureGenerator. cbn [generator set_progress]. rewrite Hg. reflexivity.
Qed.

(** X17 at the page as loaded. *)
Lemma ensureGenerator_builds_grid_witness :
  exists s',
    ensureGenerator quiet_browser (initialApp "100" "64") = (Ok tt, s') /\
    selectedCategories s' = list_to_set (seq 0 10) /\
    length (previewImages s') = 10%nat /\
    suspensions s' = 3%nat.
Proof.
  destruct (ensureGenerator_builds_grid quiet_browser (initialApp "100" "64"))
    as (s' & Hr & _ & _ & Hsel & Hkeys & _ & _ & _ & _ & Hsusp & _).
  - reflexivity.
  - reflexivity.
  - reflexivity.
  - exists s'. split; [exact Hr|]. split; [exact Hsel|].
    split; [rewrite <- (length_fmap fst), Hkeys; reflexivity|exact Hsusp].
Defined.

Lemma renderCategoryGrid_loop_unreachable b gen category rest s :
  generator s = Some gen ->
  canvasReachable gen = false ->
  (id category < length SYMBOL_CATEGORIES)%nat ->
  exists w,
    renderCategoryGrid_loop b (category :: rest) s = (Throw CanvasUnavailable, set_world w s).
Proof.
  intros Hgen Hreach Hid. cbn [renderCategoryGrid_loop]. unfold mbind at 1, H_bind at 1.
  rewrite (createCategoryCard_step _ _ gen s Hgen).
  destruct (generateIcon_registered gen (id category) (Some (inject_Z PREVIEW_SIZE))
              (world s) Hid) as (w' & -> & _).
  rewrite Hreach. exists w'. reflexivity.
Qed.

(** Extra X18.  If the canvas cannot be reached, the initialisation the module starts
    when it is loaded fails while drawing the first preview: the controls
    are as [updateUiState] set them at the start, the generator is set and
    the page initialised with no card, no preview and nothing selected, and
    the progress area ends at the line that reports the generator.  Every
    submission after that is rejected with the message of the first check
    its form fails, the selection being empty, and changes nothing but the
    progress area and the form fields. *)
Theorem failed_initialisation_blocks_page b s :
  generator s = None ->
  isGenerating s = false ->
  canvasReachable (p5 b) = false ->
  let s1 := (load b s).2 in
  (load b s).1 = Throw CanvasUnavailable /\
  generator s1 = Some (p5 b) /\
  initialized s1 = true /\
  selectedCategories s1 = ∅ /\
  previewImages s1 = [] /\
  checkboxes s1 = [] /\
  disabled s1 =
    {| generateButton := false; cancelButton := true; countInput := false;
       pixelInput := false; refreshButton := negb (initialized s) |} /\
  progress s1 = [MsgInitialising; MsgInitialised] /\
  forall b', exists m,
    (submit b' s1).1 = Rejected m /\
    m = first_failed_check s /\
    run_state (submit b' s1).2 = run_state s1.
Proof.
  intros Hnone Hidle Hreach.
  set (s0 := (updateUiState s).2).
  assert (Hload : load b s = ensureGenerator b s0) by reflexivity.
  assert (Hnone0 : generator s0 = None) by exact Hnone.
  assert (Hidle0 : isGenerating s0 = false) by exact Hidle.
  assert (Hdis : disabled s0 =
            {| generateButton := false; cancelButton := true; countInput := false;
               pixelInput := false; refreshButton := negb (initialized s) |}).
  { subst s0. unfold updateUiState, modify. cbn [snd disabled set_checkboxes set_disabled].
    rewrite Hidle. reflexivity. }
  assert (Hform : countValue s0 = countValue s /\ pixelValue s0 = pixelValue s)
    by (split; reflexivity).
  clearbody s0.
  assert (Hrun : exists w,
            ensureGenerator b s0 =
              (Throw CanvasUnavailable,
               set_world w
                 (set_previewImages []
                    (set_selectedCategories ∅
                       (set_checkboxes []
                          (set_progress [MsgInitialising; MsgInitialised]
                             (set_initialized true
                                (set_generator (Some (p5 b))
                                   (set_suspended (suspended s0 ++ [snapshot
                                      (set_progress [MsgInitialising] s0)]) s0))))))))).
  { unfold ensureGenerator. rewrite Hnone0.
    unfold mbind at 1, H_bind at 1, appendProgress at 1, modify at 1.
    unfold mbind at 1, H_bind at 1, lift at 1.
    destruct (getIconGenerator_returns (world (set_progress ([] ++ [MsgInitialising]) s0)))
      as (pr & w1 & ->).
    unfold mbind at 1, H_bind at 1. rewrite suspend_idle by exact Hidle0.
    unfold mbind at 1, H_bind at 1, modify at 1.
    unfold mbind at 1, H_bind at 1, modify at 1.
    unfold mbind at 1, H_bind at 1, appendProgress at 1, modify at 1.
    unfold mbind at 1, H_bind at 1, renderCategoryGrid at 1.
    cbn [generator set_progress set_initialized set_generator].
    unfold mbind at 1, H_bind at 1, modify at 1.
    unfold mbind at 1, H_bind at 1, modify at 1.
    unfold mbind at 1, H_bind at 1, modify at 1.
    unfold mbind at 1, H_bind at 1.
    set (s2 := set_previewImages [] _).
    destruct (renderCategoryGrid_loop_unreachable b (p5 b)
                {| id := 0; key := "city-hall"; label := "shiyakusho" |}
                (tail SYMBOL_CATEGORIES) s2 eq_refl Hreach ltac:(cbn; lia)) as (w & Hloop).
    change ({| id := 0; key := "city-hall"; label := "shiyakusho" |} :: tail SYMBOL_CATEGORIES)
      with SYMBOL_CATEGORIES in Hloop.
    rewrite Hloop. exists w. subst s2. destruct s0. reflexivity. }
  destruct Hrun as (w & Hrun).
  rewrite Hload, Hrun. cbn zeta. cbn [fst snd].
  split; [reflexivity|]. split; [reflexivity|]. split; [reflexivity|].
  split; [reflexivity|]. split; [reflexivity|]. split; [reflexivity|].
  split; [exact Hdis|]. split; [reflexivity|].
  intros b'. set (s1 := set_world w _).
  rewrite (submit_with_generator b' (p5 b) s1 eq_refl). unfold submit_ready.
  destruct (read_form_rejects s1) as (m & Hm); [right; right; reflexivity|].
  pose proof (read_form_message s1 m Hm) as Hmsg.
  pose proof (read_form_run_state s1) as Hstate.
  destruct (read_form s1) as [[m'|r] s2]; cbn [fst snd] in *; [|discriminate].
  injection Hm as ->.
  exists m. split; [reflexivity|]. split.
  { rewrite Hmsg. unfold first_failed_check. destruct Hform as [Hcv Hpv].
    change (countValue s1) with (countValue s0). change (pixelValue s1) with (pixelValue s0).
    rewrite Hcv, Hpv. reflexivity. }
  rewrite <- Hstate. destruct s2. reflexivity.
Qed.

(** X18 at a p5 instance without a canvas: a valid form is rejected for its selection. *)
Lemma failed_initialisation_blocks_page_witness :
  let b := {| p5 := {| sample := fun _ => 1 # 2; canvasReachable := false |};
              cancelClicked := fun _ => false; folderCreated := fun _ => true |} in
  (load b (initialApp "100" "64")).1 = Throw CanvasUnavailable /\
  refreshButton (disabled (load b (initialApp "100" "64")).2) = true /\
  (submit quiet_browser (load b (initialApp "100" "64")).2).1 = Rejected MsgNoCategory.
Proof.
  intros b.
  destruct (failed_initialisation_blocks_page b (initialApp "100" "64") eq_refl eq_refl eq_refl)
    as (Ho & _ & _ & _ & _ & _ & Hdis & _ & Hsub).
  split; [exact Ho|]. split; [rewrite Hdis; reflexivity|].
  destruct (Hsub quiet_browser) as (m & Hm & -> & _). exact Hm.
Defined.

(** *** The checkbox of a card *)




(** *** The refresh button *)

Lemma waits_refl s : waits s s.
Proof.
  intros Hidle. repeat split; auto. exists []. rewrite app_nil_r. split; [reflexivity|constructor].
Qed.

Lemma waits_trans s1 s2 s3 : waits s1 s2 -> waits s2 s3 -> waits s1 s3.
Proof.
  intros H12 H23 Hidle.
  destruct (H12 Hidle) as (Hi2 & Hd2 & Hin2 & new2 & Hs2 & Hshown2).
  destruct (H23 Hi2) as (Hi3 & Hd3 & Hin3 & new3 & Hs3 & Hshown3).
  split; [exact Hi3|]. split; [congruence|]. split; [congruence|].
  exists (new2 ++ new3). rewrite Hs3, Hs2, app_assoc. split; [reflexivity|].
  apply Forall_app. split; [exact Hshown2|]. rewrite <- Hd2. exact Hshown3.
Qed.

Lemma waits_same s s' :
  isGenerating s' = isGenerating s -> disabled s' = disabled s ->
  initialized s' = initialized s -> suspended s' = suspended s -> waits s s'.
Proof.
  intros Hi Hd Hin Hs Hidle. split; [congruence|]. split; [exact Hd|]. split; [exact Hin|].
  exists []. rewrite app_nil_r. split; [exact Hs|constructor].
Qed.

Lemma waiting_lift {A} (m : M A) : preserving waits (lift m).
Proof. intros s. unfold lift. destruct (m (world s)). apply waits_same; reflexivity. Qed.

Lemma waiting_appendProgress m r : preserving waits (appendProgress m r).
Proof. intros s. apply waits_same; reflexivity. Qed.

Lemma waiting_suspend b : preserving waits (suspend b).
Proof.
  intros s Hidle. rewrite (suspend_idle b s Hidle). cbn [snd].
  split; [exact Hidle|]. split; [reflexivity|]. split; [reflexivity|].
  exists [snapshot s]. split; [reflexivity|]. constructor; [reflexivity|constructor].
Qed.

Lemma waiting_yield b : preserving waits (yieldToBrowser b).
Proof. apply waiting_suspend. Qed.

Lemma waiting_modify (f : App -> App) :
  (forall s, isGenerating (f s) = isGenerating s) ->
  (forall s, disabled (f s) = disabled s) ->
  (forall s, initialized (f s) = initialized s) ->
  (forall s, suspended (f s) = suspended s) ->
  preserving waits (modify f).
Proof. intros Hi Hd Hin Hs s. apply waits_same; cbn [modify snd]; auto. Qed.

Create HintDb waiting.

#[local] Hint Resolve waits_refl waits_trans waiting_lift waiting_appendProgress
  waiting_suspend waiting_yield : waiting.

Ltac wait_through :=
  repeat first
    [ solve [eauto with waiting]
    | apply preserving_bind; [solve [eauto with waiting] | | intros ?]
    | apply preserving_if
    | apply preserving_ret; solve [eauto with waiting]
    | apply waiting_modify; reflexivity ].

Lemma refreshCategoryPreviews_loop_waits b gen entries :
  forall counter, preserving waits (refreshCategoryPreviews_loop b gen entries counter).
Proof.
  induction entries as [|[categoryId image] rest IH]; intros counter;
    cbn [refreshCategoryPreviews_loop]; wait_through.
Qed.

Lemma refreshCategoryPreviews_waits b : preserving waits (refreshCategoryPreviews b).
Proof.
  intros s. unfold refreshCategoryPreviews. destruct (generator s) as [gen|];
    [|apply waits_refl].
  apply (preserving_bind waits waits_trans
           (refreshCategoryPreviews_loop b gen (previewImages s) 0)).
  - apply refreshCategoryPreviews_loop_waits.
  - intros ?. apply waiting_appendProgress.
Qed.

(** Extra X20.  The click listener of the refresh button: on a page that is not
    initialised or is generating it does nothing; otherwise, with a canvas
    that can be reached and preview keys that are distinct ids of the
    registry, it returns with the refresh button enabled again, every
    suspension in between showing the button disabled, the keys of the
    previews kept, every preview redrawn at the preview size and the refresh
    reported last. *)
Theorem refresh_click_guards_and_reenables b s :
  (initialized s = false \/ isGenerating s = true -> refreshButton_click b s = (Ok tt, s)) /\
  (initialized s = true -> isGenerating s = false ->
   forall gen,
     generator s = Some gen ->
     canvasReachable gen = true ->
     NoDup (previewImages s).*1 ->
     Forall (fun entry => (entry.1 < length SYMBOL_CATEGORIES)%nat) (previewImages s) ->
     exists s' new,
       refreshButton_click b s = (Ok tt, s') /\
       refreshButton (disabled s') = false /\
       suspended s' = suspended s ++ new /\
       Forall (fun shot => refreshButton (shownDisabled shot) = true) new /\
       (previewImages s').*1 = (previewImages s).*1 /\
       Forall preview_sized (previewImages s') /\
       last (progress s') = Some MsgPreviewsRefreshed).
Proof.
  split.
  - intros Hguard. unfold refreshButton_click.
    replace (negb (initialized s) || isGenerating s) with true; [reflexivity|].
    destruct Hguard as [-> | ->]; [reflexivity|]. symmetry. apply orb_true_r.
  - intros Hinit Hidle gen Hgen Hreach Hdup Hkeys.
    unfold refreshButton_click. rewrite Hinit, Hidle. cbn [negb orb].
    unfold mbind at 1, H_bind at 1, modify at 1.
    set (s1 := set_disabled _ s).
    destruct (refreshCategoryPreviews_redraws b s1 gen Hgen Hreach Hdup Hkeys)
      as (s2 & Hr & Hk2 & Hsz2 & _ & Hlast & _).
    pose proof (refreshCategoryPreviews_waits b s1 Hidle) as Hw. rewrite Hr in Hw.
    cbn [snd] in Hw. destruct Hw as (Hi2 & Hd2 & Hin2 & new & Hs2 & Hshown).
    unfold mbind at 1, H_bind at 1. rewrite Hr.
    eexists _, new. split; [reflexivity|].
    cbn [updateUiState modify snd disabled refreshButton suspended previewImages progress
         set_checkboxes set_disabled].
    rewrite Hi2, Hin2, Hs2, Hk2. subst s1. cbn [initialized set_disabled suspended previewImages].
    rewrite Hinit. split; [reflexivity|]. split; [reflexivity|].
    split; [|auto].
    eapply Forall_impl; [exact Hshown|]. intros shot ->. reflexivity.
Qed.

(** X20 at the page as loaded, where the click does nothing, and the initialised page. *)
Lemma refresh_click_guards_and_reenables_witness :
  refreshButton_click quiet_browser (initialApp "1" "8") = (Ok tt, initialApp "1" "8") /\
  exists s' new,
    refreshButton_click quiet_browser (ready_page "1" "8") = (Ok tt, s') /\
    refreshButton (disabled s') = false /\
    suspended s' = suspended (ready_page "1" "8") ++ new /\
    Forall (fun shot => refreshButton (shownDisabled shot) = true) new.
Proof.
  destruct (refresh_click_guards_and_reenables quiet_browser (initialApp "1" "8"))
    as [Hguard _].
  split; [apply Hguard; left; reflexivity|].
  destruct (refresh_click_guards_and_reenables quiet_browser (ready_page "1" "8"))
    as [_ Hrun].
  destruct (Hrun ltac:(vm_compute; reflexivity) ltac:(vm_compute; reflexivity) p_half)
    as (s' & new & Hr & Hbutton & Hs & Hshown & _).
  - vm_compute. reflexivity.
  - reflexivity.
  - apply (bool_decide_unpack _). vm_compute. exact I.
  - apply (bool_decide_unpack _). vm_compute. exact I.
  - exists s', new. split; [exact Hr|]. split; [exact Hbutton|]. split; [exact Hs|].
    exact Hshown.
Defined.

(** ** Navigation *)

Section NavigationLaws.
Import Navigation.

Lemma setupNavigation_twice d : setupNavigation (setupNavigation d) = setupNavigation d.
Proof.
  unfold setupNavigation at 2 3.
  destruct (negb (hasToggle d) || negb (hasNav d)) eqn:Hmissing.
  - unfold setupNavigation. rewrite Hmissing. reflexivity.
  - destruct (bool_decide (dataset_navInitialised d = Some "true")) eqn:Hdone.
    + unfold setupNavigation. rewrite Hmissing, Hdone. reflexivity.
    + unfold setupNavigation. cbn [hasToggle hasNav dataset_navInitialised].
      rewrite Hmissing. reflexivity.
Qed.

Lemma setupNavigation_iter n d :
  Nat.iter (S n) setupNavigation d = setupNavigation d.
Proof.
  induction n as [|n IH]; [reflexivity|].
  change (Nat.iter (S (S n)) setupNavigation d)
    with (setupNavigation (Nat.iter (S n) setupNavigation d)).
  rewrite IH. apply setupNavigation_twice.
Qed.

(** Extra X21.  [setupNavigation] attaches its listeners at most once: called any
    number of times it does what one call does; without the menu button or
    the navigation element, or with the navigation marked as initialised, it
    does nothing; otherwise it marks the navigation, attaches the listeners
    once and leaves the menu state alone. *)
Theorem setupNavigation_attaches_once d n :
  Nat.iter (S n) setupNavigation d = setupNavigation d /\
  (hasToggle d = false \/ hasNav d = false \/ dataset_navInitialised d = Some "true" ->
   setupNavigation d = d) /\
  (hasToggle d = true -> hasNav d = true -> dataset_navInitialised d <> Some "true" ->
   attached (Nat.iter (S n) setupNavigation d) = S (attached d) /\
   dataset_navInitialised (setupNavigation d) = Some "true" /\
   dataset_open (setupNavigation d) = dataset_open d /\
   aria_expanded (setupNavigation d) = aria_expanded d).
Proof.
  split; [apply setupNavigation_iter|]. split.
  - intros [Htoggle | [Hnav | Hdone]]; unfold setupNavigation.
    + rewrite Htoggle. reflexivity.
    + rewrite Hnav. cbn [negb]. rewrite orb_true_r. reflexivity.
    + rewrite bool_decide_eq_true_2 by exact Hdone.
      destruct (negb (hasToggle d) || negb (hasNav d)); reflexivity.
  - intros Htoggle Hnav Hfresh. rewrite setupNavigation_iter. unfold setupNavigation.
    rewrite Htoggle, Hnav, bool_decide_eq_false_2 by exact Hfresh.
    repeat split; reflexivity.
Qed.

(** X21 at three calls on a fresh page. *)
Lemma setupNavigation_attaches_once_witness :
  let page := {| hasToggle := true; hasNav := true; dataset_navInitialised := None;
                 dataset_open := None; aria_expanded := Some "false"; attached := 0 |} in
  attached (Nat.iter 3 setupNavigation page) = 1%nat.
Proof.
  intros page.
  destruct (setupNavigation_attaches_once page 2) as (_ & _ & Hfresh).
  apply Hfresh; [reflexivity|reflexivity|discriminate].
Defined.

Lemma closeNav_fields d :
  is_open (closeNav d) = false /\ nav_synced (closeNav d) /\
  attached (closeNav d) = attached d /\
  dataset_navInitialised (closeNav d) = dataset_navInitialised d.
Proof. repeat split. Qed.

Lemma openNav_fields d :
  is_open (openNav d) = true /\ nav_synced (openNav d) /\
  attached (openNav d) = attached d /\
  dataset_navInitialised (openNav d) = dataset_navInitialised d.
Proof. repeat split. Qed.

Lemma click_once narrow t d :
  attached d = 1%nat ->
  click narrow t d =
  match t with
  | OnToggle => toggle_click d
  | OnLink => document_click t (link_click narrow d)
  | InNav | Elsewhere | NotANode => document_click t d
  end.
Proof.
  intros Hone. unfold click. rewrite Hone. destruct t; reflexivity.
Qed.

(** Extra X22.  The menu, its listeners attached once: a click either changes nothing
    or leaves [aria-expanded] equal to [data-open]; a click on the button
    flips the menu; a click inside the navigation leaves it as it is; a
    click elsewhere leaves it closed; a click on a link closes it on a
    narrow window and leaves it otherwise; so the menu opens by a click on
    the button only; no click touches the listeners or the mark. *)
Theorem menu_opens_by_button_only narrow t d :
  attached d = 1%nat ->
  let d' := click narrow t d in
  (d' = d \/ nav_synced d') /\
  (nav_synced d -> nav_synced d') /\
  (t = OnToggle -> is_open d' = negb (is_open d)) /\
  (t = InNav -> d' = d) /\
  (t = Elsewhere \/ t = NotANode -> is_open d' = false) /\
  (t = OnLink -> if narrow then is_open d' = false else d' = d) /\
  (is_open d = false -> is_open d' = true -> t = OnToggle) /\
  attached d' = 1%nat /\
  dataset_navInitialised d' = dataset_navInitialised d.
Proof.
  intros Hone d'. subst d'. rewrite (click_once narrow t d Hone).
  unfold toggle_click, toggleNav, document_click, link_click.
  destruct t, narrow, (is_open d) eqn:Hopen;
    cbn [within_menu negb]; rewrite ?Hopen; cbn [negb];
    repeat split; intros; try discriminate; try congruence;
    first [ reflexivity | exact Hone | assumption
          | left; reflexivity | right; reflexivity
          | match goal with H : _ \/ _ |- _ => destruct H; discriminate end
          | idtac ].
Qed.

(** X22 at the button opens the menu, a click elsewhere closes it. *)
Lemma menu_opens_by_button_only_witness :
  let page := setupNavigation
                {| hasToggle := true; hasNav := true; dataset_navInitialised := None;
                   dataset_open := None; aria_expanded := Some "false"; attached := 0 |} in
  is_open (click false OnToggle page) = true /\
  nav_synced (click false OnToggle page) /\
  is_open (click false Elsewhere (click false OnToggle page)) = false.
Proof.
  intros page.
  destruct (menu_opens_by_button_only false OnToggle page eq_refl)
    as (Hsync & _ & Hflip & _).
  destruct (menu_opens_by_button_only false Elsewhere (click false OnToggle page) eq_refl)
    as (_ & _ & _ & _ & Hclose & _).
  split; [exact (Hflip eq_refl)|]. split; [|apply Hclose; left; reflexivity].
  destruct Hsync as [Hsame | Hsync]; [|exact Hsync].
  discriminate Hsame.
Defined.

End NavigationLaws.
